(** * Bank-statement import of meudinheiro: parser, fingerprint, reconciler

    A shallow embedding of the statement parser, of [importLedgerEntries]
    and of [importAccountBalances].

    The parser is the current revision of [utils/bankStatementParser.ts]:
    the one that exports [ParsedBalance] and [ParsedBankStatement], from
    which the current [firebase/firestore.ts] (with [importLedgerEntries]
    and [importAccountBalances]) imports its types. The source tree keeps it
    as the second part of the file [src/firebase/firestore.ts]; the file
    [src/utils/bankStatementParser.ts] holds the revision before it, of
    which module [Earlier] gives what differs, and the first one.

    Conventions of the embedding.
    - A JavaScript string is a [string]: one [ascii] per UTF-16 code unit,
      restricted to code units below 256 (the Latin-1 block, which holds
      every letter the Brazilian exports use).
    - A JavaScript number that holds cents is a [number]: NaN, an infinity,
      or an exact integer. The result of [parseFloat] is a [float]: NaN, an
      infinity or an exact decimal [m * 10^e]. Rounding to 53 bits is not
      modelled: finite values agree with IEEE doubles for amounts with at
      most two fraction digits below 2^51 cents, and an integer is printed
      with all its digits. Negative zero is identified with zero (the code
      only compares it, takes its absolute value and prints it).
    - [new Date(s)] is a function of the host and a parameter of the
      parser. A valid date is kept as the calendar day [toISOString] prints
      for it, which is the day written in [s] (or the day it rolls over to)
      wherever local noon and UTC noon fall on the same day. Two hosts are
      given: [Js.strictDate] checks the day against the length of the month,
      [Js.rollingDate] accepts the days 01 to 31 in every month and carries
      the excess into the next month.
    - A call returns or throws ([Completion]); Firestore is a map from user
      to the list of the user's ledger documents, threaded through a state
      monad ([Fire]) that also records the queries and commits issued. The
      store itself does not fail. *)

From Stdlib Require Import ZArith String Ascii List Bool Lia.
From stdpp Require Import gmap strings list.

Import ListNotations.
Local Open Scope string_scope.
Local Open Scope list_scope.

(** ** Strings *)

Module Str.

Definition charCode (c : ascii) : Z := Z.of_N (N_of_ascii c).

Definition chr (n : Z) : ascii := ascii_of_N (Z.to_N n).

(** [s += ch] *)
Definition push (s : string) (c : ascii) : string := s +:+ String c "".

Definition nonEmpty (s : string) : bool :=
  match s with EmptyString => false | _ => true end.

Fixpoint all (p : ascii -> bool) (s : string) : bool :=
  match s with
  | EmptyString => true
  | String c r => p c && all p r
  end.

Fixpoint repeat (c : ascii) (n : nat) : string :=
  match n with O => "" | S k => String c (repeat c k) end.

(** [s.padStart(n, c)] for a one-character filler. *)
Definition padStart (n : nat) (c : ascii) (s : string) : string :=
  repeat c (n - String.length s) +:+ s.

(** [s.slice(i, j)] for [0 <= i <= j]. *)
Definition slice (i j : nat) (s : string) : string := substring i (j - i) s.

Fixpoint drop (n : nat) (s : string) : string :=
  match n, s with
  | O, _ => s
  | S k, String _ r => drop k r
  | S _, EmptyString => ""
  end.

(** Digits of a non-negative integer in a radix, most significant first,
    as [Number.prototype.toString(radix)] prints an integer. *)
Definition digitChar (d : Z) : ascii :=
  if (d <? 10)%Z then chr (48 + d) else chr (87 + d).

Fixpoint digitsFuel (radix : Z) (fuel : nat) (n : Z) (acc : string) : string :=
  match fuel with
  | O => acc
  | S f =>
      let acc' := String (digitChar (n mod radix)) acc in
      if (n / radix =? 0)%Z then acc' else digitsFuel radix f (n / radix) acc'
  end.

Definition digits (radix : Z) (n : Z) : string :=
  digitsFuel radix (S (Z.to_nat (Z.log2 n))) n "".

Definition isDigit (c : ascii) : bool :=
  ((48 <=? charCode c) && (charCode c <=? 57))%Z.

Definition isLowerHex (c : ascii) : bool :=
  isDigit c || ((97 <=? charCode c) && (charCode c <=? 102))%Z.

Definition isLetter (c : ascii) : bool :=
  ((65 <=? charCode c) && (charCode c <=? 90)
   || (97 <=? charCode c) && (charCode c <=? 122))%Z.

(** [\w] *)
Definition isWord (c : ascii) : bool :=
  isLetter c || isDigit c || (charCode c =? 95)%Z.

(** [\s], and what [trim] strips: TAB, LF, VT, FF, CR, SP, NBSP. *)
Definition isSpace (c : ascii) : bool :=
  ((9 <=? charCode c) && (charCode c <=? 13)
   || (charCode c =? 32) || (charCode c =? 160))%Z.

Fixpoint trimStart (s : string) : string :=
  match s with
  | String c r => if isSpace c then trimStart r else s
  | EmptyString => ""
  end.

Fixpoint trimEnd (s : string) : string :=
  match s with
  | EmptyString => ""
  | String c r =>
      match trimEnd r with
      | EmptyString => if isSpace c then "" else String c ""
      | r' => String c r'
      end
  end.

Definition trim (s : string) : string := trimEnd (trimStart s).

(** ASCII upper case: the case folding a regex with the [i] flag (and no
    [u] flag) applies to code units below 256 that can meet an ASCII
    letter. *)
Definition upperAscii (c : ascii) : ascii :=
  if ((97 <=? charCode c) && (charCode c <=? 122))%Z
  then chr (charCode c - 32) else c.

Fixpoint toUpperAscii (s : string) : string :=
  match s with
  | EmptyString => ""
  | String c r => String (upperAscii c) (toUpperAscii r)
  end.

(** [pat] matches at the start of [s]; with [ci], up to ASCII case. *)
Fixpoint startsWith (ci : bool) (pat s : string) : bool :=
  match pat, s with
  | EmptyString, _ => true
  | String p pr, String c r =>
      (if ci then Ascii.eqb (upperAscii p) (upperAscii c) else Ascii.eqb p c)
      && startsWith ci pr r
  | String _ _, EmptyString => false
  end.

Fixpoint includes (c : ascii) (s : string) : bool :=
  match s with
  | EmptyString => false
  | String d r => Ascii.eqb c d || includes c r
  end.

End Str.

(** ** Numbers *)

Inductive number : Type :=
| NaN
| Infinity (negative : bool)
| Fin (z : Z).

Inductive float : Type :=
| FNaN
| FInfinity (negative : bool)
| FDec (m e : Z).   (* m * 10^e *)

Module Num.

Local Open Scope Z_scope.

(** The least magnitude that rounds to an infinity: 2^1024 - 2^970. *)
Definition overflow : Z := 2 ^ 1024 - 2 ^ 970.

Definition overflows (m e : Z) : bool :=
  if 0 <=? e then overflow <=? Z.abs m * 10 ^ e
  else overflow * 10 ^ (- e) <=? Z.abs m.

Definition finite (m e : Z) : float :=
  if overflows m e then FInfinity (m <? 0) else FDec m e.

(** [value * 100] *)
Definition times100 (v : float) : float :=
  match v with
  | FDec m e => finite m (e + 2)
  | _ => v
  end.

(** [Math.round]: the nearest integer, halves towards plus infinity. *)
Definition round (v : float) : number :=
  match v with
  | FNaN => NaN
  | FInfinity s => Infinity s
  | FDec m e =>
      if 0 <=? e then Fin (m * 10 ^ e)
      else Fin ((2 * m + 10 ^ (- e)) / (2 * 10 ^ (- e)))
  end.

Definition isNaN (v : float) : bool :=
  match v with FNaN => true | _ => false end.

(** [-x] *)
Definition neg (x : number) : number :=
  match x with
  | NaN => NaN
  | Infinity s => Infinity (negb s)
  | Fin z => Fin (- z)
  end.

(** [x - y] *)
Definition sub (x y : number) : number :=
  match x, y with
  | NaN, _ | _, NaN => NaN
  | Infinity s, Infinity t => if Bool.eqb s t then NaN else Infinity s
  | Infinity s, Fin _ => Infinity s
  | Fin _, Infinity t => Infinity (negb t)
  | Fin a, Fin b => Fin (a - b)
  end.

(** [Math.abs(x)] *)
Definition abs (x : number) : number :=
  match x with
  | NaN => NaN
  | Infinity _ => Infinity false
  | Fin z => Fin (Z.abs z)
  end.

(** [x === 0] *)
Definition isZero (x : number) : bool :=
  match x with Fin z => z =? 0 | _ => false end.

(** [x >= 0] *)
Definition geZero (x : number) : bool :=
  match x with
  | NaN => false
  | Infinity s => negb s
  | Fin z => 0 <=? z
  end.

(** The string a template literal makes of a number. *)
Definition toString (x : number) : string :=
  match x with
  | NaN => "NaN"
  | Infinity false => "Infinity"
  | Infinity true => "-Infinity"
  | Fin z =>
      if z <? 0 then String "-" (Str.digits 10 (- z)) else Str.digits 10 z
  end.

End Num.

(** ** Fingerprint *)

Module Hash.

Local Open Scope Z_scope.

Definition toInt32 (z : Z) : Z := (z + 2 ^ 31) mod 2 ^ 32 - 2 ^ 31.

Definition toUint32 (z : Z) : Z := z mod 2 ^ 32.

(** [Math.imul(a, b)] *)
Definition imul (a b : Z) : Z := toInt32 (toInt32 a * toInt32 b).

(** [a ^ b] *)
Definition xor (a b : Z) : Z := toInt32 (Z.lxor (toInt32 a) (toInt32 b)).

(** [a >>> n] *)
Definition ushr (a n : Z) : Z := Z.shiftr (toUint32 a) n.

(** The loop over the code units of [raw]. *)
Fixpoint mix (raw : list Z) (h1 h2 : Z) : Z * Z :=
  match raw with
  | [] => (h1, h2)
  | ch :: rest =>
      mix rest (imul (xor h1 ch) 2654435761) (imul (xor h2 ch) 1597334677)
  end.

(** [(h >>> 0).toString(16).padStart(8, '0')] *)
Definition hex8 (h : Z) : string :=
  Str.padStart 8 "0" (Str.digits 16 (ushr h 0)).

(** The body of [computeImportHash] from the loop on, for any sequence of
    UTF-16 code units. *)
Definition digest (raw : list Z) : string :=
  let '(h1, h2) := mix raw 3735928559 1103547991 in
  let h1' :=
    xor (imul (xor h1 (ushr h1 16)) 2246822507)
        (imul (xor h2 (ushr h2 13)) 3266489909) in
  let h2' :=
    xor (imul (xor h2 (ushr h2 16)) 2246822507)
        (imul (xor h1' (ushr h1' 13)) 3266489909) in
  let lo := hex8 h1' in
  let hi := hex8 h2' in
  hi +:+ lo.

(** [raw.charCodeAt(i)] for [i] from 0 to [raw.length - 1]. *)
Definition codeUnits (raw : string) : list Z :=
  map Str.charCode (list_ascii_of_string raw).

End Hash.

Definition computeImportHash
    (date description : string) (amountCents : number) : string :=
  let raw := date +:+ "|" +:+ description +:+ "|" +:+ Num.toString amountCents in
  Hash.digest (Hash.codeUnits raw).

(** ** Host functions: [parseFloat] and [Date] *)

Module Js.

Local Open Scope Z_scope.

Fixpoint takeDigits (s : string) : string * string :=
  match s with
  | String c r =>
      if Str.isDigit c
      then let '(ds, rest) := takeDigits r in (String c ds, rest)
      else ("", s)
  | EmptyString => ("", "")
  end.

Fixpoint digitsValue (acc : Z) (ds : string) : Z :=
  match ds with
  | EmptyString => acc
  | String c r => digitsValue (10 * acc + (Str.charCode c - 48)) r
  end.

(** The exponent part [e], [e+] or [e-] followed by digits; 0 when the
    text does not continue with one. *)
Definition exponent (s : string) : Z :=
  match s with
  | String c r =>
      if Ascii.eqb c "e" || Ascii.eqb c "E" then
        match r with
        | String "-" r' =>
            let '(ds, _) := takeDigits r' in
            if Str.nonEmpty ds then - digitsValue 0 ds else 0
        | String "+" r' =>
            let '(ds, _) := takeDigits r' in digitsValue 0 ds
        | _ => let '(ds, _) := takeDigits r in digitsValue 0 ds
        end
      else 0
  | EmptyString => 0
  end.

(** [parseFloat(s)]: the longest prefix of the trimmed text that is a
    decimal literal, or NaN when there is none. *)
Definition parseFloat (s : string) : float :=
  let s := Str.trimStart s in
  let '(negative, s) :=
    match s with
    | String "-" r => (true, r)
    | String "+" r => (false, r)
    | _ => (false, s)
    end in
  if Str.startsWith false "Infinity" s then FInfinity negative
  else
    let '(ip, r1) := takeDigits s in
    let '(fp, r2) :=
      match r1 with
      | String "." r => takeDigits r
      | _ => ("", r1)
      end in
    if negb (Str.nonEmpty ip) && negb (Str.nonEmpty fp) then FNaN
    else
      let m := digitsValue 0 (ip +:+ fp) in
      Num.finite (if negative then - m else m)
                 (exponent r2 - Z.of_nat (String.length fp)).

(** A valid [Date], as the calendar day [toISOString] prints for it. *)
Record Date : Type := mkDate { year : Z; month : Z; day : Z }.

(** [date.toISOString().slice(0, 10)] *)
Definition toISODate (d : Date) : string :=
  let pad n z := Str.padStart n "0" (Str.digits 10 z) in
  let y :=
    if (0 <=? year d) && (year d <=? 9999) then pad 4%nat (year d)
    else String (if year d <? 0 then "-"%char else "+"%char)
                (pad 6%nat (Z.abs (year d))) in
  Str.slice 0 10 (y +:+ "-" +:+ pad 2%nat (month d) +:+ "-"
                    +:+ pad 2%nat (day d)).

Definition isLeap (y : Z) : bool :=
  ((y mod 4 =? 0) && negb (y mod 100 =? 0)) || (y mod 400 =? 0).

Definition daysInMonth (y m : Z) : Z :=
  if m =? 2 then (if isLeap y then 29 else 28)
  else if (m =? 4) || (m =? 6) || (m =? 9) || (m =? 11) then 30
  else 31.

(** The text [YYYY-MM-DDT12:00:00] read as three numbers. *)
Definition isoNoon (s : string) : option (Z * Z * Z) :=
  let y := Str.slice 0 4 s in
  let m := Str.slice 5 7 s in
  let d := Str.slice 8 10 s in
  if Str.all Str.isDigit (y +:+ m +:+ d)
     && String.eqb s (y +:+ "-" +:+ m +:+ "-" +:+ d +:+ "T12:00:00")
     && (String.length s =? 19)%nat
  then Some (digitsValue 0 y, digitsValue 0 m, digitsValue 0 d)
  else None.

(** A host whose [Date] checks the day against the month (SpiderMonkey,
    JavaScriptCore). [None] is the invalid date. *)
Definition strictDate (s : string) : option Date :=
  match isoNoon s with
  | Some (y, m, d) =>
      if (1 <=? m) && (m <=? 12) && (1 <=? d) && (d <=? daysInMonth y m)
      then Some (mkDate y m d) else None
  | None => None
  end.

(** A host whose [Date] accepts the days 01 to 31 in every month and
    carries the excess into the next month (V8). *)
Definition rollingDate (s : string) : option Date :=
  match isoNoon s with
  | Some (y, m, d) =>
      if (1 <=? m) && (m <=? 12) && (1 <=? d) && (d <=? 31)
      then Some (if d <=? daysInMonth y m then mkDate y m d
                 else mkDate y (m + 1) (d - daysInMonth y m))
      else None
  | None => None
  end.

End Js.


(** ** Data model *)

Inductive LedgerEntryType : Type := income | expense | transfer.

Record ParsedTransaction : Type := {
  date : Js.Date;
  description : string;
  details : option string;
  documentId : option string;
  amountCents : number;
  type : LedgerEntryType;
  importHash : string
}.

Record ParsedBalance : Type := {
  balanceDate : Js.Date;
  balanceCents : number;
  balanceHash : string
}.

Record ParsedBankStatement : Type := {
  transactions : list ParsedTransaction;
  balances : list ParsedBalance
}.

(** ** Helpers *)

Fixpoint removeChars (p : ascii -> bool) (s : string) : string :=
  match s with
  | EmptyString => ""
  | String c r => if p c then removeChars p r else String c (removeChars p r)
  end.

(** [s.replace(',', '.')]: the first comma only. *)
Fixpoint replaceFirstComma (s : string) : string :=
  match s with
  | EmptyString => ""
  | String c r =>
      if Ascii.eqb c "," then String "." r else String c (replaceFirstComma r)
  end.

(** [(\.\d{3})*(,\d{1,2})?$] *)
Fixpoint brGroups (s : string) : bool :=
  match s with
  | EmptyString => true
  | String "." (String a (String b (String c r))) =>
      Str.isDigit a && Str.isDigit b && Str.isDigit c && brGroups r
  | String "," (String a EmptyString) => Str.isDigit a
  | String "," (String a (String b EmptyString)) =>
      Str.isDigit a && Str.isDigit b
  | _ => false
  end.

(** [/^\d{1,3}(\.\d{3})*(,\d{1,2})?$/] *)
Definition isBrFormat (s : string) : bool :=
  let '(ds, rest) := Js.takeDigits s in
  (1 <=? String.length ds)%nat && (String.length ds <=? 3)%nat
  && brGroups rest.

Definition parseAmountToCents (raw : string) : number :=
  let cleaned :=
    Str.trim
      (removeChars
         (fun c => Ascii.eqb c "R" || Ascii.eqb c "$" || Str.isSpace c) raw) in
  let negative := Str.startsWith false "-" cleaned in
  let cleaned := if negative then Str.drop 1 cleaned else cleaned in
  let cleaned :=
    if isBrFormat cleaned
    then replaceFirstComma (removeChars (Ascii.eqb ".") cleaned)
    else replaceFirstComma cleaned in
  let value := Js.parseFloat cleaned in
  let cents :=
    if Num.isNaN value then Fin 0 else Num.round (Num.times100 value) in
  if negative then Num.neg cents else cents.

Definition entryType (amountCents : number) : LedgerEntryType :=
  if Num.geZero amountCents then income else expense.

(** *** The CSV tokenizer *)

(** [text.split(/\r?\n/)] *)
Fixpoint splitLines (text : string) (current : string) : list string :=
  match text with
  | EmptyString => [current]
  | String c rest =>
      if Ascii.eqb c "010" then current :: splitLines rest ""
      else
        match rest with
        | String d rest' =>
            if Ascii.eqb c "013" && Ascii.eqb d "010"
            then current :: splitLines rest' ""
            else splitLines rest (Str.push current c)
        | EmptyString => splitLines rest (Str.push current c)
        end
  end.

Definition nonEmptyLines (text : string) : list string :=
  List.filter Str.nonEmpty (map Str.trim (splitLines text "")).

Definition dquote : ascii := "034".

Definition isQuote (c : ascii) : bool := Ascii.eqb c dquote || Ascii.eqb c "'".

(** The loop of [splitRow]: [line] is what is left to read. *)
Fixpoint splitRowLoop (delimiter : ascii) (line : string)
    (current : string) (inQuotes : bool) (result : list string)
    : list string :=
  match line with
  | EmptyString => result ++ [Str.trim current]
  | String ch rest =>
      if isQuote ch && negb inQuotes then
        splitRowLoop delimiter rest current true result
      else if Ascii.eqb ch dquote && inQuotes then
        match rest with
        | String next rest' =>
            if Ascii.eqb next dquote
            then splitRowLoop delimiter rest' (Str.push current dquote)
                              inQuotes result
            else splitRowLoop delimiter rest current false result
        | EmptyString => splitRowLoop delimiter rest current false result
        end
      else if Ascii.eqb ch delimiter && negb inQuotes then
        splitRowLoop delimiter rest "" inQuotes (result ++ [Str.trim current])
      else
        splitRowLoop delimiter rest (Str.push current ch) inQuotes result
  end.

Definition splitRow (delimiter : ascii) (line : string) : list string :=
  splitRowLoop delimiter line "" false [].

(** *** The header classifier *)

(** [c.toLowerCase()] for one code unit below 256. *)
Definition lowerChar (c : ascii) : ascii :=
  let n := Str.charCode c in
  if ((65 <=? n) && (n <=? 90)
      || (192 <=? n) && (n <=? 222) && negb (n =? 215))%Z
  then Str.chr (n + 32) else c.

(** The base letter left of a lower-case code unit once it is decomposed
    (NFD) and its combining marks are removed. *)
Definition baseChar (c : ascii) : ascii :=
  let n := Str.charCode c in
  if ((224 <=? n) && (n <=? 229))%Z then "a"%char
  else if (n =? 231)%Z then "c"%char
  else if ((232 <=? n) && (n <=? 235))%Z then "e"%char
  else if ((236 <=? n) && (n <=? 239))%Z then "i"%char
  else if (n =? 241)%Z then "n"%char
  else if ((242 <=? n) && (n <=? 246))%Z then "o"%char
  else if ((249 <=? n) && (n <=? 252))%Z then "u"%char
  else if ((n =? 253) || (n =? 255))%Z then "y"%char
  else c.

(** [s.toLowerCase().normalize('NFD')] with the combining marks U+0300 to
    U+036F removed. *)
Fixpoint norm (s : string) : string :=
  match s with
  | EmptyString => ""
  | String c r => String (baseChar (lowerChar c)) (norm r)
  end.

Definition anyPrefix (pats : list string) (s : string) : bool :=
  existsb (fun p => Str.startsWith false p s) pats.

(** [/^(valor|value|amount|val\b)/] *)
Definition isValueHeader (h : string) : bool :=
  anyPrefix ["valor"; "value"; "amount"] h
  || Str.startsWith false "val" h
     && match Str.drop 3 h with
        | String c _ => negb (Str.isWord c)
        | EmptyString => true
        end.

(** [/^n[°o]?\s*(doc|documento)/] *)
Definition isDocHeader (h : string) : bool :=
  match h with
  | String "n" r =>
      Str.startsWith false "doc" (Str.trimStart r)
      || match r with
         | String c r' =>
             (Ascii.eqb c "176" || Ascii.eqb c "o")
             && Str.startsWith false "doc" (Str.trimStart r')
         | EmptyString => false
         end
  | _ => false
  end.

(** [headers.findIndex(p)], with [None] for -1. *)
Fixpoint findIndex (p : string -> bool) (l : list string) : option nat :=
  match l with
  | [] => None
  | h :: t => if p h then Some O else option_map S (findIndex p t)
  end.

Record Columns : Type := {
  dateIdx : option nat;
  descIdx : option nat;
  detailsIdx : option nat;
  docIdx : option nat;
  valueIdx : option nat;
  debitIdx : option nat;
  creditIdx : option nat;
  typeIdx : option nat
}.

Definition classifyHeaders (headers : list string) : Columns := {|
  dateIdx := findIndex (anyPrefix ["data"; "date"; "dt"]) headers;
  descIdx :=
    findIndex
      (anyPrefix ["descri"; "histor"; "memo"; "lanc"; "descr"; "desc"])
      headers;
  detailsIdx :=
    findIndex (anyPrefix ["detalhe"; "detail"; "complemento"; "memo2"])
              headers;
  docIdx := findIndex isDocHeader headers;
  valueIdx := findIndex isValueHeader headers;
  debitIdx := findIndex (anyPrefix ["debito"; "debit"; "saida"]) headers;
  creditIdx := findIndex (anyPrefix ["credito"; "credit"; "entrada"]) headers;
  typeIdx := findIndex (anyPrefix ["tipo"]) headers
|}.

(** [cols[idx] ?? ''] *)
Definition col (cols : list string) (idx : option nat) : string :=
  match idx with
  | Some i => nth i cols ""
  | None => ""
  end.

(** [idx !== -1] *)
Definition found (idx : option nat) : bool :=
  match idx with Some _ => true | None => false end.

(** [idx !== -1 && cols[idx]] as a condition *)
Definition present (cols : list string) (idx : option nat) : bool :=
  match idx with
  | Some i => Str.nonEmpty (nth i cols "")
  | None => false
  end.

(** *** The row classifier *)

(** [\s+] followed by the rest of a pattern. *)
Definition afterSpaces (k : string -> bool) (s : string) : bool :=
  match s with
  | String c _ => Str.isSpace c && k (Str.trimStart s)
  | EmptyString => false
  end.

(** [/^saldo\s+anterior/i] *)
Definition SKIP_SALDO_ANTERIOR (s : string) : bool :=
  Str.startsWith true "saldo" s
  && afterSpaces (Str.startsWith true "anterior") (Str.drop 5 s).

(** [/^saldo\s+do\s+dia/i] *)
Definition SKIP_SALDO_DO_DIA (s : string) : bool :=
  Str.startsWith true "saldo" s
  && afterSpaces
       (fun r => Str.startsWith true "do" r
                 && afterSpaces (Str.startsWith true "dia") (Str.drop 2 r))
       (Str.drop 5 s).

(** One letter of a letter-spaced word, then [\s+], then the rest. *)
Definition spaced (letter : string) (k : string -> bool) (s : string) : bool :=
  Str.startsWith true letter s && afterSpaces k (Str.drop 1 s).

(** [/^s\s+a\s+l\s+d\s+o/i] *)
Definition IS_SALDO (s : string) : bool :=
  spaced "s" (spaced "a" (spaced "l" (spaced "d" (Str.startsWith true "o")))) s.

Inductive RowOutcome : Type :=
| Discarded
| BalanceRow (b : ParsedBalance)
| TransactionRow (t : ParsedTransaction).

(** [if (s.trim()) entry.field = s.trim()] *)
Definition optionalField (s : string) : option string :=
  if Str.nonEmpty (Str.trim s) then Some (Str.trim s) else None.

(** *** The OFX extractor *)

(** A call either returns or throws; the parser only ever throws the
    [RangeError] of [toISOString] on an invalid date. *)
Inductive Completion (A : Type) : Type :=
| Returned (a : A)
| ThrownRangeError.

Arguments Returned {A} a.
Arguments ThrownRangeError {A}.

(** The first match of [pat], up to ASCII case: the text before it and the
    text after it. *)
Fixpoint findCI (pat s : string) : option (string * string) :=
  match s with
  | EmptyString => None
  | String c r =>
      if Str.startsWith true pat s
      then Some ("", Str.drop (String.length pat) s)
      else match findCI pat r with
           | Some (before, after) => Some (String c before, after)
           | None => None
           end
  end.

(** The bodies [blockRe = /<STMTTRN>([\s\S]*?)<\/STMTTRN>/gi] matches in
    turn. Each match consumes at least one character, so [fuel] is the
    length of the text. *)
Fixpoint closedBlocks (fuel : nat) (text : string) : list string :=
  match fuel with
  | O => []
  | S f =>
      match findCI "<STMTTRN>" text with
      | Some (_, opened) =>
          match findCI "</STMTTRN>" opened with
          | Some (body, rest) => body :: closedBlocks f rest
          | None => []
          end
      | None => []
      end
  end.

(** The shortest text up to [(?=<STMTTRN>|<\/BANKTRANLIST>|$)], and what
    follows from that boundary on. *)
Fixpoint untilBoundary (s : string) : string * string :=
  match s with
  | EmptyString => ("", "")
  | String c r =>
      if Str.startsWith true "<STMTTRN>" s
         || Str.startsWith true "</BANKTRANLIST>" s
      then ("", s)
      else let '(body, rest) := untilBoundary r in (String c body, rest)
  end.

(** The bodies [sgmlRe] matches in turn. *)
Fixpoint sgmlBlocks (fuel : nat) (text : string) : list string :=
  match fuel with
  | O => []
  | S f =>
      match findCI "<STMTTRN>" text with
      | Some (_, opened) =>
          let '(body, rest) := untilBoundary opened in
          body :: sgmlBlocks f rest
      | None => []
      end
  end.

Fixpoint takeWhile (p : ascii -> bool) (s : string) : string * string :=
  match s with
  | String c r =>
      if p c then let '(xs, rest) := takeWhile p r in (String c xs, rest)
      else ("", s)
  | EmptyString => ("", "")
  end.

(** [tagRe] at the start of [s]: an opening angle bracket, one or more
    letters, a closing angle bracket, then the longest run free of an
    opening bracket, LF and CR. The tag, the value and the text after the
    match. *)
Definition matchTag (s : string) : option (string * string * string) :=
  match s with
  | String "<" r =>
      let '(name, r1) := takeWhile Str.isLetter r in
      match r1 with
      | String ">" r2 =>
          if Str.nonEmpty name then
            let '(value, r3) :=
              takeWhile
                (fun c => negb (Ascii.eqb c "<" || Ascii.eqb c "010"
                                || Ascii.eqb c "013")) r2 in
            Some (name, value, r3)
          else None
      | _ => None
      end
  | _ => None
  end.

(** The loop [while ((tag = tagRe.exec(body)) !== null)] filling [fields]. *)
Fixpoint tagFields (fuel : nat) (body : string)
    (fields : gmap string string) : gmap string string :=
  match fuel with
  | O => fields
  | S f =>
      match body with
      | EmptyString => fields
      | String _ r =>
          match matchTag body with
          | Some (name, value, rest) =>
              tagFields f rest
                (<[Str.toUpperAscii name := Str.trim value]> fields)
          | None => tagFields f r fields
          end
      end
  end.

Definition blockFields (body : string) : gmap string string :=
  tagFields (String.length body) body ∅.

(** [s.replace(/\d+\W/g, '')]: every run of digits that a non-word
    character follows is removed together with that character. *)
Fixpoint stripDigitRuns (fuel : nat) (s : string) : string :=
  match fuel with
  | O => s
  | S f =>
      match s with
      | EmptyString => ""
      | String c r =>
          if Str.isDigit c then
            let '(ds, rest) := Js.takeDigits s in
            match rest with
            | String w rest' =>
                if Str.isWord w then ds +:+ stripDigitRuns f rest
                else stripDigitRuns f rest'
            | EmptyString => ds
            end
          else String c (stripDigitRuns f r)
      end
  end.

(** [x ?? y] *)
Definition orElse {A : Type} (x : option A) (y : A) : A :=
  match x with Some a => a | None => y end.

(** [parseFloat(rawAmount.replace(',', '.'))] turned into cents. *)
Definition ofxAmount (rawAmount : string) : number :=
  let amountFloat := Js.parseFloat (replaceFirstComma rawAmount) in
  if Num.isNaN amountFloat then Fin 0
  else Num.round (Num.times100 amountFloat).

Section Parser.

(** [new Date(s)] of the host; [None] is the invalid date. *)
Variable newDate : string -> option Js.Date.

(** [/^(\d{2})\/(\d{2})\/(\d{4})$/] *)
Definition brMatch (raw : string) : option (string * string * string) :=
  let d := Str.slice 0 2 raw in
  let m := Str.slice 3 5 raw in
  let y := Str.slice 6 10 raw in
  if (String.length raw =? 10)%nat
     && Str.all Str.isDigit (d +:+ m +:+ y)
     && String.eqb raw (d +:+ "/" +:+ m +:+ "/" +:+ y)
  then Some (d, m, y) else None.

(** [/^(\d{4})-(\d{2})-(\d{2})/] *)
Definition isoMatch (raw : string) : option (string * string * string) :=
  let y := Str.slice 0 4 raw in
  let m := Str.slice 5 7 raw in
  let d := Str.slice 8 10 raw in
  if (10 <=? String.length raw)%nat
     && Str.all Str.isDigit (y +:+ m +:+ d)
     && String.eqb (Str.slice 0 10 raw) (y +:+ "-" +:+ m +:+ "-" +:+ d)
  then Some (y, m, d) else None.

Definition parseDate (raw : string) : option Js.Date :=
  let raw := Str.trim raw in
  match brMatch raw with
  | Some (d, m, y) =>
      if String.eqb d "00" || String.eqb m "00" then None
      else newDate (y +:+ "-" +:+ m +:+ "-" +:+ d +:+ "T12:00:00")
  | None =>
      match isoMatch raw with
      | Some (y, m, d) =>
          newDate (y +:+ "-" +:+ m +:+ "-" +:+ d +:+ "T12:00:00")
      | None => None
      end
  end.

(** The body of the loop of [parseCsv] for one data line. *)
Definition processRow (delimiter : ascii) (c : Columns) (line : string)
    : RowOutcome :=
  let cols := splitRow delimiter line in
  match parseDate (col cols (dateIdx c)) with
  | None => Discarded
  | Some date =>
      let lancamento := col cols (descIdx c) in
      if SKIP_SALDO_ANTERIOR lancamento then Discarded
      else if SKIP_SALDO_DO_DIA lancamento then Discarded
      else if IS_SALDO lancamento then
        let balanceCents :=
          if present cols (valueIdx c)
          then parseAmountToCents (col cols (valueIdx c))
          else if present cols (creditIdx c)
          then parseAmountToCents (col cols (creditIdx c))
          else Fin 0 in
        let dateStr := Js.toISODate date in
        BalanceRow {|
          balanceDate := date;
          balanceCents := balanceCents;
          balanceHash := computeImportHash dateStr "SALDO" balanceCents
        |}
      else
        let details := col cols (detailsIdx c) in
        let description := lancamento in
        let documentId := col cols (docIdx c) in
        let amountCents :=
          if present cols (valueIdx c)
          then parseAmountToCents (col cols (valueIdx c))
          else if found (debitIdx c) || found (creditIdx c) then
            let debit :=
              if present cols (debitIdx c)
              then parseAmountToCents (col cols (debitIdx c)) else Fin 0 in
            let credit :=
              if present cols (creditIdx c)
              then parseAmountToCents (col cols (creditIdx c)) else Fin 0 in
            Num.sub credit debit
          else Fin 0 in
        if Num.isZero amountCents && negb (Str.nonEmpty description)
        then Discarded
        else
          let type :=
            if present cols (typeIdx c) then
              let typeVal := norm (col cols (typeIdx c)) in
              if anyPrefix ["entrada"; "credito"; "credit"] typeVal
              then income
              else if anyPrefix ["saida"; "debito"; "debit"] typeVal
              then expense
              else entryType amountCents
            else entryType amountCents in
          let dateStr := Js.toISODate date in
          TransactionRow {|
            date := date;
            description := description;
            details := optionalField details;
            documentId := optionalField documentId;
            amountCents := Num.abs amountCents;
            type := type;
            importHash :=
              computeImportHash dateStr description (Num.abs amountCents)
          |}
  end.

Definition rowTransactions (rows : list RowOutcome) : list ParsedTransaction :=
  flat_map (fun r => match r with TransactionRow t => [t] | _ => [] end) rows.

Definition rowBalances (rows : list RowOutcome) : list ParsedBalance :=
  flat_map (fun r => match r with BalanceRow b => [b] | _ => [] end) rows.

Definition emptyStatement : ParsedBankStatement :=
  {| transactions := []; balances := [] |}.

Definition parseCsv (text : string) : ParsedBankStatement :=
  match nonEmptyLines text with
  | header :: ((_ :: _) as data) =>
      let delimiter := if Str.includes ";" header then ";"%char else ","%char in
      let headers := map norm (splitRow delimiter header) in
      let c := classifyHeaders headers in
      if negb (found (dateIdx c)) || negb (found (descIdx c))
      then emptyStatement
      else
        let rows := map (processRow delimiter c) data in
        {| transactions := rowTransactions rows; balances := rowBalances rows |}
  | _ => emptyStatement
  end.

(** What both passes do with [DTPOSTED] and [TRNAMT] once the balance
    markers are past: [None] is [continue]. *)
Definition ofxEntry (fields : gmap string string) (description : string)
    : Completion (option ParsedTransaction) :=
  let dtPosted := orElse (fields !! "DTPOSTED") "" in
  let year := Str.slice 0 4 dtPosted in
  let month := Str.slice 4 6 dtPosted in
  let day := Str.slice 6 8 dtPosted in
  if negb (Str.nonEmpty year) || negb (Str.nonEmpty month)
     || negb (Str.nonEmpty day)
  then Returned None
  else
    let date :=
      newDate (year +:+ "-" +:+ month +:+ "-" +:+ day +:+ "T12:00:00") in
    let amountCents := ofxAmount (orElse (fields !! "TRNAMT") "0") in
    match date with
    | None => ThrownRangeError   (* date.toISOString() *)
    | Some date =>
        let dateStr := Js.toISODate date in
        let fitid := orElse (fields !! "FITID") "" in
        Returned (Some {|
          date := date;
          description := description;
          details := None;
          documentId := optionalField fitid;
          amountCents := Num.abs amountCents;
          type := entryType amountCents;
          importHash :=
            computeImportHash dateStr description (Num.abs amountCents)
        |})
    end.

(** The body of the first loop, over a [<STMTTRN>...</STMTTRN>] block. *)
Definition closedBlock (body : string)
    : Completion (option ParsedTransaction) :=
  let fields := blockFields body in
  let name := orElse (fields !! "NAME") "" in
  let memo :=
    orElse
      (option_map (fun m => stripDigitRuns (String.length m) m)
                  (fields !! "MEMO"))
      "" in
  if String.eqb name "Saldo Anterior" || String.eqb name "Saldo do dia"
  then Returned None
  else
    (* memo ?? name ?? fields['FITID'] ?? '' with [memo] always a string *)
    ofxEntry fields memo.

(** The body of the second loop, over a flat block. *)
Definition sgmlBlock (body : string)
    : Completion (option ParsedTransaction) :=
  let fields := blockFields body in
  if bool_decide (fields !! "NAME" = Some "Saldo Anterior")
     || bool_decide (fields !! "NAME" = Some "Saldo do Dia")
  then Returned None
  else
    let description :=
      match fields !! "MEMO" with
      | Some memo => memo
      | None =>
          match fields !! "NAME" with
          | Some name => name
          | None => orElse (fields !! "FITID") ""
          end
      end in
    ofxEntry fields description.

(** A loop that pushes what each block yields, until one throws. *)
Fixpoint pushAll (step : string -> Completion (option ParsedTransaction))
    (blocks : list string) (transactions : list ParsedTransaction)
    : Completion (list ParsedTransaction) :=
  match blocks with
  | [] => Returned transactions
  | body :: more =>
      match step body with
      | ThrownRangeError => ThrownRangeError
      | Returned None => pushAll step more transactions
      | Returned (Some t) => pushAll step more (transactions ++ [t])
      end
  end.

Definition parseOfx (text : string) : Completion ParsedBankStatement :=
  match pushAll closedBlock (closedBlocks (String.length text) text) [] with
  | ThrownRangeError => ThrownRangeError
  | Returned transactions =>
      if (length transactions =? 0)%nat then
        match
          pushAll sgmlBlock (sgmlBlocks (String.length text) text)
                  transactions
        with
        | ThrownRangeError => ThrownRangeError
        | Returned transactions =>
            Returned {| transactions := transactions; balances := [] |}
        end
      else Returned {| transactions := transactions; balances := [] |}
  end.

End Parser.

(** ** The entry point *)

(** [s.toLowerCase()] for code units below 256. *)
Fixpoint toLowerCase (s : string) : string :=
  match s with
  | EmptyString => ""
  | String c r => String (lowerChar c) (toLowerCase r)
  end.

(** [name.split('.').pop()]: what follows the last dot, the whole name when
    it has none; [current] is the piece being read. *)
Fixpoint lastPiece (name current : string) : string :=
  match name with
  | EmptyString => current
  | String c r =>
      if Ascii.eqb c "." then lastPiece r ""
      else lastPiece r (Str.push current c)
  end.

(** [parseBankStatementFile] for a file of the given name and text. *)
Definition parseBankStatementFile (newDate : string -> option Js.Date)
    (name text : string) : Completion ParsedBankStatement :=
  let ext := toLowerCase (lastPiece name "") in
  if String.eqb ext "ofx" || String.eqb ext "qfx"
  then parseOfx newDate text
  else Returned (parseCsv newDate text).

(** ** The revision before *)

(** [utils/bankStatementParser.ts] as it was before balances were parsed:
    [parseCsv] returns transactions only and skips every balance row, the
    details are appended to the description, and the two loops of
    [parseOfx] have one and the same body. Only what differs from the
    current revision is given. *)
Module Earlier.

Section Parser.

Variable newDate : string -> option Js.Date.

(** [/^(saldo|s\s+a\s+l\s+d\s+o)/i] *)
Definition SKIP_KEYWORDS (s : string) : bool :=
  Str.startsWith true "saldo" s || IS_SALDO s.

Definition processRow (delimiter : ascii) (c : Columns) (line : string)
    : RowOutcome :=
  let cols := splitRow delimiter line in
  match parseDate newDate (col cols (dateIdx c)) with
  | None => Discarded
  | Some date =>
      let lancamento := col cols (descIdx c) in
      if SKIP_KEYWORDS lancamento then Discarded
      else
        let details := col cols (detailsIdx c) in
        let description :=
          if Str.nonEmpty details then lancamento +:+ ": " +:+ details
          else lancamento in
        let amountCents :=
          if present cols (valueIdx c)
          then parseAmountToCents (col cols (valueIdx c))
          else if found (debitIdx c) || found (creditIdx c) then
            let debit :=
              if present cols (debitIdx c)
              then parseAmountToCents (col cols (debitIdx c)) else Fin 0 in
            let credit :=
              if present cols (creditIdx c)
              then parseAmountToCents (col cols (creditIdx c)) else Fin 0 in
            Num.sub credit debit
          else Fin 0 in
        if Num.isZero amountCents && negb (Str.nonEmpty description)
        then Discarded
        else
          let type :=
            if present cols (typeIdx c) then
              let typeVal := norm (col cols (typeIdx c)) in
              if anyPrefix ["entrada"; "credito"; "credit"] typeVal
              then income
              else if anyPrefix ["saida"; "debito"; "debit"] typeVal
              then expense
              else entryType amountCents
            else entryType amountCents in
          let dateStr := Js.toISODate date in
          TransactionRow {|
            date := date;
            description := description;
            details := None;
            documentId := None;
            amountCents := Num.abs amountCents;
            type := type;
            importHash :=
              computeImportHash dateStr description (Num.abs amountCents)
          |}
  end.

(** The body both loops of [parseOfx] have. *)
Definition ofxBlock (body : string)
    : Completion (option ParsedTransaction) :=
  let fields := blockFields body in
  let dtPosted := orElse (fields !! "DTPOSTED") "" in
  let year := Str.slice 0 4 dtPosted in
  let month := Str.slice 4 6 dtPosted in
  let day := Str.slice 6 8 dtPosted in
  if negb (Str.nonEmpty year) || negb (Str.nonEmpty month)
     || negb (Str.nonEmpty day)
  then Returned None
  else
    let date :=
      newDate (year +:+ "-" +:+ month +:+ "-" +:+ day +:+ "T12:00:00") in
    let amountCents := ofxAmount (orElse (fields !! "TRNAMT") "0") in
    let description :=
      match fields !! "MEMO" with
      | Some memo => memo
      | None =>
          match fields !! "NAME" with
          | Some name => name
          | None => orElse (fields !! "FITID") ""
          end
      end in
    match date with
    | None => ThrownRangeError
    | Some date =>
        let dateStr := Js.toISODate date in
        Returned (Some {|
          date := date;
          description := description;
          details := None;
          documentId := None;
          amountCents := Num.abs amountCents;
          type := entryType amountCents;
          importHash :=
            computeImportHash dateStr description (Num.abs amountCents)
        |})
    end.

Definition parseOfx (text : string) : Completion (list ParsedTransaction) :=
  match pushAll ofxBlock (closedBlocks (String.length text) text) [] with
  | ThrownRangeError => ThrownRangeError
  | Returned transactions =>
      if (length transactions =? 0)%nat
      then pushAll ofxBlock (sgmlBlocks (String.length text) text)
                   transactions
      else Returned transactions
  end.

End Parser.

End Earlier.

(** ** The ledger store *)

Record LedgerDoc : Type := {
  docId : nat;
  docUserId : string;
  docAccountId : string;
  docType : LedgerEntryType;
  docAmountCents : number;
  docDescription : string;
  docDate : Js.Date;
  docImportHash : option string;
  docDetails : option string;
  docDocumentId : option string;
  docCreatedAt : Z;
  docUpdatedAt : Z
}.

(** The collections [users/{userId}/ledgerEntries] and the source of the
    identifiers [doc(col)] hands out. *)
Record Store : Type := {
  ledgerEntries : gmap string (list LedgerDoc);
  nextId : nat
}.

Inductive Request : Type :=
| GetDocs (userId : string) (chunk : list string)
| Commit (userId : string) (writes : nat).

Record World : Type := {
  store : Store;
  clock : Z;
  requests : list Request
}.

Definition ledgerCol (userId : string) (w : World) : list LedgerDoc :=
  default [] (ledgerEntries (store w) !! userId).

Definition Fire (A : Type) : Type := World -> A * World.

Definition ret {A : Type} (a : A) : Fire A := fun w => (a, w).

Definition bind {A B : Type} (m : Fire A) (k : A -> Fire B) : Fire B :=
  fun w => let '(a, w') := m w in k a w'.

Notation "x <- m ;; k" := (bind m (fun x => k))
  (at level 100, m at next level, right associativity).

Fixpoint foldM {A B : Type} (f : B -> A -> Fire B) (l : list A) (b : B)
    : Fire B :=
  match l with
  | [] => ret b
  | a :: l' => b' <- f b a ;; foldM f l' b'
  end.

Fixpoint mapM {A B : Type} (f : A -> Fire B) (l : list A) : Fire (list B) :=
  match l with
  | [] => ret []
  | a :: l' => b <- f a ;; bs <- mapM f l' ;; ret (b :: bs)
  end.

Definition stringIn (h : string) (l : list string) : bool :=
  existsb (String.eqb h) l.

(** [getDocs(query(col, where('importHash', 'in', chunk)))] *)
Definition getDocsIn (userId : string) (chunk : list string)
    : Fire (list LedgerDoc) :=
  fun w =>
    (List.filter
       (fun d => match docImportHash d with
                 | Some h => stringIn h chunk
                 | None => false
                 end)
       (ledgerCol userId w),
     {| store := store w; clock := clock w;
        requests := requests w ++ [GetDocs userId chunk] |}).

(** [doc(col)] *)
Definition newDocRef : Fire nat :=
  fun w =>
    (nextId (store w),
     {| store := {| ledgerEntries := ledgerEntries (store w);
                    nextId := S (nextId (store w)) |};
        clock := clock w; requests := requests w |}).

(** [Timestamp.now()] *)
Definition timestampNow : Fire Z := fun w => (clock w, w).

(** [batch.commit()] of a batch of [set] writes on fresh references. *)
Definition commit (userId : string) (batch : list LedgerDoc) : Fire unit :=
  fun w =>
    (tt,
     {| store :=
          {| ledgerEntries :=
               <[userId := ledgerCol userId w ++ batch]>
                 (ledgerEntries (store w));
             nextId := nextId (store w) |};
        clock := clock w;
        requests := requests w ++ [Commit userId (length batch)] |}).

(** The slices [l.slice(i, i + size)] for [i = 0, size, 2 size, ...] below
    the length of [l]. *)
Fixpoint chunksFuel {A : Type} (fuel size : nat) (l : list A)
    : list (list A) :=
  match fuel with
  | O => []
  | S f =>
      match l with
      | [] => []
      | _ => firstn size l :: chunksFuel f size (skipn size l)
      end
  end.

Definition chunks {A : Type} (size : nat) (l : list A) : list (list A) :=
  chunksFuel (length l) size l.

Record ImportResult : Type := { imported : nat; skipped : nat }.

Definition BATCH_SIZE : nat := 30.
Definition WRITE_BATCH_SIZE : nat := 500.

(** [snap.docs.forEach(d => { if (hash) existingHashes.add(hash) })] *)
Definition addHashes (existingHashes : gset string) (docs : list LedgerDoc)
    : gset string :=
  fold_left
    (fun acc d =>
       match docImportHash d with
       | Some hash => if Str.nonEmpty hash then {[hash]} ∪ acc else acc
       | None => acc
       end)
    docs existingHashes.

(** [if (s && s.trim()) entry[field] = s] *)
Definition keptField (s : option string) : option string :=
  match s with
  | Some v => if Str.nonEmpty v && Str.nonEmpty (Str.trim v) then Some v
              else None
  | None => None
  end.

Definition ledgerEntry (userId accountId : string) (now : Z)
    (t : ParsedTransaction) (ref : nat) : LedgerDoc := {|
  docId := ref;
  docUserId := userId;
  docAccountId := accountId;
  docType := type t;
  docAmountCents := amountCents t;
  docDescription := description t;
  docDate := date t;
  docImportHash := Some (importHash t);
  docDetails := keptField (details t);
  docDocumentId := keptField (documentId t);
  docCreatedAt := now;
  docUpdatedAt := now
|}.

(** The body of the existence-check loop. *)
Definition checkChunk (userId : string) (existingHashes : gset string)
    (chunk : list string) : Fire (gset string) :=
  docs <- getDocsIn userId chunk ;;
  ret (addHashes existingHashes docs).

(** The body of the write loop. *)
Definition writeChunk (userId accountId : string) (_ : unit)
    (chunk : list ParsedTransaction) : Fire unit :=
  now <- timestampNow ;;
  batch <-
    mapM (fun t =>
            ref <- newDocRef ;;
            ret (ledgerEntry userId accountId now t ref))
         chunk ;;
  commit userId batch.

Definition importLedgerEntries (userId accountId : string)
    (transactions : list ParsedTransaction) : Fire ImportResult :=
  if (length transactions =? 0)%nat then ret {| imported := 0; skipped := 0 |}
  else
    let allHashes := map importHash transactions in
    existingHashes <-
      foldM (checkChunk userId) (chunks BATCH_SIZE allHashes) ∅ ;;
    let toImport :=
      List.filter (fun t => negb (bool_decide (importHash t ∈ existingHashes)))
                  transactions in
    let skipped := (length transactions - length toImport)%nat in
    _ <-
      foldM (writeChunk userId accountId)
            (chunks WRITE_BATCH_SIZE toImport) tt ;;
    ret {| imported := length toImport; skipped := skipped |}.

(** *** Vocabulary of the statements about the store *)

Definition hashIs (h : string) (d : LedgerDoc) : bool :=
  match docImportHash d with
  | Some h' => String.eqb h' h
  | None => false
  end.

(** Documents of a collection that carry the fingerprint [h]. *)
Definition countHash (h : string) (docs : list LedgerDoc) : nat :=
  length (List.filter (hashIs h) docs).

(** What the existence check finds: a non-empty fingerprint some document
    of the collection carries. *)
Definition known (docs : list LedgerDoc) (h : string) : bool :=
  Str.nonEmpty h && existsb (hashIs h) docs.

Definition emptyWorld : World :=
  {| store := {| ledgerEntries := ∅; nextId := 0 |}; clock := 1700000000;
     requests := [] |}.

(** The world after the existence queries for the chunks [cs]. *)
Definition queriedWorld (userId : string) (cs : list (list string))
    (w : World) : World :=
  {| store := store w; clock := clock w;
     requests := requests w ++ map (GetDocs userId) cs |}.

(** The documents one run writes for [txs], in order, from the reference
    [ref] on. *)
Fixpoint writtenDocs (userId accountId : string) (now : Z) (ref : nat)
    (txs : list ParsedTransaction) : list LedgerDoc :=
  match txs with
  | [] => []
  | t :: more =>
      ledgerEntry userId accountId now t ref
      :: writtenDocs userId accountId now (S ref) more
  end.

(** The document [d] holds the fields of [t] for the given user and
    account, and was never updated. *)
Definition copied (userId accountId : string) (t : ParsedTransaction)
    (d : LedgerDoc) : Prop :=
  docUserId d = userId /\ docAccountId d = accountId
  /\ docType d = type t /\ docAmountCents d = amountCents t
  /\ docDescription d = description t /\ docDate d = date t
  /\ docImportHash d = Some (importHash t)
  /\ docDetails d = keptField (details t)
  /\ docDocumentId d = keptField (documentId t)
  /\ docCreatedAt d = docUpdatedAt d.

(** The transactions of [txs] whose fingerprint the existence check does
    not find among [docs]. *)
Definition unknown (docs : list LedgerDoc) (txs : list ParsedTransaction)
    : list ParsedTransaction :=
  List.filter (fun t => negb (known docs (importHash t))) txs.

(** ** The balance store *)

(** [importAccountBalances] runs the same two loops over the collections
    [users/{userId}/accountBalances]; its documents have no type,
    description or update time. *)
Module Balances.

Record BalanceDoc : Type := {
  balId : nat;
  balUserId : string;
  balAccountId : string;
  balDate : Js.Date;
  balCents : number;
  balHash : option string;
  balCreatedAt : Z
}.

Record World : Type := {
  accountBalances : gmap string (list BalanceDoc);
  nextId : nat;
  clock : Z;
  requests : list Request
}.

Definition accountBalancesCol (userId : string) (w : World)
    : list BalanceDoc :=
  default [] (accountBalances w !! userId).

Definition Fire (A : Type) : Type := World -> A * World.

Definition ret {A : Type} (a : A) : Fire A := fun w => (a, w).

Definition bind {A B : Type} (m : Fire A) (k : A -> Fire B) : Fire B :=
  fun w => let '(a, w') := m w in k a w'.

Fixpoint foldM {A B : Type} (f : B -> A -> Fire B) (l : list A) (b : B)
    : Fire B :=
  match l with
  | [] => ret b
  | a :: l' => bind (f b a) (fun b' => foldM f l' b')
  end.

Fixpoint mapM {A B : Type} (f : A -> Fire B) (l : list A) : Fire (list B) :=
  match l with
  | [] => ret []
  | a :: l' => bind (f a) (fun b => bind (mapM f l') (fun bs => ret (b :: bs)))
  end.

(** [getDocs(query(col, where('importHash', 'in', chunk)))] *)
Definition getDocsIn (userId : string) (chunk : list string)
    : Fire (list BalanceDoc) :=
  fun w =>
    (List.filter
       (fun d => match balHash d with
                 | Some h => stringIn h chunk
                 | None => false
                 end)
       (accountBalancesCol userId w),
     {| accountBalances := accountBalances w; nextId := nextId w;
        clock := clock w;
        requests := requests w ++ [GetDocs userId chunk] |}).

(** [doc(col)] *)
Definition newDocRef : Fire nat :=
  fun w =>
    (nextId w,
     {| accountBalances := accountBalances w; nextId := S (nextId w);
        clock := clock w; requests := requests w |}).

(** [Timestamp.now()] *)
Definition timestampNow : Fire Z := fun w => (clock w, w).

(** [batch.commit()] of a batch of [set] writes on fresh references. *)
Definition commit (userId : string) (batch : list BalanceDoc) : Fire unit :=
  fun w =>
    (tt,
     {| accountBalances :=
          <[userId := accountBalancesCol userId w ++ batch]>
            (accountBalances w);
        nextId := nextId w; clock := clock w;
        requests := requests w ++ [Commit userId (length batch)] |}).

(** [snap.docs.forEach(d => { if (hash) existingHashes.add(hash) })] *)
Definition addHashes (existingHashes : gset string) (docs : list BalanceDoc)
    : gset string :=
  fold_left
    (fun acc d =>
       match balHash d with
       | Some hash => if Str.nonEmpty hash then {[hash]} ∪ acc else acc
       | None => acc
       end)
    docs existingHashes.

Definition balanceEntry (userId accountId : string) (now : Z)
    (b : ParsedBalance) (ref : nat) : BalanceDoc := {|
  balId := ref;
  balUserId := userId;
  balAccountId := accountId;
  balDate := balanceDate b;
  balCents := balanceCents b;
  balHash := Some (balanceHash b);
  balCreatedAt := now
|}.

(** The body of the existence-check loop. *)
Definition checkChunk (userId : string) (existingHashes : gset string)
    (chunk : list string) : Fire (gset string) :=
  bind (getDocsIn userId chunk) (fun docs =>
  ret (addHashes existingHashes docs)).

(** The body of the write loop. *)
Definition writeChunk (userId accountId : string) (_ : unit)
    (chunk : list ParsedBalance) : Fire unit :=
  bind timestampNow (fun now =>
  bind (mapM (fun b =>
                bind newDocRef (fun ref =>
                ret (balanceEntry userId accountId now b ref)))
             chunk) (fun batch =>
  commit userId batch)).

Definition importAccountBalances (userId accountId : string)
    (balances : list ParsedBalance) : Fire ImportResult :=
  if (length balances =? 0)%nat then ret {| imported := 0; skipped := 0 |}
  else
    let allHashes := map balanceHash balances in
    bind (foldM (checkChunk userId) (chunks BATCH_SIZE allHashes) ∅)
         (fun existingHashes =>
    let toImport :=
      List.filter (fun b => negb (bool_decide (balanceHash b ∈ existingHashes)))
                  balances in
    let skipped := (length balances - length toImport)%nat in
    bind (foldM (writeChunk userId accountId)
                (chunks WRITE_BATCH_SIZE toImport) tt) (fun _ =>
    ret {| imported := length toImport; skipped := skipped |})).

(** *** Vocabulary of the statements about the balance store *)

Definition hashIs (h : string) (d : BalanceDoc) : bool :=
  match balHash d with
  | Some h' => String.eqb h' h
  | None => false
  end.

(** What the existence check finds: a non-empty fingerprint some document
    of the collection carries. *)
Definition known (docs : list BalanceDoc) (h : string) : bool :=
  Str.nonEmpty h && existsb (hashIs h) docs.

(** The balances whose fingerprint the existence check does not find
    among [docs]. *)
Definition unknown (docs : list BalanceDoc) (balances : list ParsedBalance)
    : list ParsedBalance :=
  List.filter (fun b => negb (known docs (balanceHash b))) balances.

(** The documents one run writes for [balances], in order, from the
    reference [ref] on. *)
Fixpoint writtenDocs (userId accountId : string) (now : Z) (ref : nat)
    (balances : list ParsedBalance) : list BalanceDoc :=
  match balances with
  | [] => []
  | b :: more =>
      balanceEntry userId accountId now b ref
      :: writtenDocs userId accountId now (S ref) more
  end.

(** The document [d] holds the fields of [b] for the given user and
    account. *)
Definition copied (userId accountId : string) (b : ParsedBalance)
    (d : BalanceDoc) : Prop :=
  balUserId d = userId /\ balAccountId d = accountId
  /\ balDate d = balanceDate b /\ balCents d = balanceCents b
  /\ balHash d = Some (balanceHash b).

(** The world after the existence queries for the chunks [cs]. *)
Definition queriedWorld (userId : string) (cs : list (list string))
    (w : World) : World :=
  {| accountBalances := accountBalances w; nextId := nextId w;
     clock := clock w;
     requests := requests w ++ map (GetDocs userId) cs |}.

End Balances.

(** ** Sample inputs *)

Definition nl : string := String "010" "".

Definition quoted (s : string) : string :=
  String dquote "" +:+ s +:+ String dquote "".

(** A statement whose first two data rows differ in the document number
    only, so that both get the same fingerprint. *)
Definition duplicateCsv : string :=
  "Data;Descricao;N documento;Valor" +:+ nl
  +:+ "01/03/2024;Supermercado;1001;-150,00" +:+ nl
  +:+ "01/03/2024;Supermercado;1002;-150,00" +:+ nl
  +:+ "02/03/2024;Padaria;1003;-15,00".

Definition threeRowsCsv : string :=
  "Data;Descricao;Valor" +:+ nl
  +:+ "01/03/2024;Supermercado;-150,00" +:+ nl
  +:+ "02/03/2024;Padaria;-15,00" +:+ nl
  +:+ "05/03/2024;Salario;3.500,00".

(** A store that holds one entry typed in by hand (no fingerprint) for the
    user [u1] and nothing else. *)
Definition manualDoc : LedgerDoc := {|
  docId := 0; docUserId := "u1"; docAccountId := "acc"; docType := expense;
  docAmountCents := Fin 990; docDescription := "Cafe";
  docDate := Js.mkDate 2024 2 28; docImportHash := None; docDetails := None;
  docDocumentId := None; docCreatedAt := 1709100000;
  docUpdatedAt := 1709100000
|}.

Definition sampleWorld : World := {|
  store := {| ledgerEntries := {[ "u1" := [manualDoc] ]}; nextId := 1 |};
  clock := 1709300000;
  requests := []
|}.

(** A comma-delimited statement whose amount holds a comma inside double
    quotes. *)
Definition quotedAmountCsv : string :=
  "Data,Descricao,Valor" +:+ nl
  +:+ "01/03/2024,Mercado," +:+ quoted "1.112,00".

(** A statement whose description is written between single quotes and
    holds an inch mark, and a comma-delimited one whose amount is written
    between single quotes. *)
Definition singleQuotedCsv : string :=
  "Data;Descricao;Valor" +:+ nl
  +:+ "01/03/2024;'Tubo 3" +:+ String dquote " ; PVC';10,00".

Definition singleQuotedAmountCsv : string :=
  "Data,Descricao,Valor" +:+ nl +:+ "01/03/2024,Mercado,'1.112,00'".

(** A statement with an opening-balance row, a letter-spaced balance row
    and one movement. *)
Definition balanceCsv : string :=
  "Data;Historico;Valor" +:+ nl
  +:+ "29/02/2024;Saldo Anterior;1.000,00" +:+ nl
  +:+ "01/03/2024;Supermercado;-150,00" +:+ nl
  +:+ "01/03/2024;S A L D O;850,00".

Definition valueColumns : Columns := {|
  dateIdx := Some 0%nat; descIdx := Some 1%nat; detailsIdx := None;
  docIdx := None; valueIdx := Some 2%nat; debitIdx := None;
  creditIdx := None; typeIdx := None
|}.

(** The balance a letter-spaced row reports: the signed-amount column when
    it has a value, else the credit column when it has one, else zero. *)
Definition rowBalance (c : Columns) (cols : list string) : number :=
  if present cols (valueIdx c) then parseAmountToCents (col cols (valueIdx c))
  else if present cols (creditIdx c)
  then parseAmountToCents (col cols (creditIdx c))
  else Fin 0.

(** A row dated 31 February, and a row with the placeholder date. *)
Definition invalidDayCsv : string :=
  "Data;Descricao;Valor" +:+ nl +:+ "31/02/2024;Mercado;10,00".

Definition placeholderCsv : string :=
  "Data;Descricao;Valor" +:+ nl +:+ "00/00/0000;Mercado;10,00".

(** A statement with separate debit and credit columns whose only row has
    the text Infinity in both. *)
Definition infinityCsv : string :=
  "Data;Descricao;Debito;Credito" +:+ nl
  +:+ "01/03/2024;Mercado;Infinity;Infinity".

(** One movement in the two OFX dialects: the same fields, with and
    without the closing tag. *)
Definition ofxFields : string :=
  "<TRNTYPE>DEBIT" +:+ nl
  +:+ "<DTPOSTED>20240301" +:+ nl
  +:+ "<TRNAMT>-10.50" +:+ nl
  +:+ "<FITID>2024030101" +:+ nl
  +:+ "<NAME>Padaria" +:+ nl.

Definition closedOfx : string :=
  "<BANKTRANLIST>" +:+ nl +:+ "<STMTTRN>" +:+ nl +:+ ofxFields
  +:+ "</STMTTRN>" +:+ nl +:+ "</BANKTRANLIST>".

Definition flatOfx : string :=
  "<BANKTRANLIST>" +:+ nl +:+ "<STMTTRN>" +:+ nl +:+ ofxFields
  +:+ "</BANKTRANLIST>".

(** The same pair with a memo that holds a number. *)
Definition memoFields : string :=
  "<DTPOSTED>20240302" +:+ nl
  +:+ "<TRNAMT>25.00" +:+ nl
  +:+ "<MEMO>PIX 123 Joao" +:+ nl.

Definition closedMemoOfx : string :=
  "<STMTTRN>" +:+ nl +:+ memoFields +:+ "</STMTTRN>".

Definition flatMemoOfx : string := "<STMTTRN>" +:+ nl +:+ memoFields.

(** A closed-tag statement whose only block is the closing-balance
    marker. *)
Definition closingBalanceOfx : string :=
  "<STMTTRN>" +:+ nl
  +:+ "<DTPOSTED>20240301" +:+ nl
  +:+ "<TRNAMT>850.00" +:+ nl
  +:+ "<NAME>Saldo do dia" +:+ nl
  +:+ "</STMTTRN>".

(** *** Vocabulary of the statements about the parser *)

(** No match of [pat], up to ASCII case, starts in [s]. *)
Fixpoint freeOf (pat s : string) : bool :=
  match s with
  | EmptyString => true
  | String _ r => negb (Str.startsWith true pat s) && freeOf pat r
  end.

(** The content of one block: no block boundary in it. *)
Definition plainBody (body : string) : bool :=
  freeOf "<STMTTRN>" body && freeOf "</STMTTRN>" body
  && freeOf "</BANKTRANLIST>" body.

(** What every pushed transaction is built from: an absolute value, a sign
    read as income or expense, and the fingerprint of its own fields. *)
Definition wellShaped (t : ParsedTransaction) : Prop :=
  exists (dateStr : string) (signed : number),
    amountCents t = Num.abs signed
    /\ importHash t = computeImportHash dateStr (description t) (amountCents t)
    /\ (type t = income \/ type t = expense).

(** A transaction some statement text parses to. *)
Definition parsed (newDate : string -> option Js.Date)
    (t : ParsedTransaction) : Prop :=
  (exists text, In t (transactions (parseCsv newDate text)))
  \/ (exists text statement,
        parseOfx newDate text = Returned statement
        /\ In t (transactions statement)).

(** A transaction built by hand, without a fingerprint. *)
Definition unhashedEntry : ParsedTransaction := {|
  date := Js.mkDate 2024 3 1; description := "Ajuste"; details := None;
  documentId := None; amountCents := Fin 100; type := income;
  importHash := ""
|}.

(** A closed-tag statement whose block is posted in month 13. *)
Definition invalidDateOfx : string :=
  "<STMTTRN><DTPOSTED>20241301<TRNAMT>1.00</STMTTRN>".

(** A statement with a debit column and no credit column. *)
Definition debitOnlyCsv : string :=
  "Data;Historico;Debito" +:+ nl +:+ "01/03/2024;Mercado;150,00".

(** *** Vocabulary of the statements about rows *)

(** [fields.join(delimiter)] *)
Fixpoint join (delimiter : ascii) (fields : list string) : string :=
  match fields with
  | [] => ""
  | [field] => field
  | field :: more => field +:+ String delimiter (join delimiter more)
  end.

(** A field with every double quote in it doubled. *)
Fixpoint doubled (field : string) : string :=
  match field with
  | EmptyString => ""
  | String c r =>
      if Ascii.eqb c dquote then String dquote (String dquote (doubled r))
      else String c (doubled r)
  end.

(** A field as RFC 4180 writes it between double quotes. *)
Definition escaped (field : string) : string :=
  String dquote (doubled field) +:+ String dquote "".

(** A field that needs no quotes: no quote of either kind and no
    delimiter in it. *)
Definition plainField (delimiter : ascii) (field : string) : bool :=
  Str.all (fun c => negb (isQuote c) && negb (Ascii.eqb c delimiter)) field.

(** *** Vocabulary of the statements about amounts *)

(** [x] is not NaN. *)
Definition isNumber (x : number) : bool :=
  match x with NaN => false | _ => true end.

(** What [parseAmountToCents] strips first: [R], [$] and whitespace. *)
Definition removable (c : ascii) : bool :=
  Ascii.eqb c "R" || Ascii.eqb c "$" || Str.isSpace c.

(** [parseAmountToCents] from the format test on, for a text whose symbols
    and sign are gone. *)
Definition unsignedCents (cleaned : string) : number :=
  let cleaned :=
    if isBrFormat cleaned
    then replaceFirstComma (removeChars (Ascii.eqb ".") cleaned)
    else replaceFirstComma cleaned in
  let value := Js.parseFloat cleaned in
  if Num.isNaN value then Fin 0 else Num.round (Num.times100 value).

(** The groups of a grouped amount, each behind its dot. *)
Fixpoint dotted (groups : list string) : string :=
  match groups with
  | [] => ""
  | g :: more => "." +:+ g +:+ dotted more
  end.

Fixpoint undotted (groups : list string) : string :=
  match groups with
  | [] => ""
  | g :: more => g +:+ undotted more
  end.

Definition threeDigits (g : string) : bool :=
  (String.length g =? 3)%nat && Str.all Str.isDigit g.

(** [parseFloat] for a text that starts with its digits: no blank, sign
    or [Infinity] comes first. *)
Definition unsignedDecimal (s : string) : float :=
  let '(ip, r1) := Js.takeDigits s in
  let '(fp, r2) :=
    match r1 with
    | String "." r => Js.takeDigits r
    | _ => ("", r1)
    end in
  if negb (Str.nonEmpty ip) && negb (Str.nonEmpty fp) then FNaN
  else
    Num.finite (Js.digitsValue 0 (ip +:+ fp))
               (Js.exponent r2 - Z.of_nat (String.length fp)).

Definition digitsOnly (s : string) : bool := Str.all Str.isDigit s.

(** Below this many cents an amount with at most two fraction digits goes
    through the doubles of the host without a rounding error that shows
    after [Math.round]. *)
Definition exactCents : Z := 2 ^ 51.

(** The characters of an amount in digits: digits, dot and comma. *)
Definition amountChar (c : ascii) : bool :=
  Str.isDigit c || Ascii.eqb c "." || Ascii.eqb c ",".

(** * Properties *)

(** ** Strings: lengths and character classes *)

Lemma length_append (s t : string) :
  String.length (s +:+ t) = (String.length s + String.length t)%nat.
Proof. induction s as [|c s IH]; simpl; [reflexivity | now rewrite IH]. Qed.

Lemma all_append (p : ascii -> bool) (s t : string) :
  Str.all p (s +:+ t) = Str.all p s && Str.all p t.
Proof.
  induction s as [|c s IH]; simpl; [reflexivity |].
  now rewrite IH, andb_assoc.
Qed.

Lemma length_repeat (c : ascii) (n : nat) : String.length (Str.repeat c n) = n.
Proof. induction n; simpl; congruence. Qed.

Lemma all_repeat (p : ascii -> bool) (c : ascii) (n : nat) :
  p c = true -> Str.all p (Str.repeat c n) = true.
Proof. intros Hc. induction n; simpl; [reflexivity | now rewrite Hc]. Qed.

Lemma length_padStart (n : nat) (c : ascii) (s : string) :
  (String.length s <= n)%nat -> String.length (Str.padStart n c s) = n.
Proof.
  intros H. unfold Str.padStart. rewrite length_append, length_repeat. lia.
Qed.

Lemma all_padStart (p : ascii -> bool) (n : nat) (c : ascii) (s : string) :
  p c = true -> Str.all p s = true -> Str.all p (Str.padStart n c s) = true.
Proof.
  intros Hc Hs. unfold Str.padStart.
  now rewrite all_append, all_repeat, Hs.
Qed.

Lemma digitsFuel_length (radix : Z) (fuel : nat) :
  (1 < radix)%Z ->
  forall (k : nat) (n : Z) (acc : string),
    (0 <= n < radix ^ Z.of_nat (S k))%Z ->
    (String.length (Str.digitsFuel radix fuel n acc)
     <= String.length acc + S k)%nat.
Proof.
  intros Hr. induction fuel as [|f IH]; intros k n acc Hn; simpl; [lia |].
  destruct (Z.eqb_spec (n / radix) 0) as [Hq | Hq]; simpl; [lia |].
  destruct k as [|k].
  - exfalso. apply Hq. apply Z.div_small. simpl in Hn. lia.
  - specialize (IH k (n / radix)%Z
                   (String (Str.digitChar (n mod radix)) acc)).
    simpl String.length in IH.
    assert (0 <= n / radix < radix ^ Z.of_nat (S k))%Z as Hdiv.
    { split; [apply Z.div_pos; lia |].
      apply Z.div_lt_upper_bound; [lia |].
      replace (Z.of_nat (S (S k))) with (Z.succ (Z.of_nat (S k))) in Hn by lia.
      rewrite Z.pow_succ_r in Hn by lia. lia. }
    specialize (IH Hdiv). lia.
Qed.

Lemma digitsFuel_all (p : ascii -> bool) (radix : Z) (fuel : nat) :
  (0 < radix)%Z ->
  (forall d, (0 <= d < radix)%Z -> p (Str.digitChar d) = true) ->
  forall (n : Z) (acc : string),
    Str.all p acc = true -> Str.all p (Str.digitsFuel radix fuel n acc) = true.
Proof.
  intros Hr Hp. induction fuel as [|f IH]; intros n acc Hacc; simpl; [exact Hacc |].
  assert (Str.all p (String (Str.digitChar (n mod radix)) acc) = true) as H.
  { simpl. rewrite Hacc, Hp; [reflexivity | now apply Z.mod_pos_bound]. }
  destruct (n / radix =? 0)%Z; [exact H | now apply IH].
Qed.

Lemma hexDigit_lower (d : Z) :
  (0 <= d < 16)%Z -> Str.isLowerHex (Str.digitChar d) = true.
Proof.
  intros H.
  assert (d = 0 \/ d = 1 \/ d = 2 \/ d = 3 \/ d = 4 \/ d = 5 \/ d = 6 \/ d = 7
          \/ d = 8 \/ d = 9 \/ d = 10 \/ d = 11 \/ d = 12 \/ d = 13 \/ d = 14
          \/ d = 15)%Z as Hd by lia.
  repeat (destruct Hd as [-> | Hd]; [reflexivity |]). now subst.
Qed.

(** ** The fingerprint is eight plus eight lower-case hexadecimal digits *)

Lemma hex8_length (h : Z) : String.length (Hash.hex8 h) = 8%nat.
Proof.
  unfold Hash.hex8. apply length_padStart. unfold Str.digits.
  pose proof (digitsFuel_length 16
                (S (Z.to_nat (Z.log2 (Hash.ushr h 0)))) ltac:(lia) 7
                (Hash.ushr h 0) "") as H.
  simpl String.length in H. apply H.
  unfold Hash.ushr, Hash.toUint32. rewrite Z.shiftr_0_r.
  change (16 ^ Z.of_nat 8)%Z with (2 ^ 32)%Z.
  apply Z.mod_pos_bound. reflexivity.
Qed.

Lemma hex8_lower (h : Z) : Str.all Str.isLowerHex (Hash.hex8 h) = true.
Proof.
  unfold Hash.hex8. apply all_padStart; [reflexivity |].
  unfold Str.digits. apply digitsFuel_all; [lia | apply hexDigit_lower |].
  reflexivity.
Qed.

Lemma digest_length (raw : list Z) : String.length (Hash.digest raw) = 16%nat.
Proof.
  unfold Hash.digest. destruct (Hash.mix _ _ _) as [h1 h2].
  now rewrite length_append, !hex8_length.
Qed.

Lemma digest_lower (raw : list Z) :
  Str.all Str.isLowerHex (Hash.digest raw) = true.
Proof.
  unfold Hash.digest. destruct (Hash.mix _ _ _) as [h1 h2].
  now rewrite all_append, !hex8_lower.
Qed.

Lemma computeImportHash_length date description amountCents :
  String.length (computeImportHash date description amountCents) = 16%nat.
Proof. apply digest_length. Qed.

Lemma computeImportHash_lower date description amountCents :
  Str.all Str.isLowerHex (computeImportHash date description amountCents)
  = true.
Proof. apply digest_lower. Qed.

Lemma computeImportHash_nonEmpty date description amountCents :
  Str.nonEmpty (computeImportHash date description amountCents) = true.
Proof.
  pose proof (computeImportHash_length date description amountCents) as H.
  destruct (computeImportHash _ _ _); [discriminate | reflexivity].
Qed.

(** C3. [computeImportHash] is a function of its three arguments alone (so
    equal arguments give equal fingerprints), and for every date string,
    description and amount its result has exactly 16 characters, each one of
    [0-9a-f]. The same holds of the digest of any sequence of code units,
    whatever their values. *)
Theorem computeImportHash_sixteen_lower_hex
    (date description : string) (amountCents : number) :
  (forall date' description' amountCents',
      date' = date -> description' = description ->
      amountCents' = amountCents ->
      computeImportHash date' description' amountCents'
      = computeImportHash date description amountCents)
  /\ String.length (computeImportHash date description amountCents) = 16%nat
  /\ Str.all Str.isLowerHex (computeImportHash date description amountCents)
     = true
  /\ (forall raw : list Z,
         String.length (Hash.digest raw) = 16%nat
         /\ Str.all Str.isLowerHex (Hash.digest raw) = true).
Proof.
  split; [intros ? ? ? -> -> ->; reflexivity |].
  split; [apply computeImportHash_length |].
  split; [apply computeImportHash_lower |].
  intros raw. split; [apply digest_length | apply digest_lower].
Qed.

Lemma computeImportHash_sixteen_lower_hex_witness :
  computeImportHash "2024-03-01" "Supermercado" (Fin 15000)
  = computeImportHash "2024-03-01" "Supermercado" (Fin 15000)
  /\ String.length (computeImportHash "2024-03-01" "Supermercado" (Fin 15000))
     = 16%nat
  /\ Str.all Str.isLowerHex
       (computeImportHash "2024-03-01" "Supermercado" (Fin 15000)) = true.
Proof.
  pose proof (computeImportHash_sixteen_lower_hex
                "2024-03-01" "Supermercado" (Fin 15000))
    as (Hsame & Hlength & Hlower & _).
  split; [exact (Hsame _ _ _ eq_refl eq_refl eq_refl) |].
  split; [exact Hlength | exact Hlower].
Defined.

(** The fingerprint of the first sample row, as the algorithm gives it. *)
Example computeImportHash_sample :
  computeImportHash "2024-03-01" "Supermercado" (Fin 15000)
  = "f476a7c13ef2f9fa".
Proof. vm_compute. reflexivity. Qed.

(** ** The reconciler *)

Lemma stringIn_In (h : string) (l : list string) :
  stringIn h l = true <-> In h l.
Proof.
  unfold stringIn. rewrite existsb_exists. split.
  - intros (x & Hx & He). apply String.eqb_eq in He. now subst.
  - intros H. exists h. split; [exact H | apply String.eqb_refl].
Qed.

Lemma existsb_hashIs (h : string) (docs : list LedgerDoc) :
  existsb (hashIs h) docs = true <-> In (Some h) (map docImportHash docs).
Proof.
  rewrite existsb_exists, in_map_iff. unfold hashIs. split.
  - intros (d & Hd & He). exists d. split; [| exact Hd].
    destruct (docImportHash d); [| discriminate].
    apply String.eqb_eq in He. now subst.
  - intros (d & He & Hd). exists d. split; [exact Hd |].
    rewrite He. apply String.eqb_refl.
Qed.

Lemma addHashes_spec (docs : list LedgerDoc) :
  forall (acc : gset string) (h : string),
    h ∈ addHashes acc docs
    <-> h ∈ acc
        \/ (Str.nonEmpty h = true /\ In (Some h) (map docImportHash docs)).
Proof.
  unfold addHashes.
  induction docs as [|d docs IH]; intros acc h; simpl.
  - split; [auto | intros [H | [_ []]]; exact H].
  - rewrite IH. destruct (docImportHash d) as [h' |] eqn:Hd.
    + destruct (Str.nonEmpty h') eqn:Hne.
      * rewrite elem_of_union, elem_of_singleton. split.
        -- intros [[-> | H] | (Hn & Hin)]; auto.
        -- intros [H | (Hn & [He | Hin])]; auto.
           injection He as ->. auto.
      * split.
        -- intros [H | (Hn & Hin)]; auto.
        -- intros [H | (Hn & [He | Hin])]; auto.
           injection He as ->. congruence.
    + split.
      * intros [H | (Hn & Hin)]; auto.
      * intros [H | (Hn & [He | Hin])]; auto. discriminate.
Qed.

Lemma queried_hashes (chunk : list string) (docs : list LedgerDoc) (h : string) :
  In (Some h)
     (map docImportHash
        (List.filter
           (fun d => match docImportHash d with
                     | Some h => stringIn h chunk
                     | None => false
                     end) docs))
  <-> In (Some h) (map docImportHash docs) /\ In h chunk.
Proof.
  rewrite !in_map_iff. split.
  - intros (d & He & Hd). apply filter_In in Hd as [Hd Hc].
    rewrite He in Hc. apply stringIn_In in Hc. eauto.
  - intros [(d & He & Hd) Hc]. exists d. split; [exact He |].
    apply filter_In. split; [exact Hd |]. rewrite He. now apply stringIn_In.
Qed.

Lemma checkLoop_spec (userId : string) (cs : list (list string)) :
  forall (acc : gset string) (w : World),
  exists found : gset string,
    foldM (checkChunk userId) cs acc w = (found, queriedWorld userId cs w)
    /\ forall h,
         h ∈ found
         <-> h ∈ acc
             \/ (Str.nonEmpty h = true /\ In h (concat cs)
                 /\ In (Some h) (map docImportHash (ledgerCol userId w))).
Proof.
  induction cs as [|chunk cs IH]; intros acc w.
  - exists acc. split.
    + unfold queriedWorld. destruct w; simpl. now rewrite app_nil_r.
    + intros h. split; [auto | intros [H | (_ & [] & _)]; exact H].
  - simpl foldM. unfold bind at 1. unfold checkChunk at 1.
    unfold bind, getDocsIn, ret.
    match goal with |- context [foldM _ cs ?a ?w1] =>
      destruct (IH a w1) as (found & Hrun & Hfound) end.
    exists found. split.
    + rewrite Hrun. unfold queriedWorld. simpl. now rewrite <- app_assoc.
    + intros h. rewrite Hfound, addHashes_spec, queried_hashes.
      unfold ledgerCol. simpl. rewrite in_app_iff. tauto.
Qed.

Lemma chunksFuel_concat {A : Type} (size : nat) :
  (0 < size)%nat ->
  forall (fuel : nat) (l : list A),
    (length l <= fuel)%nat -> concat (chunksFuel fuel size l) = l.
Proof.
  intros Hs. induction fuel as [|f IH]; intros l Hl.
  - destruct l; [reflexivity | simpl in Hl; lia].
  - destruct l as [|x l]; [reflexivity |].
    cbn [chunksFuel concat]. rewrite IH.
    + apply firstn_skipn.
    + rewrite length_skipn. simpl in *. lia.
Qed.

Lemma chunks_concat {A : Type} (size : nat) (l : list A) :
  (0 < size)%nat -> concat (chunks size l) = l.
Proof. intros Hs. apply chunksFuel_concat; [exact Hs | lia]. Qed.

Lemma chunks_nil {A : Type} (size : nat) : chunks size (@nil A) = [].
Proof. reflexivity. Qed.

Lemma mapM_entries (userId accountId : string) (now : Z)
    (chunk : list ParsedTransaction) :
  forall w : World,
  exists (batch : list LedgerDoc) (next : nat),
    mapM (fun t => ref <- newDocRef ;;
                   ret (ledgerEntry userId accountId now t ref)) chunk w
    = (batch,
       {| store := {| ledgerEntries := ledgerEntries (store w);
                      nextId := next |};
          clock := clock w; requests := requests w |})
    /\ map docImportHash batch = map (fun t => Some (importHash t)) chunk.
Proof.
  induction chunk as [|t chunk IH]; intros w.
  - exists [], (nextId (store w)). split; [| reflexivity].
    destruct w as [[? ?] ? ?]. reflexivity.
  - simpl mapM. unfold bind at 1 2. unfold newDocRef at 1. unfold ret at 1.
    unfold bind at 1.
    match goal with |- context [mapM _ chunk ?w1] =>
      destruct (IH w1) as (batch & next & Hrun & Hmap) end.
    rewrite Hrun. eexists _, next. split; [reflexivity |].
    simpl. now rewrite Hmap.
Qed.

Lemma ledgerCol_commit (userId : string) (m : gmap string (list LedgerDoc))
    (docs : list LedgerDoc) (next : nat) (c : Z) (rs : list Request) :
  ledgerCol userId
    {| store := {| ledgerEntries := <[userId := docs]> m; nextId := next |};
       clock := c; requests := rs |} = docs.
Proof. unfold ledgerCol. simpl. now rewrite lookup_insert_eq. Qed.

Lemma writeLoop_spec (userId accountId : string)
    (cs : list (list ParsedTransaction)) :
  forall w : World,
  exists (w' : World) (ds : list LedgerDoc),
    foldM (writeChunk userId accountId) cs tt w = (tt, w')
    /\ ledgerCol userId w' = ledgerCol userId w ++ ds
    /\ map docImportHash ds = map (fun t => Some (importHash t)) (concat cs)
    /\ (cs = [] -> w' = w).
Proof.
  induction cs as [|chunk cs IH]; intros w.
  - exists w, []. rewrite app_nil_r. repeat split; reflexivity.
  - simpl foldM. unfold bind at 1. unfold writeChunk at 1.
    unfold bind at 1 2. unfold timestampNow at 1.
    destruct (mapM_entries userId accountId (clock w) chunk w)
      as (batch & next & Hrun & Hmap).
    rewrite Hrun. unfold commit at 1.
    match goal with |- context [foldM _ cs tt ?w1] =>
      destruct (IH w1) as (w' & ds & Hloop & Hcol & Hds & _) end.
    exists w', (batch ++ ds). rewrite Hloop. split; [reflexivity |].
    split; [| split; [| discriminate]].
    + rewrite Hcol. simpl store. cbn [ledgerEntries nextId].
      rewrite ledgerCol_commit. unfold ledgerCol at 2. simpl.
      now rewrite <- app_assoc.
    + simpl concat. now rewrite !map_app, Hmap, Hds.
Qed.

(** What one run does: it writes one document for every transaction whose
    fingerprint the existence check did not find, in the order of the
    list, and counts the rest as skipped. *)
Lemma importLedgerEntries_spec (userId accountId : string)
    (txs : list ParsedTransaction) (w : World) :
  let fresh :=
    List.filter (fun t => negb (known (ledgerCol userId w) (importHash t)))
                txs in
  exists (w' : World) (ds : list LedgerDoc),
    importLedgerEntries userId accountId txs w
    = ({| imported := length fresh;
          skipped := length txs - length fresh |}, w')
    /\ ledgerCol userId w' = ledgerCol userId w ++ ds
    /\ map docImportHash ds = map (fun t => Some (importHash t)) fresh
    /\ (fresh = [] -> store w' = store w).
Proof.
  intros fresh. unfold importLedgerEntries.
  destruct (Nat.eqb_spec (length txs) 0) as [Hlen | Hlen].
  - apply length_zero_iff_nil in Hlen. subst txs fresh.
    exists w, []. rewrite app_nil_r. repeat split; reflexivity.
  - unfold bind at 1.
    destruct (checkLoop_spec userId (chunks BATCH_SIZE (map importHash txs))
                ∅ w) as (found & Hrun & Hfound).
    rewrite Hrun.
    assert (List.filter
              (fun t => negb (bool_decide (importHash t ∈ found))) txs
            = fresh) as Hfresh.
    { subst fresh. apply filter_ext_in. intros t Ht. f_equal.
      unfold known.
      destruct (bool_decide (importHash t ∈ found)) eqn:Hb.
      - apply bool_decide_eq_true in Hb. apply Hfound in Hb.
        destruct Hb as [Hb | (Hn & _ & Hs)]; [set_solver |].
        rewrite Hn. symmetry. now apply existsb_hashIs.
      - apply bool_decide_eq_false in Hb. symmetry.
        apply not_true_is_false. intros Hk.
        apply andb_true_iff in Hk as [Hn Hs]. apply Hb, Hfound. right.
        split; [exact Hn |]. split; [| now apply existsb_hashIs].
        rewrite chunks_concat by (unfold BATCH_SIZE; lia).
        now apply in_map. }
    rewrite Hfresh. unfold bind at 1.
    destruct (writeLoop_spec userId accountId (chunks WRITE_BATCH_SIZE fresh)
                (queriedWorld userId
                   (chunks BATCH_SIZE (map importHash txs)) w))
      as (w' & ds & Hloop & Hcol & Hds & Hnil).
    rewrite Hloop. exists w', ds. split; [reflexivity |].
    split; [exact Hcol |]. split.
    + rewrite Hds, chunks_concat by (unfold WRITE_BATCH_SIZE; lia).
      reflexivity.
    + intros He. rewrite He in Hnil. rewrite (Hnil eq_refl). reflexivity.
Qed.

(** ** Every pushed transaction is well shaped *)

Section Shape.

Variable newDate : string -> option Js.Date.

Lemma TransactionRow_inj (a b : ParsedTransaction) :
  TransactionRow a = TransactionRow b -> a = b.
Proof. congruence. Qed.

Lemma Returned_Some_inj (a b : ParsedTransaction) :
  Returned (Some a) = Returned (Some b) -> a = b.
Proof. congruence. Qed.

Lemma processRow_shape (delimiter : ascii) (c : Columns) (line : string)
    (t : ParsedTransaction) :
  processRow newDate delimiter c line = TransactionRow t -> wellShaped t.
Proof.
  unfold processRow, wellShaped. intros H.
  repeat match type of H with
         | context [match ?x with _ => _ end] => destruct x eqn:?
         end;
    try discriminate; apply TransactionRow_inj in H; subst t;
    cbn [amountCents importHash type description];
    eexists _, _; (split; [reflexivity |]); (split; [reflexivity |]);
    try (unfold entryType; destruct (Num.geZero _)); auto.
Qed.

Lemma rowTransactions_shape (delimiter : ascii) (c : Columns)
    (data : list string) :
  Forall wellShaped
         (rowTransactions (map (processRow newDate delimiter c) data)).
Proof.
  apply List.Forall_forall. intros t Ht. unfold rowTransactions in Ht.
  apply in_flat_map in Ht as (row & Hrow & Ht).
  apply in_map_iff in Hrow as (line & Hline & _).
  destruct row; try contradiction. destruct Ht as [-> | []].
  eapply processRow_shape, Hline.
Qed.

Lemma parseCsv_shape (text : string) :
  Forall wellShaped (transactions (parseCsv newDate text)).
Proof.
  unfold parseCsv.
  destruct (nonEmptyLines text) as [|header [|row rows]];
    try (constructor; fail).
  destruct (_ || _); [constructor |].
  cbn [transactions]. apply rowTransactions_shape.
Qed.

Lemma ofxEntry_shape (fields : gmap string string) (desc : string)
    (t : ParsedTransaction) :
  ofxEntry newDate fields desc = Returned (Some t) -> wellShaped t.
Proof.
  unfold ofxEntry, wellShaped. intros H.
  repeat match type of H with
         | context [match ?x with _ => _ end] => destruct x eqn:?
         end;
    try discriminate; apply Returned_Some_inj in H; subst t;
    cbn [amountCents importHash type description];
    eexists _, _; (split; [reflexivity |]); (split; [reflexivity |]);
    unfold entryType; destruct (Num.geZero _); auto.
Qed.

Lemma pushAll_Forall (P : ParsedTransaction -> Prop)
    (step : string -> Completion (option ParsedTransaction)) :
  (forall body t, step body = Returned (Some t) -> P t) ->
  forall blocks acc ts,
    Forall P acc -> pushAll step blocks acc = Returned ts -> Forall P ts.
Proof.
  intros Hstep. induction blocks as [|body blocks IH]; intros acc ts Hacc H.
  - injection H as <-. exact Hacc.
  - simpl in H. destruct (step body) as [[t |] |] eqn:Hs; try discriminate.
    + eapply IH; [| exact H]. apply Forall_app. split; [exact Hacc |].
      constructor; [eapply Hstep, Hs | constructor].
    + eapply IH; [exact Hacc | exact H].
Qed.

Lemma parseOfx_Forall (P : ParsedTransaction -> Prop) :
  (forall fields desc t,
      ofxEntry newDate fields desc = Returned (Some t) -> P t) ->
  forall text statement,
    parseOfx newDate text = Returned statement ->
    Forall P (transactions statement).
Proof.
  intros Hentry text statement.
  assert (forall body t, closedBlock newDate body = Returned (Some t) -> P t)
    as Hclosed.
  { intros body t. unfold closedBlock.
    destruct (_ || _); [discriminate | apply Hentry]. }
  assert (forall body t, sgmlBlock newDate body = Returned (Some t) -> P t)
    as Hsgml.
  { intros body t. unfold sgmlBlock.
    destruct (_ || _); [discriminate | apply Hentry]. }
  unfold parseOfx. intros H.
  destruct (pushAll (closedBlock newDate) _ _) as [ts |] eqn:H1;
    [| discriminate].
  apply (pushAll_Forall P _ Hclosed) in H1; [| constructor].
  destruct (length ts =? 0)%nat.
  - destruct (pushAll (sgmlBlock newDate) _ _) as [ts' |] eqn:H2;
      [| discriminate].
    apply (pushAll_Forall P _ Hsgml) in H2; [| exact H1].
    injection H as <-. exact H2.
  - injection H as <-. exact H1.
Qed.

Lemma parseOfx_shape (text : string) (statement : ParsedBankStatement) :
  parseOfx newDate text = Returned statement ->
  Forall wellShaped (transactions statement).
Proof. apply parseOfx_Forall, ofxEntry_shape. Qed.

Lemma parsed_shape (t : ParsedTransaction) : parsed newDate t -> wellShaped t.
Proof.
  intros [(text & Ht) | (text & st & Hst & Ht)].
  - pose proof (parseCsv_shape text) as H.
    rewrite List.Forall_forall in H. now apply H.
  - pose proof (parseOfx_shape text st Hst) as H.
    rewrite List.Forall_forall in H. now apply H.
Qed.

Lemma parsed_nonEmpty_hash (t : ParsedTransaction) :
  parsed newDate t -> Str.nonEmpty (importHash t) = true.
Proof.
  intros H. apply parsed_shape in H as (dateStr & signed & _ & -> & _).
  apply computeImportHash_nonEmpty.
Qed.

Lemma parseCsv_parsed (text : string) :
  Forall (parsed newDate) (transactions (parseCsv newDate text)).
Proof. apply List.Forall_forall. intros t Ht. left. now exists text. Qed.

End Shape.

(** ** Import results *)

(** C9. With an empty list of transactions [importLedgerEntries] returns
    [{imported: 0, skipped: 0}] at once: the world it leaves is the world it
    found, with the same documents and not one query or commit added to the
    requests issued. *)
Theorem importLedgerEntries_empty (userId accountId : string) (w : World) :
  importLedgerEntries userId accountId [] w
  = ({| imported := 0; skipped := 0 |}, w).
Proof. reflexivity. Qed.

Lemma countHash_app (h : string) (xs ys : list LedgerDoc) :
  countHash h (xs ++ ys) = (countHash h xs + countHash h ys)%nat.
Proof. unfold countHash. now rewrite List.filter_app, length_app. Qed.

Lemma countHash_written (h : string) (ds : list LedgerDoc) :
  forall txs : list ParsedTransaction,
    map docImportHash ds = map (fun t => Some (importHash t)) txs ->
    countHash h ds
    = length (List.filter (fun t => String.eqb (importHash t) h) txs).
Proof.
  unfold countHash.
  induction ds as [|d ds IH]; intros [|t txs] H; try discriminate;
    [reflexivity |].
  injection H as Hd Hrest. simpl. unfold hashIs at 1. rewrite Hd.
  destruct (String.eqb (importHash t) h); simpl; now rewrite (IH txs Hrest).
Qed.

Lemma countHash_zero (h : string) (docs : list LedgerDoc) :
  countHash h docs = 0%nat <-> ~ In (Some h) (map docImportHash docs).
Proof.
  rewrite <- existsb_hashIs. unfold countHash.
  induction docs as [|d docs IH]; simpl; [split; [discriminate | reflexivity] |].
  destruct (hashIs h d); simpl.
  - split; [discriminate | intros H; now contradiction H].
  - exact IH.
Qed.

Lemma filter_fresh_with_hash (docs : list LedgerDoc) (h : string)
    (txs : list ParsedTransaction) :
  List.filter (fun t => String.eqb (importHash t) h)
    (List.filter (fun t => negb (known docs (importHash t))) txs)
  = if known docs h then []
    else List.filter (fun t => String.eqb (importHash t) h) txs.
Proof.
  induction txs as [|t txs IH]; simpl; [now destruct (known docs h) |].
  destruct (String.eqb_spec (importHash t) h) as [He | He].
  - rewrite He. destruct (known docs h) eqn:Hk; simpl.
    + exact IH.
    + rewrite He, String.eqb_refl, IH. reflexivity.
  - destruct (known docs (importHash t)); simpl; [exact IH |].
    apply String.eqb_neq in He. now rewrite He.
Qed.

(** C1, as the code has it. For every list of transactions, every store and
    every fingerprint [h]: when the existence check finds [h] among the
    stored fingerprints, no entry with [h] is written; otherwise one
    document is written for each entry of the list that carries [h], so two
    entries of one file that share a fingerprint not yet stored are both
    persisted. The check reads the store as it was before the first write. *)
Theorem importLedgerEntries_writes_every_new_entry
    (userId accountId : string) (txs : list ParsedTransaction) (w : World)
    (h : string) :
  countHash h
    (ledgerCol userId (snd (importLedgerEntries userId accountId txs w)))
  = (countHash h (ledgerCol userId w)
     + if known (ledgerCol userId w) h then 0
       else length (List.filter (fun t => String.eqb (importHash t) h) txs))%nat.
Proof.
  destruct (importLedgerEntries_spec userId accountId txs w)
    as (w' & ds & Hrun & Hcol & Hds & _).
  rewrite Hrun. cbn [snd]. rewrite Hcol, countHash_app. f_equal.
  rewrite (countHash_written h ds _ Hds), filter_fresh_with_hash.
  now destruct (known _ h).
Qed.

(** C1, the counterexample. The statement [duplicateCsv] parses to three
    transactions of which the first two differ in the document number and
    share the fingerprint [f476a7c13ef2f9fa]; imported into a store that has
    no document with that fingerprint, both are written, and the run
    reports three imported and none skipped. *)
Lemma duplicate_rows_are_both_persisted :
  let txs := transactions (parseCsv Js.strictDate duplicateCsv) in
  let h := "f476a7c13ef2f9fa" in
  let run := importLedgerEntries "u1" "acc" txs sampleWorld in
  map importHash txs = [h; h; "a115dde7ab3daae7"]
  /\ map documentId txs = [Some "1001"; Some "1002"; Some "1003"]
  /\ countHash h (ledgerCol "u1" sampleWorld) = 0%nat
  /\ countHash h (ledgerCol "u1" (snd run)) = 2%nat
  /\ fst run = {| imported := 3; skipped := 0 |}.
Proof. vm_compute. repeat split; reflexivity. Qed.

Lemma fresh_all (docs : list LedgerDoc) (txs : list ParsedTransaction) :
  (forall t, In t txs -> countHash (importHash t) docs = 0%nat) ->
  List.filter (fun t => negb (known docs (importHash t))) txs = txs.
Proof.
  intros H. induction txs as [|t txs IH]; simpl; [reflexivity |].
  assert (known docs (importHash t) = false) as ->.
  { unfold known. apply andb_false_iff. right. apply not_true_is_false.
    rewrite existsb_hashIs. apply countHash_zero, H. now left. }
  simpl. f_equal. apply IH. intros t' Ht'. apply H. now right.
Qed.

Lemma fresh_none (docs ds : list LedgerDoc) (txs : list ParsedTransaction) :
  (forall t, In t txs -> Str.nonEmpty (importHash t) = true) ->
  map docImportHash ds = map (fun t => Some (importHash t)) txs ->
  List.filter (fun t => negb (known (docs ++ ds) (importHash t))) txs = [].
Proof.
  intros Hne Hds.
  assert (forall t, In t txs -> known (docs ++ ds) (importHash t) = true)
    as Hknown.
  { intros t Ht. unfold known. rewrite (Hne t Ht). simpl.
    apply existsb_hashIs. rewrite map_app, in_app_iff, Hds. right.
    now apply (in_map (fun t => Some (importHash t))). }
  clear Hds Hne. induction txs as [|t txs IH]; simpl; [reflexivity |].
  rewrite Hknown by now left. simpl. apply IH.
  intros t' Ht'. apply Hknown. now right.
Qed.

(** C2. For every list of [N] transactions the parser produced (under any
    host [Date]) none of whose fingerprints is on a document of the user's
    collection, the first run returns [{imported: N, skipped: 0}], and a
    second run of the same list on the world the first one left returns
    [{imported: 0, skipped: N}] and leaves the store as it was. (That the
    fingerprints are pairwise distinct is not needed.) *)
Theorem importLedgerEntries_twice
    (newDate : string -> option Js.Date) (userId accountId : string)
    (txs : list ParsedTransaction) (w : World) :
  Forall (parsed newDate) txs ->
  (forall t, In t txs -> countHash (importHash t) (ledgerCol userId w) = 0%nat) ->
  exists w1 w2 : World,
    importLedgerEntries userId accountId txs w
    = ({| imported := length txs; skipped := 0 |}, w1)
    /\ importLedgerEntries userId accountId txs w1
       = ({| imported := 0; skipped := length txs |}, w2)
    /\ store w2 = store w1.
Proof.
  intros Hparsed Hnew.
  destruct (importLedgerEntries_spec userId accountId txs w)
    as (w1 & ds & Hrun1 & Hcol1 & Hds1 & _).
  rewrite (fresh_all _ _ Hnew) in Hrun1, Hds1.
  destruct (importLedgerEntries_spec userId accountId txs w1)
    as (w2 & ds2 & Hrun2 & _ & _ & Hsame).
  assert (List.filter
            (fun t => negb (known (ledgerCol userId w1) (importHash t))) txs
          = []) as Hnone.
  { rewrite Hcol1. apply fresh_none; [| exact Hds1].
    intros t Ht. rewrite List.Forall_forall in Hparsed.
    eapply parsed_nonEmpty_hash, Hparsed, Ht. }
  rewrite Hnone in Hrun2. exists w1, w2.
  rewrite Hrun1, Hrun2, Nat.sub_diag, Nat.sub_0_r.
  repeat split. apply Hsame, Hnone.
Qed.

Lemma importLedgerEntries_twice_witness :
  exists w1 w2 : World,
    importLedgerEntries "u1" "acc"
      (transactions (parseCsv Js.strictDate threeRowsCsv)) sampleWorld
    = ({| imported := 3; skipped := 0 |}, w1)
    /\ importLedgerEntries "u1" "acc"
         (transactions (parseCsv Js.strictDate threeRowsCsv)) w1
       = ({| imported := 0; skipped := 3 |}, w2)
    /\ store w2 = store w1.
Proof.
  apply (importLedgerEntries_twice Js.strictDate "u1" "acc"
           (transactions (parseCsv Js.strictDate threeRowsCsv)) sampleWorld).
  - apply parseCsv_parsed.
  - intros t _. reflexivity.
Defined.

(** ** The tokenizer *)

Lemma append_cons (c : ascii) (s t : string) :
  String c s +:+ t = String c (s +:+ t).
Proof. reflexivity. Qed.

Lemma append_push (s : string) (c : ascii) (t : string) :
  Str.push s c +:+ t = s +:+ String c t.
Proof.
  unfold Str.push. induction s as [|d s IH]; [reflexivity |].
  rewrite !append_cons. f_equal. exact IH.
Qed.

Lemma append_empty (s : string) : s +:+ "" = s.
Proof.
  induction s as [|c s IH]; [reflexivity | now rewrite append_cons, IH].
Qed.

(** Inside quotes every character other than the double quote, the
    delimiter included, is added to the current field. *)
Lemma splitRowLoop_inside (delimiter : ascii) (body : string) :
  Str.includes dquote body = false ->
  forall (rest current : string) (result : list string),
    splitRowLoop delimiter (body +:+ rest) current true result
    = splitRowLoop delimiter rest (current +:+ body) true result.
Proof.
  induction body as [|ch body IH]; intros Hq rest current result.
  - now rewrite append_empty.
  - cbn [Str.includes] in Hq. apply orb_false_iff in Hq as [Hch Hbody].
    rewrite Ascii.eqb_sym in Hch. rewrite append_cons. cbn [splitRowLoop].
    rewrite Hch, !andb_false_r. cbn [andb].
    rewrite IH by exact Hbody. now rewrite append_push.
Qed.

Lemma splitRowLoop_open (delimiter opener : ascii) (rest current : string)
    (result : list string) :
  isQuote opener = true ->
  splitRowLoop delimiter (String opener rest) current false result
  = splitRowLoop delimiter rest current true result.
Proof. intros H. cbn [splitRowLoop]. now rewrite H. Qed.

Lemma splitRowLoop_escaped (delimiter : ascii) (rest current : string)
    (result : list string) :
  splitRowLoop delimiter (String dquote (String dquote rest)) current true
               result
  = splitRowLoop delimiter rest (Str.push current dquote) true result.
Proof. reflexivity. Qed.

Lemma splitRowLoop_close (delimiter : ascii) (current : string)
    (result : list string) :
  splitRowLoop delimiter (String dquote "") current true result
  = result ++ [Str.trim current].
Proof. reflexivity. Qed.

(** Whatever the delimiter, a field opened by a double quote, and one
    opened by a single quote, takes every following character that is not a
    double quote, delimiters included, without starting a new field; two
    double quotes in a row inside it add one literal quote and leave the
    field open, and one double quote closes it. *)
Lemma quoted_field_until_double_quote (delimiter : ascii) (body : string) :
  Str.includes dquote body = false ->
  (forall rest current result,
      splitRowLoop delimiter (String dquote (body +:+ rest)) current false
                   result
      = splitRowLoop delimiter rest (current +:+ body) true result)
  /\ (forall rest current result,
         splitRowLoop delimiter (String "'" (body +:+ rest)) current false
                      result
         = splitRowLoop delimiter rest (current +:+ body) true result)
  /\ (forall rest current result,
         splitRowLoop delimiter (String dquote (String dquote rest)) current
                      true result
         = splitRowLoop delimiter rest (Str.push current dquote) true result)
  /\ splitRow delimiter (String dquote (body +:+ String dquote ""))
     = [Str.trim body]
  /\ splitRow delimiter (String "'" (body +:+ String dquote ""))
     = [Str.trim body].
Proof.
  intros Hbody. repeat split.
  - intros rest current result.
    rewrite splitRowLoop_open by reflexivity.
    now apply splitRowLoop_inside.
  - intros rest current result.
    rewrite splitRowLoop_open by reflexivity.
    now apply splitRowLoop_inside.
  - unfold splitRow. rewrite splitRowLoop_open by reflexivity.
    rewrite splitRowLoop_inside by exact Hbody.
    now rewrite splitRowLoop_close.
  - unfold splitRow. rewrite splitRowLoop_open by reflexivity.
    rewrite splitRowLoop_inside by exact Hbody.
    now rewrite splitRowLoop_close.
Qed.

(** C5, the failing input. A single quote opens a quoted field, as a double
    quote does, but the loop tests the closing quote against the double
    quote alone. So in a field written between single quotes a double quote
    ends the quoting and the next delimiter splits the field: the
    semicolon-delimited row of [singleQuotedCsv], whose description is
    written between single quotes and holds an inch mark, gives the columns
    [Tubo 3] and [PVC;10,00], and the statement a transaction of zero cents
    described as [Tubo 3]. The closing single quote is never recognised: it
    stays in the field, and the rest of the line with it. The same amount
    that reads as 111200 cents between double quotes reads as 111 cents
    between single quotes. Between double quotes the delimiter does not
    split, also when the field holds a single quote. *)
Theorem single_quoted_field_is_split :
  splitRow ";" ("'a" +:+ String dquote "b;c'") = ["ab"; "c"]
  /\ splitRow ";" ("01/03/2024;'Tubo 3" +:+ String dquote " ; PVC';10,00")
     = ["01/03/2024"; "Tubo 3"; "PVC;10,00"]
  /\ map (fun t => (description t, amountCents t))
         (transactions (parseCsv Js.strictDate singleQuotedCsv))
     = [("Tubo 3", Fin 0)]
  /\ splitRow ";" "01/03/2024;'Mercado';10,00"
     = ["01/03/2024"; "Mercado';10,00"]
  /\ splitRow "," "01/03/2024,Mercado,'1.112,00'"
     = ["01/03/2024"; "Mercado"; "1.112,00'"]
  /\ map amountCents
         (transactions (parseCsv Js.strictDate singleQuotedAmountCsv))
     = [Fin 111]
  /\ splitRow ";" ("01/03/2024;" +:+ quoted "Tubo 3' ; PVC" +:+ ";10,00")
     = ["01/03/2024"; "Tubo 3' ; PVC"; "10,00"]
  /\ splitRow "," ("01/03/2024,Mercado," +:+ quoted "1.112,00")
     = ["01/03/2024"; "Mercado"; "1.112,00"]
  /\ parseAmountToCents "1.112,00" = Fin 111200
  /\ map amountCents (transactions (parseCsv Js.strictDate quotedAmountCsv))
     = [Fin 111200].
Proof. vm_compute. repeat split; reflexivity. Qed.

(** ** The row classifier *)

Lemma space_is_not_a (c : ascii) :
  Str.isSpace c = true ->
  Ascii.eqb (Str.upperAscii "a") (Str.upperAscii c) = false.
Proof.
  destruct c as [[] [] [] [] [] [] [] []]; vm_compute;
    intros H; try reflexivity; discriminate H.
Qed.

Lemma IS_SALDO_second_is_space (s : string) :
  IS_SALDO s = true ->
  exists c0 c1 r, s = String c0 (String c1 r) /\ Str.isSpace c1 = true.
Proof.
  unfold IS_SALDO, spaced at 1. intros H.
  apply andb_true_iff in H as [_ H].
  destruct s as [|c0 [|c1 r]]; try discriminate H.
  cbn [Str.drop] in H. unfold afterSpaces in H.
  apply andb_true_iff in H as [H _]. eauto.
Qed.

Lemma startsWith_saldo_second (c0 c1 : ascii) (r : string) :
  Str.isSpace c1 = true ->
  Str.startsWith true "saldo" (String c0 (String c1 r)) = false.
Proof.
  intros H. cbn [Str.startsWith]. rewrite (space_is_not_a c1 H).
  cbn [andb]. apply andb_false_r.
Qed.

Lemma IS_SALDO_not_skipped (s : string) :
  IS_SALDO s = true ->
  SKIP_SALDO_ANTERIOR s = false /\ SKIP_SALDO_DO_DIA s = false.
Proof.
  intros H. apply IS_SALDO_second_is_space in H as (c0 & c1 & r & -> & Hsp).
  unfold SKIP_SALDO_ANTERIOR, SKIP_SALDO_DO_DIA.
  now rewrite (startsWith_saldo_second c0 c1 r Hsp).
Qed.

(** C8. In the loop of [parseCsv], a row with a date that parses and a
    description matching the letter-spaced pattern [S A L D O] becomes a
    balance, not a transaction: its value is the signed-amount column when
    that has a value, else the credit column, and its fingerprint is that
    of the date, the word SALDO and the balance. A row whose description
    reads [Saldo Anterior] is discarded: it becomes neither. The sample
    statement shows both on whole input. *)
Theorem saldo_row_is_a_balance
    (newDate : string -> option Js.Date) (delimiter : ascii) (c : Columns)
    (line : string) :
  let cols := splitRow delimiter line in
  (forall date,
      parseDate newDate (col cols (dateIdx c)) = Some date ->
      IS_SALDO (col cols (descIdx c)) = true ->
      processRow newDate delimiter c line
      = BalanceRow {|
          balanceDate := date;
          balanceCents := rowBalance c cols;
          balanceHash :=
            computeImportHash (Js.toISODate date) "SALDO" (rowBalance c cols)
        |})
  /\ (col cols (descIdx c) = "Saldo Anterior" ->
      processRow newDate delimiter c line = Discarded)
  /\ map description (transactions (parseCsv Js.strictDate balanceCsv))
     = ["Supermercado"]
  /\ balances (parseCsv Js.strictDate balanceCsv)
     = [{| balanceDate := Js.mkDate 2024 3 1;
           balanceCents := Fin 85000;
           balanceHash :=
             computeImportHash "2024-03-01" "SALDO" (Fin 85000) |}].
Proof.
  intros cols. split; [| split].
  - intros date Hdate Hsaldo. unfold processRow. fold cols. rewrite Hdate.
    destruct (IS_SALDO_not_skipped _ Hsaldo) as [-> ->].
    rewrite Hsaldo. reflexivity.
  - intros Hdesc. unfold processRow. fold cols. rewrite Hdesc.
    destruct (parseDate newDate _); reflexivity.
  - vm_compute. split; reflexivity.
Qed.

Lemma saldo_row_is_a_balance_witness :
  processRow Js.strictDate ";" valueColumns "01/03/2024;S A L D O;850,00"
  = BalanceRow {|
      balanceDate := Js.mkDate 2024 3 1;
      balanceCents := Fin 85000;
      balanceHash := computeImportHash "2024-03-01" "SALDO" (Fin 85000)
    |}
  /\ processRow Js.strictDate ";" valueColumns
       "29/02/2024;Saldo Anterior;1.000,00" = Discarded.
Proof.
  split.
  - exact (proj1 (saldo_row_is_a_balance Js.strictDate ";" valueColumns
                    "01/03/2024;S A L D O;850,00")
                 (Js.mkDate 2024 3 1) eq_refl eq_refl).
  - exact (proj1 (proj2 (saldo_row_is_a_balance Js.strictDate ";" valueColumns
                           "29/02/2024;Saldo Anterior;1.000,00"))
                 eq_refl).
Defined.

(** ** Amounts and types *)

Lemma abs_not_negative (x : number) :
  Num.abs x = NaN \/ Num.geZero (Num.abs x) = true.
Proof.
  destruct x as [| s | z]; simpl; auto. right. apply Z.leb_le, Z.abs_nonneg.
Qed.

(** Under every host, a transaction either parser pushes is an income or
    an expense, and its amount is an absolute value: never negative, and
    not a number only where the absolute value of NaN was taken. *)
Lemma parsed_type_and_amount (newDate : string -> option Js.Date)
    (t : ParsedTransaction) :
  parsed newDate t ->
  (type t = income \/ type t = expense)
  /\ (amountCents t = NaN \/ Num.geZero (amountCents t) = true).
Proof.
  intros H. apply parsed_shape in H as (dateStr & signed & Ha & _ & Ht).
  split; [exact Ht |]. rewrite Ha. apply abs_not_negative.
Qed.

Lemma ofxAmount_not_NaN (rawAmount : string) : ofxAmount rawAmount <> NaN.
Proof.
  unfold ofxAmount. destruct (Js.parseFloat _) as [| s | m e]; simpl;
    try discriminate.
  unfold Num.finite. destruct (Num.overflows _ _); simpl; [discriminate |].
  destruct (0 <=? e + 2)%Z; discriminate.
Qed.

(** X15. The OFX path has no subtraction: its amounts are never NaN. *)
Lemma parseOfx_amounts (newDate : string -> option Js.Date) (text : string)
    (statement : ParsedBankStatement) :
  parseOfx newDate text = Returned statement ->
  Forall (fun t => Num.geZero (amountCents t) = true)
         (transactions statement).
Proof.
  apply parseOfx_Forall. intros fields desc t. unfold ofxEntry.
  destruct (_ || _); [discriminate |].
  destruct (newDate _); [| discriminate].
  intros H. apply Returned_Some_inj in H. subst t. cbn [amountCents].
  pose proof (ofxAmount_not_NaN (orElse (fields !! "TRNAMT") "0")) as Hn.
  destruct (ofxAmount _) as [| s | z]; [congruence | reflexivity |].
  apply Z.leb_le, Z.abs_nonneg.
Qed.

(** C4, the failing input. In [infinityCsv] the debit and the credit cell
    both read Infinity; [parseAmountToCents] returns an infinity for each,
    their difference is NaN, and the row is pushed with [amountCents] NaN,
    which is not [>= 0]; its type is expense. *)
Theorem infinite_debit_and_credit_give_NaN :
  parseAmountToCents "Infinity" = Infinity false
  /\ map amountCents (transactions (parseCsv Js.strictDate infinityCsv))
     = [NaN]
  /\ map type (transactions (parseCsv Js.strictDate infinityCsv)) = [expense]
  /\ Num.geZero NaN = false.
Proof. vm_compute. repeat split; reflexivity. Qed.

(** ** Dates *)

(** Under every host, a date field with day 00 or month 00 gives no date. *)
Lemma parseDate_placeholder (newDate : string -> option Js.Date)
    (raw d m y : string) :
  brMatch (Str.trim raw) = Some (d, m, y) ->
  d = "00" \/ m = "00" ->
  parseDate newDate raw = None.
Proof.
  intros Hm Hz. unfold parseDate. rewrite Hm.
  destruct Hz as [-> | ->]; [reflexivity |]. now rewrite orb_true_r.
Qed.

(** Under every host, a row whose date column reads 00/00/0000 is
    discarded. *)
Lemma placeholder_row_discarded (newDate : string -> option Js.Date)
    (delimiter : ascii) (c : Columns) (line : string) :
  col (splitRow delimiter line) (dateIdx c) = "00/00/0000" ->
  processRow newDate delimiter c line = Discarded.
Proof.
  intros H. unfold processRow. rewrite H.
  now rewrite (parseDate_placeholder newDate "00/00/0000" "00" "00" "0000")
    by auto.
Qed.

(** On a host that checks the day against the month, a row dated
    31/02/2024 is discarded. *)
Lemma invalid_day_row_discarded_on_strict_host
    (delimiter : ascii) (c : Columns) (line : string) :
  col (splitRow delimiter line) (dateIdx c) = "31/02/2024" ->
  processRow Js.strictDate delimiter c line = Discarded.
Proof. intros H. unfold processRow. now rewrite H. Qed.

(** C6, the failing input. The placeholder row is discarded on both hosts
    and the row dated 31/02/2024 is discarded on the host that checks the
    day against the month; on the host that accepts the days 01 to 31 and
    rolls over, [parseDate] returns 2 March 2024 for it and the row is
    pushed as a transaction. *)
Theorem invalid_day_row_survives_on_rolling_host :
  parseCsv Js.strictDate placeholderCsv = emptyStatement
  /\ parseCsv Js.rollingDate placeholderCsv = emptyStatement
  /\ parseCsv Js.strictDate invalidDayCsv = emptyStatement
  /\ parseDate Js.rollingDate "31/02/2024" = Some (Js.mkDate 2024 3 2)
  /\ parseCsv Js.rollingDate invalidDayCsv
     = {| transactions :=
            [{| date := Js.mkDate 2024 3 2;
                description := "Mercado";
                details := None;
                documentId := None;
                amountCents := Fin 1000;
                type := income;
                importHash :=
                  computeImportHash "2024-03-02" "Mercado" (Fin 1000) |}];
          balances := [] |}.
Proof. vm_compute. repeat split; reflexivity. Qed.

(** ** The two OFX dialects *)

(** C7, the failing input. With the same fields, the closed-tag statement
    and the flat one give different transactions: the first pass takes the
    description from MEMO alone (empty when there is none, and with every
    run of digits before a non-word character removed), the second pass
    falls back to NAME and keeps the digits; the fingerprints differ with
    the descriptions. The first pass skips a block named [Saldo do dia],
    the second one a block named [Saldo do Dia], so a closed-tag statement
    with only that marker is read again by the second pass and pushed. *)
Theorem ofx_dialects_disagree :
  match parseOfx Js.strictDate closedOfx, parseOfx Js.strictDate flatOfx with
  | Returned closed, Returned flat =>
      map description (transactions closed) = [""]
      /\ map description (transactions flat) = ["Padaria"]
      /\ map importHash (transactions closed) = ["4208d7f5c65c9dea"]
      /\ map importHash (transactions flat) = ["2919434f9c015d38"]
  | _, _ => False
  end
  /\ match parseOfx Js.strictDate closedMemoOfx,
           parseOfx Js.strictDate flatMemoOfx with
     | Returned closed, Returned flat =>
         map description (transactions closed) = ["PIX Joao"]
         /\ map description (transactions flat) = ["PIX 123 Joao"]
     | _, _ => False
     end
  /\ match parseOfx Js.strictDate closingBalanceOfx with
     | Returned statement =>
         map description (transactions statement) = ["Saldo do dia"]
     | ThrownRangeError => False
     end.
Proof. vm_compute. repeat split; reflexivity. Qed.

(** ** What the revision before did *)

(** There, a letter-spaced balance row was skipped like every other row
    whose description starts with saldo. *)
Lemma earlier_saldo_row_skipped (newDate : string -> option Js.Date)
    (delimiter : ascii) (c : Columns) (line : string) :
  IS_SALDO (col (splitRow delimiter line) (descIdx c)) = true ->
  Earlier.processRow newDate delimiter c line = Discarded.
Proof.
  intros H. unfold Earlier.processRow, Earlier.SKIP_KEYWORDS.
  rewrite H, orb_true_r. now destruct (parseDate newDate _).
Qed.

(** There, the samples read the same in both dialects. *)
Lemma earlier_dialects_agree_on_samples :
  Earlier.parseOfx Js.strictDate closedOfx
  = Earlier.parseOfx Js.strictDate flatOfx
  /\ Earlier.parseOfx Js.strictDate closedMemoOfx
     = Earlier.parseOfx Js.strictDate flatMemoOfx.
Proof. vm_compute. split; reflexivity. Qed.

(** ** The fuel of the scanners is enough *)

Lemma startsWith_length (ci : bool) (pat s : string) :
  Str.startsWith ci pat s = true -> (String.length pat <= String.length s)%nat.
Proof.
  revert s. induction pat as [|p pat IH]; intros s H; simpl; [lia |].
  destruct s as [|c s]; [discriminate |]. simpl in H.
  apply andb_true_iff in H as [_ H]. apply IH in H. simpl. lia.
Qed.

Lemma drop_length (n : nat) (s : string) :
  String.length (Str.drop n s) = (String.length s - n)%nat.
Proof.
  revert s. induction n as [|n IH]; intros s; simpl; [lia |].
  destruct s as [|c s]; simpl; [reflexivity | apply IH].
Qed.

Lemma findCI_shorter (pat s before after : string) :
  Str.nonEmpty pat = true ->
  findCI pat s = Some (before, after) ->
  (String.length after < String.length s)%nat.
Proof.
  intros Hpat. revert before.
  induction s as [|c s IH]; intros before H; [discriminate |].
  cbn [findCI] in H. destruct (Str.startsWith true pat (String c s)) eqn:Hs.
  - injection H as _ <-. apply startsWith_length in Hs.
    rewrite drop_length. destruct pat; [discriminate |]. simpl in *. lia.
  - destruct (findCI pat s) as [[b a] |]; [| discriminate].
    injection H as _ <-. specialize (IH b eq_refl). simpl. lia.
Qed.

Lemma untilBoundary_shorter (s : string) :
  (String.length (snd (untilBoundary s)) <= String.length s)%nat.
Proof.
  induction s as [|c s IH]; [simpl; lia |].
  cbn [untilBoundary]. destruct (_ || _); [simpl; lia |].
  destruct (untilBoundary s) as [body rest]. simpl in *. lia.
Qed.

Lemma takeWhile_shorter (p : ascii -> bool) (s : string) :
  (String.length (snd (takeWhile p s)) <= String.length s)%nat.
Proof.
  induction s as [|c s IH]; [simpl; lia |].
  cbn [takeWhile]. destruct (p c); [| simpl; lia].
  destruct (takeWhile p s) as [xs rest]. simpl in *. lia.
Qed.

Lemma takeDigits_shorter (s : string) :
  (String.length (snd (Js.takeDigits s)) <= String.length s)%nat.
Proof.
  induction s as [|c s IH]; [simpl; lia |].
  cbn [Js.takeDigits]. destruct (Str.isDigit c); [| simpl; lia].
  destruct (Js.takeDigits s) as [ds rest]. simpl in *. lia.
Qed.

Lemma matchTag_shorter (s name value rest : string) :
  matchTag s = Some (name, value, rest) ->
  (String.length rest < String.length s)%nat.
Proof.
  unfold matchTag. destruct s as [|c s]; [discriminate |].
  destruct (Ascii.eqb_spec c "<") as [-> | Hc].
  - pose proof (takeWhile_shorter Str.isLetter s) as H1.
    destruct (takeWhile Str.isLetter s) as [nm r1].
    destruct r1 as [|c1 r2]; [discriminate |].
    destruct (Ascii.eqb_spec c1 ">") as [-> | Hc1].
    + destruct (Str.nonEmpty nm); [| discriminate].
      match goal with |- context [takeWhile ?p r2] =>
        pose proof (takeWhile_shorter p r2) as H2;
        destruct (takeWhile p r2) as [v r3] end.
      intros H. injection H as _ _ <-. simpl in *. lia.
    + destruct c1 as [[] [] [] [] [] [] [] []]; try discriminate.
      now contradiction Hc1.
  - destruct c as [[] [] [] [] [] [] [] []]; try discriminate.
    now contradiction Hc.
Qed.

(** More fuel than the length of the text changes nothing. *)
Lemma closedBlocks_fuel (f1 : nat) :
  forall (f2 : nat) (text : string),
    (String.length text <= f1)%nat -> (String.length text <= f2)%nat ->
    closedBlocks f1 text = closedBlocks f2 text.
Proof.
  induction f1 as [|f1 IH]; intros f2 text H1 H2.
  - destruct text; [| simpl in H1; lia]. now destruct f2.
  - destruct f2 as [|f2]; [destruct text; [reflexivity | simpl in H2; lia] |].
    cbn [closedBlocks].
    destruct (findCI "<STMTTRN>" text) as [[b opened] |] eqn:Ho;
      [| reflexivity].
    apply findCI_shorter in Ho; [| reflexivity].
    destruct (findCI "</STMTTRN>" opened) as [[body rest] |] eqn:Hc;
      [| reflexivity].
    apply findCI_shorter in Hc; [| reflexivity].
    f_equal. apply IH; lia.
Qed.

Lemma sgmlBlocks_fuel (f1 : nat) :
  forall (f2 : nat) (text : string),
    (String.length text <= f1)%nat -> (String.length text <= f2)%nat ->
    sgmlBlocks f1 text = sgmlBlocks f2 text.
Proof.
  induction f1 as [|f1 IH]; intros f2 text H1 H2.
  - destruct text; [| simpl in H1; lia]. now destruct f2.
  - destruct f2 as [|f2]; [destruct text; [reflexivity | simpl in H2; lia] |].
    cbn [sgmlBlocks].
    destruct (findCI "<STMTTRN>" text) as [[b opened] |] eqn:Ho;
      [| reflexivity].
    apply findCI_shorter in Ho; [| reflexivity].
    pose proof (untilBoundary_shorter opened) as Hb.
    destruct (untilBoundary opened) as [body rest]. simpl in Hb.
    f_equal. apply IH; lia.
Qed.

Lemma tagFields_fuel (f1 : nat) :
  forall (f2 : nat) (body : string) (fields : gmap string string),
    (String.length body <= f1)%nat -> (String.length body <= f2)%nat ->
    tagFields f1 body fields = tagFields f2 body fields.
Proof.
  induction f1 as [|f1 IH]; intros f2 body fields H1 H2.
  - destruct body; [| simpl in H1; lia]. now destruct f2.
  - destruct f2 as [|f2]; [destruct body; [reflexivity | simpl in H2; lia] |].
    cbn [tagFields]. destruct body as [|c r]; [reflexivity |].
    destruct (matchTag (String c r)) as [[[name value] rest] |] eqn:Hm.
    + apply matchTag_shorter in Hm. apply IH; simpl in *; lia.
    + apply IH; simpl in *; lia.
Qed.

Lemma stripDigitRuns_fuel (f1 : nat) :
  forall (f2 : nat) (s : string),
    (String.length s <= f1)%nat -> (String.length s <= f2)%nat ->
    stripDigitRuns f1 s = stripDigitRuns f2 s.
Proof.
  induction f1 as [|f1 IH]; intros f2 s H1 H2.
  - destruct s; [| simpl in H1; lia]. now destruct f2.
  - destruct f2 as [|f2]; [destruct s; [reflexivity | simpl in H2; lia] |].
    cbn [stripDigitRuns]. destruct s as [|c r]; [reflexivity |].
    destruct (Str.isDigit c) eqn:Hd.
    + pose proof (takeDigits_shorter r) as Ht.
      cbn [Js.takeDigits]. rewrite Hd.
      destruct (Js.takeDigits r) as [ds rest]. cbn [snd] in Ht.
      destruct rest as [|w rest']; [reflexivity |].
      destruct (Str.isWord w).
      * f_equal. apply IH; simpl in *; lia.
      * apply IH; simpl in *; lia.
    + f_equal. apply IH; simpl in *; lia.
Qed.

(** [Str.digits] prints every digit: past the fuel it takes, the quotient
    is zero. *)
Lemma digitsFuel_enough (radix : Z) (f1 : nat) :
  (1 < radix)%Z ->
  forall (f2 : nat) (n : Z) (acc : string),
    (0 <= n < radix ^ Z.of_nat (S f1))%Z ->
    (0 <= n < radix ^ Z.of_nat (S f2))%Z ->
    Str.digitsFuel radix (S f1) n acc = Str.digitsFuel radix (S f2) n acc.
Proof.
  intros Hr.
  assert (forall (k : nat) (n : Z),
             (0 <= n < radix ^ Z.of_nat (S k))%Z ->
             (0 <= n / radix < radix ^ Z.of_nat k)%Z) as Hdiv.
  { intros k n Hk. split; [apply Z.div_pos; lia |].
    apply Z.div_lt_upper_bound; [lia |].
    replace (Z.of_nat (S k)) with (Z.succ (Z.of_nat k)) in Hk by lia.
    rewrite Z.pow_succ_r in Hk by lia. lia. }
  induction f1 as [|f1 IH]; intros f2 n acc H1 H2;
    cbn [Str.digitsFuel];
    destruct (Z.eqb_spec (n / radix) 0) as [Hq | Hq]; try reflexivity.
  - apply Hdiv in H1. simpl in H1. lia.
  - destruct f2 as [|f2].
    + apply Hdiv in H2. simpl in H2. lia.
    + fold (Str.digitsFuel radix (S f1)). fold (Str.digitsFuel radix (S f2)).
      apply IH; apply Hdiv; assumption.
Qed.

Lemma digits_fuel (radix n : Z) :
  (1 < radix)%Z -> (0 <= n)%Z ->
  (n < radix ^ Z.of_nat (S (Z.to_nat (Z.log2 n))))%Z.
Proof.
  intros Hr Hn. destruct (Z.eq_dec n 0%Z) as [-> | Hz].
  - simpl. lia.
  - assert (0 < n)%Z as Hpos by lia.
    pose proof (Z.log2_spec n Hpos) as [_ Hlog].
    pose proof (Z.log2_nonneg n) as Hl.
    replace (Z.of_nat (S (Z.to_nat (Z.log2 n)))) with (Z.succ (Z.log2 n))
      by lia.
    eapply Z.lt_le_trans; [exact Hlog |].
    apply Z.pow_le_mono_l. lia.
Qed.

(** ** The second OFX pass runs only after an empty first pass *)

Lemma parseOfx_first_pass_wins (newDate : string -> option Js.Date)
    (text : string) (t : ParsedTransaction) (ts : list ParsedTransaction) :
  pushAll (closedBlock newDate) (closedBlocks (String.length text) text) []
  = Returned (t :: ts) ->
  parseOfx newDate text
  = Returned {| transactions := t :: ts; balances := [] |}.
Proof. intros H. unfold parseOfx. now rewrite H. Qed.

(** ** The two dialects in the revision before *)

Lemma upper_is_bracket (p : ascii) :
  Ascii.eqb (Str.upperAscii p) (Str.upperAscii "<") = true -> p = "<"%char.
Proof.
  destruct p as [[] [] [] [] [] [] [] []]; vm_compute;
    intros H; try reflexivity; discriminate H.
Qed.

(** A pattern without an opening bracket does not match across the end of
    [s] into a text that starts with one. *)
Lemma startsWith_before_bracket (pat : string) :
  Str.includes "<" pat = false ->
  forall s rest,
    Str.startsWith true pat (s +:+ String "<" rest) = true ->
    Str.startsWith true pat s = true.
Proof.
  induction pat as [|p pat IH]; intros Hpat s rest H; [reflexivity |].
  cbn [Str.includes] in Hpat. apply orb_false_iff in Hpat as [Hp Hpat].
  destruct s as [|c s].
  - cbn [String.append Str.startsWith] in H.
    change ("" +:+ String "<" rest) with (String "<" rest) in H.
    cbn [Str.startsWith] in H. apply andb_true_iff in H as [H _].
    apply upper_is_bracket in H. subst p. discriminate Hp.
  - rewrite append_cons in H. cbn [Str.startsWith] in *.
    apply andb_true_iff in H as [-> H]. now apply (IH Hpat s rest).
Qed.

Lemma startsWith_inside (pat s rest : string) (c : ascii) :
  Str.includes "<" pat = false ->
  Str.startsWith true (String "<" pat) (String c s) = false ->
  Str.startsWith true (String "<" pat) (String c s +:+ String "<" rest)
  = false.
Proof.
  intros Hpat H. apply not_true_is_false. intros Ht. rewrite append_cons in Ht.
  cbn [Str.startsWith] in *. apply andb_true_iff in Ht as [Hc Ht].
  rewrite Hc in H. cbn [andb] in H.
  apply (startsWith_before_bracket pat Hpat) in Ht. congruence.
Qed.

Lemma findCI_past (pat body rest : string) :
  Str.includes "<" pat = false ->
  freeOf (String "<" pat) body = true ->
  findCI (String "<" pat) (body +:+ String "<" rest)
  = match findCI (String "<" pat) (String "<" rest) with
    | Some (before, after) => Some (body +:+ before, after)
    | None => None
    end.
Proof.
  intros Hpat.
  remember (findCI (String "<" pat) (String "<" rest)) as tail eqn:Htail.
  induction body as [|c body IH]; intros Hfree.
  - change ("" +:+ String "<" rest) with (String "<" rest).
    rewrite <- Htail. now destruct tail as [[b a] |].
  - cbn [freeOf] in Hfree. apply andb_true_iff in Hfree as [Hc Hfree].
    apply negb_true_iff in Hc.
    pose proof (startsWith_inside pat body rest c Hpat Hc) as Hin.
    rewrite append_cons in *. cbn [findCI]. rewrite Hin, (IH Hfree).
    now destruct tail as [[b a] |].
Qed.

Lemma findCI_none (pat body : string) :
  freeOf pat body = true -> findCI pat body = None.
Proof.
  induction body as [|c body IH]; intros Hfree; [reflexivity |].
  cbn [freeOf] in Hfree. apply andb_true_iff in Hfree as [Hc Hfree].
  apply negb_true_iff in Hc. cbn [findCI]. now rewrite Hc, (IH Hfree).
Qed.

Lemma untilBoundary_all (body : string) :
  freeOf "<STMTTRN>" body = true -> freeOf "</BANKTRANLIST>" body = true ->
  untilBoundary body = (body, "").
Proof.
  induction body as [|c body IH]; intros H1 H2; [reflexivity |].
  cbn [freeOf] in H1, H2.
  apply andb_true_iff in H1 as [Hc1 H1]. apply andb_true_iff in H2 as [Hc2 H2].
  apply negb_true_iff in Hc1, Hc2. cbn [untilBoundary].
  now rewrite Hc1, Hc2, (IH H1 H2).
Qed.

Lemma untilBoundary_past (body rest : string) :
  freeOf "<STMTTRN>" body = true -> freeOf "</BANKTRANLIST>" body = true ->
  untilBoundary (body +:+ String "<" rest)
  = (body +:+ fst (untilBoundary (String "<" rest)),
     snd (untilBoundary (String "<" rest))).
Proof.
  remember (untilBoundary (String "<" rest)) as tail eqn:Htail.
  induction body as [|c body IH]; intros H1 H2.
  - change ("" +:+ String "<" rest) with (String "<" rest).
    rewrite <- Htail. now destruct tail.
  - cbn [freeOf] in H1, H2.
    apply andb_true_iff in H1 as [Hc1 H1].
    apply andb_true_iff in H2 as [Hc2 H2].
    apply negb_true_iff in Hc1, Hc2.
    pose proof (startsWith_inside "STMTTRN>" body rest c eq_refl Hc1) as Hi1.
    pose proof (startsWith_inside "/BANKTRANLIST>" body rest c eq_refl Hc2)
      as Hi2.
    rewrite append_cons in *. cbn [untilBoundary].
    rewrite Hi1, Hi2, (IH H1 H2). reflexivity.
Qed.

Lemma takeWhile_past (p : ascii -> bool) (s rest : string) :
  p "<"%char = false ->
  takeWhile p (s +:+ String "<" rest)
  = (fst (takeWhile p s), snd (takeWhile p s) +:+ String "<" rest).
Proof.
  intros Hp. induction s as [|c s IH].
  - change ("" +:+ String "<" rest) with (String "<" rest).
    cbn [takeWhile]. now rewrite Hp.
  - rewrite append_cons. cbn [takeWhile]. destruct (p c); [| reflexivity].
    rewrite IH. now destruct (takeWhile p s).
Qed.

(** [tagRe] matches at the start of a text followed by a closing tag what
    it matches at the start of the text alone. *)
Lemma matchTag_past (s rest : string) :
  matchTag (s +:+ String "<" (String "/" rest))
  = match s with
    | EmptyString => None
    | _ =>
        match matchTag s with
        | Some (name, value, after) =>
            Some (name, value, after +:+ String "<" (String "/" rest))
        | None => None
        end
    end.
Proof.
  destruct s as [|c s]; [reflexivity |].
  rewrite append_cons. unfold matchTag.
  destruct (Ascii.eqb_spec c "<") as [-> | Hc].
  - rewrite (takeWhile_past Str.isLetter s _ eq_refl).
    destruct (takeWhile Str.isLetter s) as [name r1]. cbn [fst snd].
    destruct r1 as [|c1 r2]; [reflexivity |].
    rewrite append_cons.
    destruct (Ascii.eqb_spec c1 ">") as [-> | Hc1].
    + destruct (Str.nonEmpty name); [| reflexivity].
      match goal with |- context [takeWhile ?p (r2 +:+ _)] =>
        rewrite (takeWhile_past p r2 _ eq_refl);
        destruct (takeWhile p r2) as [value r3] end.
      reflexivity.
    + destruct c1 as [[] [] [] [] [] [] [] []]; try reflexivity.
      now contradiction Hc1.
  - destruct c as [[] [] [] [] [] [] [] []]; try reflexivity.
    now contradiction Hc.
Qed.

Lemma tagFields_closing_tag (fuel : nat) (fields : gmap string string) :
  tagFields fuel "</STMTTRN>" fields = fields.
Proof.
  do 11 (destruct fuel as [|fuel]; [reflexivity |]). reflexivity.
Qed.

Lemma tagFields_past (fuel : nat) :
  forall (body : string) (fields : gmap string string),
    (String.length body <= fuel)%nat ->
    tagFields (10 + fuel) (body +:+ "</STMTTRN>") fields
    = tagFields fuel body fields.
Proof.
  induction fuel as [|fuel IH]; intros body fields Hlen.
  - destruct body; [| simpl in Hlen; lia]. apply tagFields_closing_tag.
  - destruct body as [|c body].
    + change ("" +:+ "</STMTTRN>") with "</STMTTRN>".
      now rewrite tagFields_closing_tag.
    + change (10 + S fuel)%nat with (S (10 + fuel)).
      cbn [tagFields].
      pose proof (matchTag_past (String c body) "STMTTRN>") as Hm.
      change (String "<" (String "/" "STMTTRN>")) with "</STMTTRN>" in Hm.
      rewrite append_cons in *. rewrite Hm. clear Hm.
      destruct (matchTag (String c body)) as [[[name value] after] |] eqn:Hm.
      * apply matchTag_shorter in Hm. apply IH. simpl in *. lia.
      * apply IH. simpl in *. lia.
Qed.

Lemma blockFields_closing_tag (body : string) :
  blockFields (body +:+ "</STMTTRN>") = blockFields body.
Proof.
  unfold blockFields.
  rewrite (tagFields_fuel _ (10 + String.length body)).
  - now apply tagFields_past.
  - reflexivity.
  - rewrite length_append. simpl. lia.
Qed.

Lemma earlier_ofxBlock_closing_tag (newDate : string -> option Js.Date)
    (body : string) :
  Earlier.ofxBlock newDate (body +:+ "</STMTTRN>")
  = Earlier.ofxBlock newDate body.
Proof. unfold Earlier.ofxBlock. now rewrite blockFields_closing_tag. Qed.

Lemma findCI_open (rest : string) :
  findCI "<STMTTRN>" ("<STMTTRN>" +:+ rest) = Some ("", rest).
Proof. reflexivity. Qed.

Lemma closedBlocks_empty (fuel : nat) : closedBlocks fuel "" = [].
Proof. now destruct fuel. Qed.

Lemma sgmlBlocks_empty (fuel : nat) : sgmlBlocks fuel "" = [].
Proof. now destruct fuel. Qed.

(** X30. In the revision before, a block reads the same with and without its
    closing tag, under every host: the closed-tag statement and the flat
    one give the same transaction, the same empty result or the same
    exception. *)
Lemma earlier_dialects_agree (newDate : string -> option Js.Date)
    (body : string) :
  plainBody body = true ->
  Earlier.parseOfx newDate ("<STMTTRN>" +:+ body +:+ "</STMTTRN>")
  = Earlier.parseOfx newDate ("<STMTTRN>" +:+ body).
Proof.
  unfold plainBody. intros H.
  apply andb_true_iff in H as [H Hlist]. apply andb_true_iff in H as [Hopen Hclose].
  assert (forall f, closedBlocks (S f) ("<STMTTRN>" +:+ body +:+ "</STMTTRN>")
                    = [body]) as Hc1.
  { intros f. cbn [closedBlocks]. rewrite findCI_open. cbv beta iota.
    rewrite (findCI_past "/STMTTRN>" body "/STMTTRN>" eq_refl Hclose).
    change (findCI "</STMTTRN>" "</STMTTRN>") with (Some ("", "")).
    cbv beta iota. now rewrite append_empty, closedBlocks_empty. }
  assert (forall f, sgmlBlocks (S f) ("<STMTTRN>" +:+ body +:+ "</STMTTRN>")
                    = [body +:+ "</STMTTRN>"]) as Hs1.
  { intros f. cbn [sgmlBlocks]. rewrite findCI_open. cbv beta iota.
    rewrite (untilBoundary_past body "/STMTTRN>" Hopen Hlist).
    change (untilBoundary "</STMTTRN>") with ("</STMTTRN>", "").
    cbn [fst snd]. now rewrite sgmlBlocks_empty. }
  assert (forall f, closedBlocks (S f) ("<STMTTRN>" +:+ body) = []) as Hc2.
  { intros f. cbn [closedBlocks]. rewrite findCI_open. cbv beta iota.
    now rewrite (findCI_none _ _ Hclose). }
  assert (forall f, sgmlBlocks (S f) ("<STMTTRN>" +:+ body) = [body]) as Hs2.
  { intros f. cbn [sgmlBlocks]. rewrite findCI_open. cbv beta iota.
    now rewrite (untilBoundary_all body Hopen Hlist), sgmlBlocks_empty. }
  unfold Earlier.parseOfx.
  change (String.length ("<STMTTRN>" +:+ body +:+ "</STMTTRN>"))
    with (S (String.length ("STMTTRN>" +:+ body +:+ "</STMTTRN>"))).
  change (String.length ("<STMTTRN>" +:+ body))
    with (S (String.length ("STMTTRN>" +:+ body))).
  rewrite Hc1, Hs1, Hc2, Hs2. cbn [pushAll Nat.eqb length].
  rewrite earlier_ofxBlock_closing_tag.
  destruct (Earlier.ofxBlock newDate body) as [[t |] |]; reflexivity.
Qed.

Lemma earlier_dialects_agree_witness :
  Earlier.parseOfx Js.strictDate ("<STMTTRN>" +:+ ofxFields +:+ "</STMTTRN>")
  = Earlier.parseOfx Js.strictDate ("<STMTTRN>" +:+ ofxFields).
Proof. apply earlier_dialects_agree. reflexivity. Defined.

(** * Further properties *)

(** ** Amounts *)

Lemma parseAmountToCents_unfold (raw : string) :
  parseAmountToCents raw
  = let cleaned := Str.trim (removeChars removable raw) in
    if Str.startsWith false "-" cleaned
    then Num.neg (unsignedCents (Str.drop 1 cleaned))
    else unsignedCents cleaned.
Proof.
  unfold parseAmountToCents. fold removable. cbv zeta.
  now destruct (Str.startsWith false "-" _).
Qed.

Lemma unsignedCents_isNumber (cleaned : string) :
  isNumber (unsignedCents cleaned) = true.
Proof.
  unfold unsignedCents.
  destruct (Js.parseFloat _) as [| s | m e]; try reflexivity.
  cbn [Num.isNaN Num.times100]. unfold Num.finite.
  destruct (Num.overflows _ _); [reflexivity |].
  cbn [Num.round]. now destruct (0 <=? e + 2)%Z.
Qed.

Lemma parseAmountToCents_isNumber (raw : string) :
  isNumber (parseAmountToCents raw) = true.
Proof.
  rewrite parseAmountToCents_unfold. cbv zeta.
  destruct (Str.startsWith _ _ _).
  - pose proof (unsignedCents_isNumber
                  (Str.drop 1 (Str.trim (removeChars removable raw)))) as H.
    now destruct (unsignedCents _).
  - apply unsignedCents_isNumber.
Qed.

(** X1. Whatever the text, [parseAmountToCents] returns a number: an
    integer or an infinity, never NaN. *)
Theorem parseAmountToCents_never_NaN (raw : string) :
  isNumber (parseAmountToCents raw) = true.
Proof. exact (parseAmountToCents_isNumber raw). Qed.

Lemma removeChars_append (p : ascii -> bool) (a b : string) :
  removeChars p (a +:+ b) = removeChars p a +:+ removeChars p b.
Proof.
  induction a as [|c a IH]; [reflexivity |].
  rewrite append_cons. cbn [removeChars]. destruct (p c); [exact IH |].
  now rewrite append_cons, IH.
Qed.

Lemma removeChars_all (p : ascii -> bool) (x : string) :
  Str.all p x = true -> removeChars p x = "".
Proof.
  induction x as [|c x IH]; [reflexivity |]. cbn [Str.all removeChars].
  intros H. apply andb_true_iff in H as [-> H]. now apply IH.
Qed.

Lemma removeChars_none (p : ascii -> bool) (s : string) :
  Str.all (fun c => negb (p c)) s = true -> removeChars p s = s.
Proof.
  induction s as [|c s IH]; [reflexivity |]. cbn [Str.all removeChars].
  intros H. apply andb_true_iff in H as [Hc H].
  apply negb_true_iff in Hc. now rewrite Hc, IH.
Qed.

Lemma removeChars_clean (p : ascii -> bool) (s : string) :
  Str.all (fun c => negb (p c)) (removeChars p s) = true.
Proof.
  induction s as [|c s IH]; [reflexivity |]. cbn [removeChars].
  destruct (p c) eqn:Hc; [exact IH |]. cbn [Str.all]. now rewrite Hc, IH.
Qed.

Lemma all_weaken (p q : ascii -> bool) (s : string) :
  (forall c, p c = true -> q c = true) ->
  Str.all p s = true -> Str.all q s = true.
Proof.
  intros Hpq. induction s as [|c s IH]; [reflexivity |]. cbn [Str.all].
  intros H. apply andb_true_iff in H as [Hc H]. now rewrite (Hpq c Hc), IH.
Qed.

Lemma trimStart_id (s : string) :
  Str.all (fun c => negb (Str.isSpace c)) s = true -> Str.trimStart s = s.
Proof.
  destruct s as [|c s]; [reflexivity |]. cbn [Str.all Str.trimStart].
  intros H. apply andb_true_iff in H as [Hc _].
  apply negb_true_iff in Hc. now rewrite Hc.
Qed.

Lemma trimEnd_id (s : string) :
  Str.all (fun c => negb (Str.isSpace c)) s = true -> Str.trimEnd s = s.
Proof.
  induction s as [|c s IH]; [reflexivity |]. cbn [Str.all Str.trimEnd].
  intros H. apply andb_true_iff in H as [Hc H].
  apply negb_true_iff in Hc. rewrite (IH H), Hc. now destruct s.
Qed.

Lemma trim_id (s : string) :
  Str.all (fun c => negb (Str.isSpace c)) s = true -> Str.trim s = s.
Proof.
  intros H. unfold Str.trim. rewrite (trimStart_id s H). now apply trimEnd_id.
Qed.

Lemma not_removable_not_space (c : ascii) :
  negb (removable c) = true -> negb (Str.isSpace c) = true.
Proof.
  unfold removable. intros H. apply negb_true_iff in H.
  apply orb_false_iff in H as [_ H]. now rewrite H.
Qed.

Lemma cleaned_trim (raw : string) :
  Str.trim (removeChars removable raw) = removeChars removable raw.
Proof.
  apply trim_id. eapply all_weaken; [apply not_removable_not_space |].
  apply removeChars_clean.
Qed.

(** X2. Symbols and blanks count nowhere: a run of [R], [$] and whitespace
    put anywhere in the text leaves the amount as it is. *)
Theorem parseAmountToCents_ignores_symbols (before symbols after : string) :
  Str.all removable symbols = true ->
  parseAmountToCents (before +:+ symbols +:+ after)
  = parseAmountToCents (before +:+ after).
Proof.
  intros H. rewrite !parseAmountToCents_unfold, !removeChars_append.
  now rewrite (removeChars_all removable symbols H).
Qed.

Lemma parseAmountToCents_ignores_symbols_witness :
  parseAmountToCents ("-" +:+ "R$ " +:+ "1.234,56")
  = parseAmountToCents ("-" +:+ "1.234,56").
Proof.
  apply (parseAmountToCents_ignores_symbols "-" "R$ " "1.234,56").
  reflexivity.
Defined.

(** X3. A minus sign in front of a text that, once its symbols and blanks
    are gone, does not itself start with one negates the amount. *)
Theorem parseAmountToCents_leading_minus (raw : string) :
  Str.startsWith false "-" (removeChars removable raw) = false ->
  parseAmountToCents ("-" +:+ raw) = Num.neg (parseAmountToCents raw).
Proof.
  intros H. rewrite !parseAmountToCents_unfold. cbv zeta.
  rewrite !cleaned_trim, H.
  change (removeChars removable ("-" +:+ raw))
    with (String "-" (removeChars removable raw)).
  reflexivity.
Qed.

Lemma parseAmountToCents_leading_minus_witness :
  parseAmountToCents ("-" +:+ "R$ 150,00")
  = Num.neg (parseAmountToCents "R$ 150,00").
Proof. apply parseAmountToCents_leading_minus. reflexivity. Defined.

(** *** What an amount in digits is worth *)

Lemma digit_facts (c : ascii) :
  Str.isDigit c = true ->
  removable c = false /\ Str.isSpace c = false
  /\ Ascii.eqb "." c = false /\ Ascii.eqb c "," = false
  /\ Ascii.eqb c "-" = false.
Proof.
  destruct c as [[] [] [] [] [] [] [] []]; vm_compute;
    intros H; try discriminate H; repeat split; reflexivity.
Qed.

Lemma parseFloat_unsigned (c : ascii) (r : string) :
  Str.isDigit c = true ->
  Js.parseFloat (String c r) = unsignedDecimal (String c r).
Proof.
  destruct c as [[] [] [] [] [] [] [] []]; intros H;
    try (vm_compute in H; discriminate H); reflexivity.
Qed.

Lemma takeDigits_then (ds : string) (c : ascii) (r : string) :
  digitsOnly ds = true -> Str.isDigit c = false ->
  Js.takeDigits (ds +:+ String c r) = (ds, String c r).
Proof.
  unfold digitsOnly. intros Hds Hc. induction ds as [|d ds IH].
  - change ("" +:+ String c r) with (String c r). cbn [Js.takeDigits].
    now rewrite Hc.
  - cbn [Str.all] in Hds. apply andb_true_iff in Hds as [Hd Hds].
    rewrite append_cons. cbn [Js.takeDigits]. now rewrite Hd, (IH Hds).
Qed.

Lemma takeDigits_all (ds : string) :
  digitsOnly ds = true -> Js.takeDigits ds = (ds, "").
Proof.
  unfold digitsOnly. induction ds as [|d ds IH]; [reflexivity |].
  cbn [Str.all Js.takeDigits]. intros H.
  apply andb_true_iff in H as [Hd H]. now rewrite Hd, (IH H).
Qed.

Lemma digitsValue_nonneg (ds : string) :
  digitsOnly ds = true ->
  forall acc : Z, (0 <= acc)%Z -> (0 <= Js.digitsValue acc ds)%Z.
Proof.
  unfold digitsOnly. induction ds as [|d ds IH]; intros Hds acc Hacc;
    [exact Hacc |].
  cbn [Str.all] in Hds. apply andb_true_iff in Hds as [Hd Hds].
  cbn [Js.digitsValue]. apply (IH Hds). unfold Str.isDigit in Hd.
  apply andb_true_iff in Hd as [Hd _]. apply Z.leb_le in Hd. lia.
Qed.

Lemma overflow_positive : (0 < Num.overflow)%Z.
Proof. reflexivity. Qed.

Lemma exactCents_below_overflow : (exactCents < Num.overflow)%Z.
Proof. reflexivity. Qed.

(** The cents of a decimal with two fraction digits and of a whole
    number, below the overflow. *)
Lemma cents_of_hundredths (m : Z) :
  (0 <= m < Num.overflow)%Z ->
  Num.isNaN (Num.finite m (0 - 2)) = false
  /\ Num.round (Num.times100 (Num.finite m (0 - 2))) = Fin m.
Proof.
  intros Hm. pose proof overflow_positive as Hpos.
  assert (Num.finite m (0 - 2) = FDec m (-2)) as ->.
  { unfold Num.finite, Num.overflows. change (0 <=? 0 - 2)%Z with false.
    change (10 ^ (- (0 - 2)))%Z with 100%Z. cbv iota.
    destruct (Z.leb_spec (Num.overflow * 100) (Z.abs m)); [lia | reflexivity]. }
  split; [reflexivity |]. cbn [Num.times100].
  assert (Num.finite m (-2 + 2) = FDec m 0) as ->.
  { unfold Num.finite, Num.overflows. change (0 <=? -2 + 2)%Z with true.
    change (10 ^ (-2 + 2))%Z with 1%Z. cbv iota.
    destruct (Z.leb_spec Num.overflow (Z.abs m * 1)); [lia | reflexivity]. }
  cbn [Num.round]. change (0 <=? 0)%Z with true. cbv iota.
  change (10 ^ 0)%Z with 1%Z. f_equal. lia.
Qed.

Lemma cents_of_units (m : Z) :
  (0 <= m)%Z -> (100 * m < Num.overflow)%Z ->
  Num.isNaN (Num.finite m (0 - 0)) = false
  /\ Num.round (Num.times100 (Num.finite m (0 - 0))) = Fin (100 * m).
Proof.
  intros Hm Hbound.
  assert (Num.finite m (0 - 0) = FDec m 0) as ->.
  { unfold Num.finite, Num.overflows. change (0 <=? 0 - 0)%Z with true.
    change (10 ^ (0 - 0))%Z with 1%Z. cbv iota.
    destruct (Z.leb_spec Num.overflow (Z.abs m * 1)); [lia | reflexivity]. }
  split; [reflexivity |]. cbn [Num.times100].
  assert (Num.finite m (0 + 2) = FDec m 2) as ->.
  { unfold Num.finite, Num.overflows. change (0 <=? 0 + 2)%Z with true.
    change (10 ^ (0 + 2))%Z with 100%Z. cbv iota.
    destruct (Z.leb_spec Num.overflow (Z.abs m * 100)); [lia | reflexivity]. }
  cbn [Num.round]. change (0 <=? 2)%Z with true. cbv iota.
  change (10 ^ 2)%Z with 100%Z. f_equal. lia.
Qed.

Lemma parseFloat_decimal (ds fs : string) :
  Str.nonEmpty ds = true -> digitsOnly ds = true -> digitsOnly fs = true ->
  Js.parseFloat (ds +:+ "." +:+ fs)
  = Num.finite (Js.digitsValue 0 (ds +:+ fs))
               (0 - Z.of_nat (String.length fs)).
Proof.
  intros Hne Hds Hfs. destruct ds as [|c ds]; [discriminate Hne |].
  pose proof Hds as Hc. unfold digitsOnly in Hc. cbn [Str.all] in Hc.
  apply andb_true_iff in Hc as [Hc _].
  rewrite append_cons, (parseFloat_unsigned c _ Hc), <- append_cons.
  unfold unsignedDecimal.
  change ("." +:+ fs) with (String "." fs).
  rewrite (takeDigits_then (String c ds) "." fs Hds eq_refl).
  rewrite (takeDigits_all fs Hfs). reflexivity.
Qed.

Lemma parseFloat_whole (ds : string) :
  Str.nonEmpty ds = true -> digitsOnly ds = true ->
  Js.parseFloat ds = Num.finite (Js.digitsValue 0 ds) (0 - 0).
Proof.
  intros Hne Hds. destruct ds as [|c ds]; [discriminate Hne |].
  pose proof Hds as Hc. unfold digitsOnly in Hc. cbn [Str.all] in Hc.
  apply andb_true_iff in Hc as [Hc _].
  rewrite (parseFloat_unsigned c _ Hc). unfold unsignedDecimal.
  rewrite (takeDigits_all _ Hds). cbv iota beta.
  now rewrite append_empty.
Qed.

Lemma amountChar_facts (c : ascii) :
  amountChar c = true ->
  negb (removable c) = true /\ Ascii.eqb c "-" = false.
Proof.
  destruct c as [[] [] [] [] [] [] [] []]; vm_compute;
    intros H; try discriminate H; split; reflexivity.
Qed.

Lemma digitsOnly_amountChars (ds : string) :
  digitsOnly ds = true -> Str.all amountChar ds = true.
Proof.
  apply all_weaken. intros c H. unfold amountChar. now rewrite H.
Qed.

Lemma digitsOnly_append (a b : string) :
  digitsOnly (a +:+ b) = digitsOnly a && digitsOnly b.
Proof. apply all_append. Qed.

(** A text of digits, dots and commas that starts with a digit goes to the
    format test as it is. *)
Lemma parseAmountToCents_plain (c : ascii) (r : string) :
  Str.isDigit c = true -> Str.all amountChar r = true ->
  parseAmountToCents (String c r) = unsignedCents (String c r).
Proof.
  intros Hc Hr. rewrite parseAmountToCents_unfold. cbv zeta.
  rewrite cleaned_trim.
  assert (removeChars removable (String c r) = String c r) as ->.
  { apply removeChars_none. cbn [Str.all].
    destruct (digit_facts c Hc) as (-> & _). cbn [negb andb].
    eapply all_weaken; [| exact Hr]. intros x Hx.
    now destruct (amountChar_facts x Hx). }
  cbn [Str.startsWith]. destruct (digit_facts c Hc) as (_ & _ & _ & _ & Hm).
  rewrite Ascii.eqb_sym in Hm. now rewrite Hm.
Qed.

Lemma replaceFirstComma_digits (ds rest : string) :
  digitsOnly ds = true ->
  replaceFirstComma (ds +:+ String "," rest) = ds +:+ String "." rest.
Proof.
  unfold digitsOnly. induction ds as [|d ds IH]; [reflexivity |].
  cbn [Str.all]. intros H. apply andb_true_iff in H as [Hd H].
  rewrite !append_cons. cbn [replaceFirstComma].
  destruct (digit_facts d Hd) as (_ & _ & _ & -> & _). now rewrite (IH H).
Qed.

Lemma replaceFirstComma_none (ds : string) :
  digitsOnly ds = true -> replaceFirstComma ds = ds.
Proof.
  unfold digitsOnly. induction ds as [|d ds IH]; [reflexivity |].
  cbn [Str.all replaceFirstComma]. intros H.
  apply andb_true_iff in H as [Hd H].
  destruct (digit_facts d Hd) as (_ & _ & _ & -> & _). now rewrite (IH H).
Qed.

Lemma removeDots_digits (ds : string) :
  digitsOnly ds = true -> removeChars (Ascii.eqb ".") ds = ds.
Proof.
  intros H. apply removeChars_none. eapply all_weaken; [| exact H].
  intros c Hc. now destruct (digit_facts c Hc) as (_ & _ & -> & _).
Qed.

(** After the format test, digits, a comma and two digits are worth the
    number their digits spell, in cents. *)
Lemma decimal_comma_cents (ds fs : string) :
  Str.nonEmpty ds = true -> digitsOnly ds = true -> digitsOnly fs = true ->
  String.length fs = 2%nat ->
  (Js.digitsValue 0 (ds +:+ fs) < Num.overflow)%Z ->
  (let value := Js.parseFloat (replaceFirstComma (ds +:+ "," +:+ fs)) in
   if Num.isNaN value then Fin 0 else Num.round (Num.times100 value))
  = Fin (Js.digitsValue 0 (ds +:+ fs)).
Proof.
  intros Hne Hds Hfs Hlen Hbound. cbv zeta.
  change ("," +:+ fs) with (String "," fs).
  rewrite (replaceFirstComma_digits ds fs Hds).
  change (String "." fs) with ("." +:+ fs).
  rewrite (parseFloat_decimal ds fs Hne Hds Hfs), Hlen.
  change (Z.of_nat 2) with 2%Z.
  assert (0 <= Js.digitsValue 0 (ds +:+ fs))%Z as Hpos.
  { apply digitsValue_nonneg; [| lia].
    now rewrite digitsOnly_append, Hds, Hfs. }
  destruct (cents_of_hundredths _ (conj Hpos Hbound)) as [-> ->].
  reflexivity.
Qed.

(** X4. A text of digits, a comma and two more digits reads as the number
    all its digits spell, taken as cents (150,00 is 15000), as long as that
    number is below 2^51. *)
Theorem parseAmountToCents_decimal_comma (ds fs : string) :
  Str.nonEmpty ds = true -> digitsOnly ds = true -> digitsOnly fs = true ->
  String.length fs = 2%nat ->
  (Js.digitsValue 0 (ds +:+ fs) < exactCents)%Z ->
  parseAmountToCents (ds +:+ "," +:+ fs) = Fin (Js.digitsValue 0 (ds +:+ fs)).
Proof.
  intros Hne Hds Hfs Hlen Hsmall.
  pose proof (Z.lt_trans _ _ _ Hsmall exactCents_below_overflow) as Hbound.
  pose proof (decimal_comma_cents ds fs Hne Hds Hfs Hlen Hbound) as Hcents.
  destruct ds as [|c ds]; [discriminate Hne |].
  pose proof Hds as Hc. unfold digitsOnly in Hc. cbn [Str.all] in Hc.
  apply andb_true_iff in Hc as [Hc Hds'].
  rewrite append_cons in *. rewrite (parseAmountToCents_plain c _ Hc).
  - unfold unsignedCents. rewrite <- append_cons in *.
    destruct (isBrFormat _); [| exact Hcents].
    rewrite removeChars_append, (removeDots_digits _ Hds).
    assert (removeChars (Ascii.eqb ".") ("," +:+ fs) = "," +:+ fs) as ->.
    { change ("," +:+ fs) with (String "," fs). cbn [removeChars].
      change (Ascii.eqb "." ",") with false. cbv iota.
      now rewrite (removeDots_digits fs Hfs). }
    exact Hcents.
  - rewrite all_append, (digitsOnly_amountChars ds Hds').
    change ("," +:+ fs) with (String "," fs). cbn [Str.all andb].
    change (amountChar ",") with true. apply (digitsOnly_amountChars fs Hfs).
Qed.

Lemma parseAmountToCents_decimal_comma_witness :
  parseAmountToCents ("12345" +:+ "," +:+ "67")
  = Fin (Js.digitsValue 0 ("12345" +:+ "67")).
Proof.
  apply (parseAmountToCents_decimal_comma "12345" "67"); reflexivity.
Defined.

(** *** Grouped amounts *)

Lemma append_assoc (a b c : string) : (a +:+ b) +:+ c = a +:+ b +:+ c.
Proof.
  induction a as [|x a IH]; [reflexivity |]. now rewrite !append_cons, IH.
Qed.

Lemma threeDigits_inv (g : string) :
  threeDigits g = true ->
  exists a b c,
    g = String a (String b (String c ""))
    /\ Str.isDigit a = true /\ Str.isDigit b = true /\ Str.isDigit c = true.
Proof.
  unfold threeDigits. intros H. apply andb_true_iff in H as [Hlen Hall].
  destruct g as [|a [|b [|c [|d g]]]]; try discriminate Hlen.
  cbn [Str.all] in Hall.
  apply andb_true_iff in Hall as [Ha Hall].
  apply andb_true_iff in Hall as [Hb Hall].
  apply andb_true_iff in Hall as [Hc _]. eauto 8.
Qed.

Lemma threeDigits_digitsOnly (g : string) :
  threeDigits g = true -> digitsOnly g = true.
Proof. unfold threeDigits. intros H. now apply andb_true_iff in H. Qed.

Lemma undotted_digitsOnly (groups : list string) :
  forallb threeDigits groups = true -> digitsOnly (undotted groups) = true.
Proof.
  induction groups as [|g groups IH]; [reflexivity |]. cbn [forallb undotted].
  intros H. apply andb_true_iff in H as [Hg H].
  now rewrite digitsOnly_append, (threeDigits_digitsOnly g Hg), IH.
Qed.

Lemma dotted_amountChars (groups : list string) :
  forallb threeDigits groups = true -> Str.all amountChar (dotted groups) = true.
Proof.
  induction groups as [|g groups IH]; [reflexivity |]. cbn [forallb dotted].
  intros H. apply andb_true_iff in H as [Hg H].
  change ("." +:+ g +:+ dotted groups) with (String "." (g +:+ dotted groups)).
  cbn [Str.all]. change (amountChar ".") with true. cbn [andb].
  rewrite all_append, (IH H), andb_true_r.
  apply digitsOnly_amountChars, threeDigits_digitsOnly, Hg.
Qed.

Lemma removeDots_dotted (groups : list string) :
  forallb threeDigits groups = true ->
  removeChars (Ascii.eqb ".") (dotted groups) = undotted groups.
Proof.
  induction groups as [|g groups IH]; [reflexivity |]. cbn [forallb dotted].
  intros H. apply andb_true_iff in H as [Hg H].
  change ("." +:+ g +:+ dotted groups) with (String "." (g +:+ dotted groups)).
  cbn [removeChars]. change (Ascii.eqb "." ".") with true. cbv iota.
  rewrite removeChars_append, (IH H).
  now rewrite (removeDots_digits g (threeDigits_digitsOnly g Hg)).
Qed.

Lemma brGroups_dotted (groups : list string) (tail : string) :
  forallb threeDigits groups = true -> brGroups tail = true ->
  brGroups (dotted groups +:+ tail) = true.
Proof.
  intros Hgroups Htail. induction groups as [|g groups IH]; [exact Htail |].
  cbn [forallb] in Hgroups. apply andb_true_iff in Hgroups as [Hg Hgroups].
  destruct (threeDigits_inv g Hg) as (a & b & c & -> & Ha & Hb & Hc).
  cbn [dotted].
  change (("." +:+ String a (String b (String c "")) +:+ dotted groups)
          +:+ tail)
    with (String "." (String a (String b (String c
            (dotted groups +:+ tail))))).
  cbn [brGroups]. now rewrite Ha, Hb, Hc, (IH Hgroups).
Qed.

Lemma brGroups_first (rest : string) :
  brGroups rest = true ->
  rest = "" \/ exists c r, rest = String c r /\ Str.isDigit c = false.
Proof.
  destruct rest as [|c r]; [now left |]. intros H. right. exists c, r.
  split; [reflexivity |].
  destruct c as [[] [] [] [] [] [] [] []]; try reflexivity;
    cbn in H; discriminate H.
Qed.

Lemma isBrFormat_grouped (ds rest : string) :
  digitsOnly ds = true ->
  (1 <= String.length ds)%nat -> (String.length ds <= 3)%nat ->
  brGroups rest = true ->
  isBrFormat (ds +:+ rest) = true.
Proof.
  intros Hds Hmin Hmax Hrest. unfold isBrFormat.
  assert (Js.takeDigits (ds +:+ rest) = (ds, rest)) as ->.
  { destruct (brGroups_first rest Hrest) as [-> | (c & r & -> & Hc)].
    - rewrite append_empty. now apply takeDigits_all.
    - now apply takeDigits_then. }
  rewrite Hrest, andb_true_r. apply andb_true_iff.
  split; now apply Nat.leb_le.
Qed.

Lemma grouped_plain (ds : string) (groups : list string) (tail : string) :
  Str.nonEmpty ds = true -> digitsOnly ds = true ->
  forallb threeDigits groups = true -> Str.all amountChar tail = true ->
  parseAmountToCents (ds +:+ dotted groups +:+ tail)
  = unsignedCents (ds +:+ dotted groups +:+ tail).
Proof.
  intros Hne Hds Hgroups Htail. destruct ds as [|c ds]; [discriminate Hne |].
  unfold digitsOnly in Hds. cbn [Str.all] in Hds.
  apply andb_true_iff in Hds as [Hc Hds].
  rewrite append_cons. apply (parseAmountToCents_plain c _ Hc).
  now rewrite !all_append, (digitsOnly_amountChars ds Hds),
    (dotted_amountChars groups Hgroups), Htail.
Qed.

(** X5. A grouped Brazilian amount, with one to three leading digits, any
    number of groups of a dot and three digits, a comma and two digits,
    reads as the number all its digits spell, taken as cents (1.234.567,89
    is 123456789), as long as that number is below 2^51. *)
Theorem parseAmountToCents_grouped (ds : string) (groups : list string)
    (fs : string) :
  digitsOnly ds = true ->
  (1 <= String.length ds)%nat -> (String.length ds <= 3)%nat ->
  forallb threeDigits groups = true ->
  digitsOnly fs = true -> String.length fs = 2%nat ->
  (Js.digitsValue 0 (ds +:+ undotted groups +:+ fs) < exactCents)%Z ->
  parseAmountToCents (ds +:+ dotted groups +:+ "," +:+ fs)
  = Fin (Js.digitsValue 0 (ds +:+ undotted groups +:+ fs)).
Proof.
  intros Hds Hmin Hmax Hgroups Hfs Hlen Hsmall.
  pose proof (Z.lt_trans _ _ _ Hsmall exactCents_below_overflow) as Hbound.
  assert (Str.nonEmpty ds = true) as Hne
    by (destruct ds; [simpl in Hmin; lia | reflexivity]).
  destruct (threeDigits_inv ("0" +:+ fs)) as (a & b & c & Hfs3 & _ & Hb & Hc).
  { unfold threeDigits. change ("0" +:+ fs) with (String "0" fs).
    cbn [String.length Str.all]. unfold digitsOnly in Hfs.
    now rewrite Hlen, Hfs. }
  change ("0" +:+ fs) with (String "0" fs) in Hfs3. injection Hfs3 as _ Hfs2.
  rewrite (grouped_plain ds groups ("," +:+ fs) Hne Hds Hgroups).
  - unfold unsignedCents. rewrite isBrFormat_grouped; try assumption.
    + rewrite !removeChars_append, (removeDots_digits ds Hds),
        (removeDots_dotted groups Hgroups), (removeDots_digits fs Hfs).
      change (removeChars (Ascii.eqb ".") ",") with ",".
      rewrite <- !append_assoc in *. rewrite (append_assoc _ "," fs).
      apply decimal_comma_cents; try assumption.
      * destruct ds; [discriminate Hne | reflexivity].
      * now rewrite digitsOnly_append, Hds, undotted_digitsOnly.
    + apply brGroups_dotted; [exact Hgroups |]. subst fs. cbn [brGroups].
      change ("," +:+ String b (String c ""))
        with (String "," (String b (String c ""))).
      cbn [brGroups]. now rewrite Hb, Hc.
  - change ("," +:+ fs) with (String "," fs). cbn [Str.all].
    change (amountChar ",") with true. now apply digitsOnly_amountChars.
Qed.

Lemma parseAmountToCents_grouped_witness :
  parseAmountToCents ("1" +:+ dotted ["234"; "567"] +:+ "," +:+ "89")
  = Fin (Js.digitsValue 0 ("1" +:+ undotted ["234"; "567"] +:+ "89")).
Proof.
  apply (parseAmountToCents_grouped "1" ["234"; "567"] "89");
    solve [reflexivity | cbn; lia].
Defined.

(** X6. Without a comma, one to three digits followed by any number of
    groups of a dot and three digits are a whole amount: the dots group
    thousands and are no decimal point (1.234 is 123400 cents, 150 is
    15000), as long as the cents stay below 2^51. *)
Theorem parseAmountToCents_whole (ds : string) (groups : list string) :
  digitsOnly ds = true ->
  (1 <= String.length ds)%nat -> (String.length ds <= 3)%nat ->
  forallb threeDigits groups = true ->
  (100 * Js.digitsValue 0 (ds +:+ undotted groups) < exactCents)%Z ->
  parseAmountToCents (ds +:+ dotted groups)
  = Fin (100 * Js.digitsValue 0 (ds +:+ undotted groups)).
Proof.
  intros Hds Hmin Hmax Hgroups Hsmall.
  pose proof (Z.lt_trans _ _ _ Hsmall exactCents_below_overflow) as Hbound.
  assert (Str.nonEmpty ds = true) as Hne
    by (destruct ds; [simpl in Hmin; lia | reflexivity]).
  pose proof (grouped_plain ds groups "" Hne Hds Hgroups eq_refl) as Hplain.
  rewrite !append_empty in Hplain. rewrite Hplain. unfold unsignedCents.
  pose proof (isBrFormat_grouped ds (dotted groups +:+ "") Hds Hmin Hmax
                (brGroups_dotted groups "" Hgroups eq_refl)) as Hbr.
  rewrite append_empty in Hbr. rewrite Hbr.
  rewrite removeChars_append, (removeDots_digits ds Hds),
    (removeDots_dotted groups Hgroups).
  assert (digitsOnly (ds +:+ undotted groups) = true) as Hall
    by now rewrite digitsOnly_append, Hds, undotted_digitsOnly.
  rewrite (replaceFirstComma_none _ Hall), parseFloat_whole; [| | exact Hall].
  - destruct (cents_of_units (Js.digitsValue 0 (ds +:+ undotted groups)))
      as [-> ->]; [apply digitsValue_nonneg; [exact Hall | lia] | exact Hbound |].
    reflexivity.
  - destruct ds; [discriminate Hne | reflexivity].
Qed.

Lemma parseAmountToCents_whole_witness :
  parseAmountToCents ("1" +:+ dotted ["234"])
  = Fin (100 * Js.digitsValue 0 ("1" +:+ undotted ["234"])).
Proof.
  apply (parseAmountToCents_whole "1" ["234"]);
    solve [reflexivity | cbn; lia].
Defined.

(** *** Dates *)

Lemma trimStart_spaces (lead s : string) :
  Str.all Str.isSpace lead = true ->
  Str.trimStart (lead +:+ s) = Str.trimStart s.
Proof.
  induction lead as [|c lead IH]; [reflexivity |]. cbn [Str.all].
  intros H. apply andb_true_iff in H as [Hc H].
  rewrite append_cons. cbn [Str.trimStart]. rewrite Hc. exact (IH H).
Qed.

Lemma trimEnd_spaces (trail : string) :
  Str.all Str.isSpace trail = true -> Str.trimEnd trail = "".
Proof.
  induction trail as [|c trail IH]; [reflexivity |]. cbn [Str.all Str.trimEnd].
  intros H. apply andb_true_iff in H as [Hc H]. now rewrite (IH H), Hc.
Qed.

(** [trimEnd] only touches what follows the last character that is not
    white space. *)
Lemma trimEnd_append (a : string) (c : ascii) (b : string) :
  Str.isSpace c = false ->
  Str.trimEnd (a +:+ String c b) = a +:+ String c (Str.trimEnd b).
Proof.
  intros Hc. induction a as [|x a IH].
  - change (Str.trimEnd (String c b) = String c (Str.trimEnd b)).
    cbn [Str.trimEnd]. rewrite Hc. now destruct (Str.trimEnd b).
  - rewrite !append_cons. cbn [Str.trimEnd]. rewrite IH.
    destruct a; reflexivity.
Qed.

Lemma brMatch_build (d1 d2 m1 m2 y1 y2 y3 y4 : ascii) :
  Str.isDigit d1 = true -> Str.isDigit d2 = true ->
  Str.isDigit m1 = true -> Str.isDigit m2 = true ->
  Str.isDigit y1 = true -> Str.isDigit y2 = true ->
  Str.isDigit y3 = true -> Str.isDigit y4 = true ->
  brMatch (String d1 (String d2 (String "/" (String m1 (String m2
            (String "/" (String y1 (String y2 (String y3 (String y4 ""))))))))))
  = Some (String d1 (String d2 ""), String m1 (String m2 ""),
          String y1 (String y2 (String y3 (String y4 "")))).
Proof.
  intros Hd1 Hd2 Hm1 Hm2 Hy1 Hy2 Hy3 Hy4. unfold brMatch.
  cbv [Str.slice substring String.length String.append Nat.sub Nat.eqb
       Str.all].
  now rewrite Hd1, Hd2, Hm1, Hm2, Hy1, Hy2, Hy3, Hy4, String.eqb_refl.
Qed.

Lemma two_chars (s : string) :
  digitsOnly s = true -> String.length s = 2%nat ->
  exists a b, s = String a (String b "")
              /\ Str.isDigit a = true /\ Str.isDigit b = true.
Proof.
  destruct s as [|a [|b [|c s]]]; try discriminate. intros H _.
  unfold digitsOnly in H. cbn [Str.all] in H.
  apply andb_true_iff in H as [Ha H]. apply andb_true_iff in H as [Hb _].
  now exists a, b.
Qed.

Lemma four_chars (s : string) :
  digitsOnly s = true -> String.length s = 4%nat ->
  exists a b c d, s = String a (String b (String c (String d "")))
    /\ Str.isDigit a = true /\ Str.isDigit b = true
    /\ Str.isDigit c = true /\ Str.isDigit d = true.
Proof.
  destruct s as [|a [|b [|c [|d [|e s]]]]]; try discriminate. intros H _.
  unfold digitsOnly in H. cbn [Str.all] in H.
  apply andb_true_iff in H as [Ha H]. apply andb_true_iff in H as [Hb H].
  apply andb_true_iff in H as [Hc H]. apply andb_true_iff in H as [Hd _].
  now exists a, b, c, d.
Qed.

(** X7. A day-first date [DD/MM/YYYY], white space around it allowed, is
    handed to the host as [YYYY-MM-DDT12:00:00], day and month swapped into
    ISO order and the time set to noon; a day or a month of [00] is refused
    before the host is asked. *)
Theorem parseDate_day_first (newDate : string -> option Js.Date)
    (lead d m y trail : string) :
  Str.all Str.isSpace lead = true -> Str.all Str.isSpace trail = true ->
  digitsOnly d = true -> String.length d = 2%nat ->
  digitsOnly m = true -> String.length m = 2%nat ->
  digitsOnly y = true -> String.length y = 4%nat ->
  parseDate newDate (lead +:+ d +:+ "/" +:+ m +:+ "/" +:+ y +:+ trail)
  = if String.eqb d "00" || String.eqb m "00" then None
    else newDate (y +:+ "-" +:+ m +:+ "-" +:+ d +:+ "T12:00:00").
Proof.
  intros Hlead Htrail Hd Ld Hm Lm Hy Ly.
  destruct (two_chars d Hd Ld) as (d1 & d2 & -> & Hd1 & Hd2).
  destruct (two_chars m Hm Lm) as (m1 & m2 & -> & Hm1 & Hm2).
  destruct (four_chars y Hy Ly) as (y1 & y2 & y3 & y4 & -> & Hy1 & Hy2 & Hy3 & Hy4).
  unfold parseDate, Str.trim. rewrite (trimStart_spaces _ _ Hlead).
  destruct (digit_facts d1 Hd1) as (_ & Sd1 & _).
  destruct (digit_facts y4 Hy4) as (_ & Sy4 & _).
  change (String d1 (String d2 "") +:+ "/" +:+ String m1 (String m2 "") +:+ "/"
          +:+ String y1 (String y2 (String y3 (String y4 ""))) +:+ trail)
    with (String d1 (String d2 (String "/" (String m1 (String m2
            (String "/" (String y1 (String y2 (String y3 ""))))))))
          +:+ String y4 trail).
  rewrite !append_cons. cbn [Str.trimStart]. rewrite Sd1.
  rewrite <- !append_cons.
  rewrite (trimEnd_append _ y4 trail Sy4), (trimEnd_spaces trail Htrail).
  change (String d1 (String d2 (String "/" (String m1 (String m2
            (String "/" (String y1 (String y2 (String y3 ""))))))))
          +:+ String y4 "")
    with (String d1 (String d2 (String "/" (String m1 (String m2
            (String "/" (String y1 (String y2 (String y3 (String y4 "")))))))))).
  rewrite (brMatch_build d1 d2 m1 m2 y1 y2 y3 y4) by assumption.
  reflexivity.
Qed.

Lemma parseDate_day_first_witness :
  parseDate Js.strictDate " 05/03/2024 " = Some (Js.mkDate 2024 3 5).
Proof.
  exact (parseDate_day_first Js.strictDate " " "05" "03" "2024" " "
           eq_refl eq_refl eq_refl eq_refl eq_refl eq_refl eq_refl eq_refl).
Defined.

Lemma isoMatch_build (y1 y2 y3 y4 m1 m2 d1 d2 : ascii) (rest : string) :
  Str.isDigit y1 = true -> Str.isDigit y2 = true ->
  Str.isDigit y3 = true -> Str.isDigit y4 = true ->
  Str.isDigit m1 = true -> Str.isDigit m2 = true ->
  Str.isDigit d1 = true -> Str.isDigit d2 = true ->
  isoMatch (String y1 (String y2 (String y3 (String y4 (String "-"
             (String m1 (String m2 (String "-"
               (String d1 (String d2 rest))))))))))
  = Some (String y1 (String y2 (String y3 (String y4 ""))),
          String m1 (String m2 ""), String d1 (String d2 "")).
Proof.
  intros Hy1 Hy2 Hy3 Hy4 Hm1 Hm2 Hd1 Hd2. unfold isoMatch.
  cbn [Str.slice substring String.length Nat.sub Nat.leb].
  replace (substring 0 0 rest) with "" by now destruct rest.
  cbv [String.append Str.all].
  now rewrite Hy1, Hy2, Hy3, Hy4, Hm1, Hm2, Hd1, Hd2, String.eqb_refl.
Qed.

(** The third character of a day-first date is a slash. *)
Lemma brMatch_third (a b c : ascii) (rest : string) :
  Ascii.eqb c "/" = false ->
  brMatch (String a (String b (String c rest))) = None.
Proof.
  intros Hc. unfold brMatch.
  destruct (_ && _ && String.eqb _ _) eqn:E; [| reflexivity].
  apply andb_true_iff in E as [_ E]. apply String.eqb_eq in E.
  cbv [Str.slice substring String.append Nat.sub] in E.
  injection E as E _. rewrite E in Hc. discriminate Hc.
Qed.

Lemma digit_not_slash (c : ascii) :
  Str.isDigit c = true -> Ascii.eqb c "/" = false.
Proof.
  destruct c as [[] [] [] [] [] [] [] []]; vm_compute;
    intros H; try discriminate H; reflexivity.
Qed.

(** X8. A text that starts, white space apart, with a year-first date
    [YYYY-MM-DD] is a date whatever follows the tenth character: the three
    groups go to the host as [YYYY-MM-DDT12:00:00], and a month or a day of
    [00] is not refused here. *)
Theorem parseDate_year_first (newDate : string -> option Js.Date)
    (lead y m d rest : string) :
  Str.all Str.isSpace lead = true ->
  digitsOnly y = true -> String.length y = 4%nat ->
  digitsOnly m = true -> String.length m = 2%nat ->
  digitsOnly d = true -> String.length d = 2%nat ->
  parseDate newDate (lead +:+ y +:+ "-" +:+ m +:+ "-" +:+ d +:+ rest)
  = newDate (y +:+ "-" +:+ m +:+ "-" +:+ d +:+ "T12:00:00").
Proof.
  intros Hlead Hy Ly Hm Lm Hd Ld.
  destruct (two_chars d Hd Ld) as (d1 & d2 & -> & Hd1 & Hd2).
  destruct (two_chars m Hm Lm) as (m1 & m2 & -> & Hm1 & Hm2).
  destruct (four_chars y Hy Ly) as (y1 & y2 & y3 & y4 & -> & Hy1 & Hy2 & Hy3 & Hy4).
  unfold parseDate, Str.trim. rewrite (trimStart_spaces _ _ Hlead).
  destruct (digit_facts y1 Hy1) as (_ & Sy1 & _).
  destruct (digit_facts d2 Hd2) as (_ & Sd2 & _).
  change (String y1 (String y2 (String y3 (String y4 ""))) +:+ "-"
          +:+ String m1 (String m2 "") +:+ "-" +:+ String d1 (String d2 "")
          +:+ rest)
    with (String y1 (String y2 (String y3 (String y4 (String "-"
            (String m1 (String m2 (String "-" (String d1 ""))))))))
          +:+ String d2 rest).
  rewrite !append_cons. cbn [Str.trimStart]. rewrite Sy1.
  rewrite <- !append_cons. rewrite (trimEnd_append _ d2 rest Sd2).
  change (String y1 (String y2 (String y3 (String y4 (String "-"
            (String m1 (String m2 (String "-" (String d1 ""))))))))
          +:+ String d2 (Str.trimEnd rest))
    with (String y1 (String y2 (String y3 (String y4 (String "-"
            (String m1 (String m2 (String "-"
              (String d1 (String d2 (Str.trimEnd rest))))))))))).
  rewrite (brMatch_third y1 y2 y3 _ (digit_not_slash y3 Hy3)).
  rewrite (isoMatch_build y1 y2 y3 y4 m1 m2 d1 d2) by assumption.
  reflexivity.
Qed.

Lemma parseDate_year_first_witness :
  parseDate Js.strictDate "2024-03-05T08:30:00Z" = Some (Js.mkDate 2024 3 5).
Proof.
  exact (parseDate_year_first Js.strictDate "" "2024" "03" "05" "T08:30:00Z"
           eq_refl eq_refl eq_refl eq_refl eq_refl eq_refl eq_refl).
Defined.

(** A text of fewer than ten characters once trimmed is no date, and
    the host is not asked. *)
Theorem parseDate_short (newDate : string -> option Js.Date) (raw : string) :
  (String.length (Str.trim raw) < 10)%nat -> parseDate newDate raw = None.
Proof.
  intros H. unfold parseDate, brMatch, isoMatch.
  destruct (Nat.eqb_spec (String.length (Str.trim raw)) 10) as [E | _];
    [lia |].
  destruct (Nat.leb_spec 10 (String.length (Str.trim raw))) as [E | _];
    [lia |].
  reflexivity.
Qed.

Lemma parseDate_short_witness : parseDate Js.rollingDate "5/3/2024" = None.
Proof. apply parseDate_short. vm_compute. lia. Defined.

(** ** Rows of a CSV statement *)

(** What holds of every row the loop pushes holds of every transaction of
    the statement. *)
Lemma parseCsv_Forall (newDate : string -> option Js.Date)
    (P : ParsedTransaction -> Prop) :
  (forall delimiter c line t,
      processRow newDate delimiter c line = TransactionRow t -> P t) ->
  forall text, Forall P (transactions (parseCsv newDate text)).
Proof.
  intros Hrow text. unfold parseCsv.
  destruct (nonEmptyLines text) as [|header [|row rows]];
    try (constructor; fail).
  destruct (_ || _); [constructor |]. cbn [transactions].
  apply List.Forall_forall. intros t Ht. unfold rowTransactions in Ht.
  apply in_flat_map in Ht as (r & Hr & Ht).
  apply in_map_iff in Hr as (line & Hline & _).
  destruct r; try contradiction. destruct Ht as [-> | []].
  eapply Hrow, Hline.
Qed.

Lemma parseCsv_balances_Forall (newDate : string -> option Js.Date)
    (P : ParsedBalance -> Prop) :
  (forall delimiter c line b,
      processRow newDate delimiter c line = BalanceRow b -> P b) ->
  forall text, Forall P (balances (parseCsv newDate text)).
Proof.
  intros Hrow text. unfold parseCsv.
  destruct (nonEmptyLines text) as [|header [|row rows]];
    try (constructor; fail).
  destruct (_ || _); [constructor |]. cbn [balances].
  apply List.Forall_forall. intros b Hb. unfold rowBalances in Hb.
  apply in_flat_map in Hb as (r & Hr & Hb).
  apply in_map_iff in Hr as (line & Hline & _).
  destruct r; try contradiction. destruct Hb as [-> | []].
  eapply Hrow, Hline.
Qed.

Lemma BalanceRow_inj (a b : ParsedBalance) :
  BalanceRow a = BalanceRow b -> a = b.
Proof. congruence. Qed.

Ltac split_row H :=
  repeat match type of H with
         | context [match ?x with _ => _ end] => destruct x eqn:?
         end;
  try discriminate.

(** X9. In every statement [parseCsv] returns, the fingerprint of a
    transaction is the hash of its own date (as an ISO day), description
    and amount, and the fingerprint of a balance is the hash of its date,
    the word SALDO and its value: details, document number and type take
    no part in it. *)
Theorem parseCsv_fingerprints (newDate : string -> option Js.Date)
    (text : string) :
  Forall (fun t =>
            importHash t
            = computeImportHash (Js.toISODate (date t)) (description t)
                                (amountCents t))
         (transactions (parseCsv newDate text))
  /\ Forall (fun b =>
               balanceHash b
               = computeImportHash (Js.toISODate (balanceDate b)) "SALDO"
                                   (balanceCents b))
            (balances (parseCsv newDate text)).
Proof.
  split.
  - apply parseCsv_Forall. intros delimiter c line t H.
    unfold processRow in H. split_row H.
    all: apply TransactionRow_inj in H; subst t; reflexivity.
  - apply parseCsv_balances_Forall. intros delimiter c line b H.
    unfold processRow in H. split_row H.
    all: apply BalanceRow_inj in H; subst b; reflexivity.
Qed.

Lemma isZero_abs (x : number) : Num.isZero (Num.abs x) = Num.isZero x.
Proof.
  destruct x as [| s | z]; try reflexivity. cbn [Num.abs Num.isZero].
  destruct (Z.eqb_spec z 0) as [-> | Hz]; [reflexivity |].
  apply Z.eqb_neq. lia.
Qed.

(** X10. No transaction of a CSV statement is a balance row or an empty
    row: its description matches none of the three balance patterns, and
    its amount is not zero or its description is not empty. *)
Theorem parseCsv_no_balance_among_transactions
    (newDate : string -> option Js.Date) (text : string) :
  Forall (fun t =>
            SKIP_SALDO_ANTERIOR (description t) = false
            /\ SKIP_SALDO_DO_DIA (description t) = false
            /\ IS_SALDO (description t) = false
            /\ Num.isZero (amountCents t)
               && negb (Str.nonEmpty (description t)) = false)
         (transactions (parseCsv newDate text)).
Proof.
  apply parseCsv_Forall. intros delimiter c line t H.
  unfold processRow in H.
  destruct (parseDate newDate _) as [date |]; [| discriminate].
  destruct (SKIP_SALDO_ANTERIOR _) eqn:H1; [discriminate |].
  destruct (SKIP_SALDO_DO_DIA _) eqn:H2; [discriminate |].
  destruct (IS_SALDO _) eqn:H3; [discriminate |].
  destruct (Num.isZero _ && _) eqn:H4; [discriminate |].
  apply TransactionRow_inj in H. subst t.
  cbn [description amountCents]. rewrite isZero_abs. auto.
Qed.

(** X11. The value of a balance is a number, never NaN. *)
Theorem parseCsv_balances_are_numbers
    (newDate : string -> option Js.Date) (text : string) :
  Forall (fun b => isNumber (balanceCents b) = true)
         (balances (parseCsv newDate text)).
Proof.
  apply parseCsv_balances_Forall. intros delimiter c line b H.
  unfold processRow in H.
  destruct (parseDate newDate _) as [date |]; [| discriminate].
  destruct (SKIP_SALDO_ANTERIOR _); [discriminate |].
  destruct (SKIP_SALDO_DO_DIA _); [discriminate |].
  destruct (IS_SALDO _); [| split_row H].
  apply BalanceRow_inj in H. subst b. cbn [balanceCents].
  destruct (present _ _); [apply parseAmountToCents_isNumber |].
  destruct (present _ _); [apply parseAmountToCents_isNumber | reflexivity].
Qed.

Lemma rows_count (rows : list RowOutcome) :
  (length (rowTransactions rows) + length (rowBalances rows)
   <= length rows)%nat.
Proof.
  induction rows as [|r rows IH]; [reflexivity |].
  unfold rowTransactions, rowBalances in *. cbn [flat_map].
  rewrite !length_app. destruct r; cbn [length]; lia.
Qed.

(** X12. A data line gives at most one record: the transactions and the
    balances of a statement together are no more than its non-empty lines
    less the header. *)
Theorem parseCsv_one_record_per_line
    (newDate : string -> option Js.Date) (text : string) :
  (length (transactions (parseCsv newDate text))
   + length (balances (parseCsv newDate text))
   <= length (nonEmptyLines text) - 1)%nat.
Proof.
  unfold parseCsv.
  destruct (nonEmptyLines text) as [|header [|row rows]];
    try (cbn; lia).
  destruct (_ || _); [cbn; lia |]. cbn [transactions balances].
  pose proof (rows_count
                (map (processRow newDate
                        (if Str.includes ";" header then ";"%char
                         else ","%char)
                        (classifyHeaders
                           (map norm
                              (splitRow
                                 (if Str.includes ";" header then ";"%char
                                  else ","%char) header))))
                     (row :: rows))) as H.
  rewrite length_map in H. cbn [length] in *. lia.
Qed.

Lemma sub_from_zero (x : number) :
  isNumber x = true -> isNumber (Num.sub (Fin 0) x) = true.
Proof. now destruct x. Qed.

Lemma sub_zero (x : number) :
  isNumber x = true -> isNumber (Num.sub x (Fin 0)) = true.
Proof. now destruct x. Qed.

Lemma abs_geZero (x : number) :
  isNumber x = true -> Num.geZero (Num.abs x) = true.
Proof.
  destruct x as [| s | z]; try easy. intros _. apply Z.leb_le, Z.abs_nonneg.
Qed.

(** X13. When the header has a debit column or a credit column but not
    both, no subtraction of two infinities can occur: every amount of the
    statement is zero or more. *)
Theorem parseCsv_amounts_without_both_columns
    (newDate : string -> option Js.Date) (text header : string)
    (data : list string) :
  nonEmptyLines text = header :: data ->
  (let delimiter := if Str.includes ";" header then ";"%char else ","%char in
   let c := classifyHeaders (map norm (splitRow delimiter header)) in
   found (debitIdx c) && found (creditIdx c)) = false ->
  Forall (fun t => Num.geZero (amountCents t) = true)
         (transactions (parseCsv newDate text)).
Proof.
  intros Hlines Hcols. unfold parseCsv. rewrite Hlines.
  destruct data as [|row rows]; [constructor |].
  cbv zeta in *. destruct (_ || _); [constructor |]. cbn [transactions].
  set (delimiter := if Str.includes ";" header then ";"%char else ","%char)
    in *.
  set (c := classifyHeaders (map norm (splitRow delimiter header))) in *.
  apply List.Forall_forall. intros t Ht. unfold rowTransactions in Ht.
  apply in_flat_map in Ht as (r & Hr & Ht).
  apply in_map_iff in Hr as (line & Hline & _).
  destruct r; try contradiction. destruct Ht as [-> | []].
  unfold processRow in Hline.
  destruct (parseDate newDate _) as [date |]; [| discriminate].
  destruct (SKIP_SALDO_ANTERIOR _); [discriminate |].
  destruct (SKIP_SALDO_DO_DIA _); [discriminate |].
  destruct (IS_SALDO _); [discriminate |].
  destruct (Num.isZero _ && _); [discriminate |].
  apply TransactionRow_inj in Hline. subst t. cbn [amountCents].
  apply abs_geZero.
  destruct (present _ (valueIdx c)); [apply parseAmountToCents_isNumber |].
  destruct (found (debitIdx c) || found (creditIdx c)); [| reflexivity].
  assert (forall idx, present (splitRow delimiter line) idx = true ->
                      found idx = true) as Hp.
  { intros [i |]; [reflexivity | discriminate]. }
  destruct (present _ (debitIdx c)) eqn:Hd, (present _ (creditIdx c)) eqn:Hc.
  - apply Hp in Hd, Hc. rewrite Hd, Hc in Hcols. discriminate.
  - apply sub_from_zero, parseAmountToCents_isNumber.
  - apply sub_zero, parseAmountToCents_isNumber.
  - reflexivity.
Qed.

Lemma parseCsv_amounts_without_both_columns_witness :
  map amountCents (transactions (parseCsv Js.strictDate debitOnlyCsv))
  = [Fin 15000]
  /\ Forall (fun t => Num.geZero (amountCents t) = true)
            (transactions (parseCsv Js.strictDate debitOnlyCsv)).
Proof.
  split; [reflexivity |].
  apply (parseCsv_amounts_without_both_columns Js.strictDate debitOnlyCsv
           "Data;Historico;Debito" ["01/03/2024;Mercado;150,00"]);
    reflexivity.
Defined.

(** ** Blocks of an OFX statement *)

(** X14. In every statement [parseOfx] returns, the fingerprint of a
    transaction is the hash of its own date (as an ISO day), description
    and amount; an OFX transaction never has details, and an OFX statement
    never has balances. *)
Theorem parseOfx_fingerprints (newDate : string -> option Js.Date)
    (text : string) (statement : ParsedBankStatement) :
  parseOfx newDate text = Returned statement ->
  Forall (fun t =>
            importHash t
            = computeImportHash (Js.toISODate (date t)) (description t)
                                (amountCents t)
            /\ details t = None)
         (transactions statement)
  /\ balances statement = [].
Proof.
  intros H. split.
  - revert H. apply parseOfx_Forall. intros fields desc t. unfold ofxEntry.
    destruct (_ || _); [discriminate |].
    destruct (newDate _); [| discriminate].
    intros H. apply Returned_Some_inj in H. subst t. split; reflexivity.
  - unfold parseOfx in H.
    destruct (pushAll (closedBlock newDate) _ _) as [ts |]; [| discriminate].
    destruct (length ts =? 0)%nat.
    + destruct (pushAll (sgmlBlock newDate) _ _); [| discriminate].
      now injection H as <-.
    + now injection H as <-.
Qed.

Lemma parseOfx_fingerprints_witness :
  let statement :=
    match parseOfx Js.strictDate closedOfx with
    | Returned statement => statement
    | ThrownRangeError => emptyStatement
    end in
  map importHash (transactions statement) = ["4208d7f5c65c9dea"]
  /\ Forall (fun t =>
               importHash t
               = computeImportHash (Js.toISODate (date t)) (description t)
                                   (amountCents t)
               /\ details t = None)
            (transactions statement)
     /\ balances statement = [].
Proof.
  split; [vm_compute; reflexivity |].
  apply (parseOfx_fingerprints Js.strictDate closedOfx). reflexivity.
Defined.

Lemma parseOfx_amounts_witness :
  let statement :=
    match parseOfx Js.strictDate closedOfx with
    | Returned statement => statement
    | ThrownRangeError => emptyStatement
    end in
  map amountCents (transactions statement) = [Fin 1050]
  /\ Forall (fun t => Num.geZero (amountCents t) = true)
            (transactions statement).
Proof.
  split; [vm_compute; reflexivity |].
  apply (parseOfx_amounts Js.strictDate closedOfx). reflexivity.
Defined.

(** X16. A text in which no [<STMTTRN>] opens, in either case, is an empty
    statement, whatever else it holds. *)
Theorem parseOfx_without_transaction_tag (newDate : string -> option Js.Date)
    (text : string) :
  freeOf "<STMTTRN>" text = true ->
  parseOfx newDate text = Returned emptyStatement.
Proof.
  intros H. apply findCI_none in H. unfold parseOfx.
  destruct (String.length text) as [|fuel]; [reflexivity |].
  cbn [closedBlocks sgmlBlocks]. now rewrite H.
Qed.

Lemma parseOfx_without_transaction_tag_witness :
  parseOfx Js.rollingDate "<OFX><BANKTRANLIST></BANKTRANLIST></OFX>"
  = Returned emptyStatement.
Proof. apply parseOfx_without_transaction_tag. reflexivity. Defined.

Lemma pushAll_throws
    (step : string -> Completion (option ParsedTransaction)) (body : string) :
  step body = ThrownRangeError ->
  forall blocks acc, In body blocks -> pushAll step blocks acc = ThrownRangeError.
Proof.
  intros Hthrow. induction blocks as [|b blocks IH]; intros acc Hin;
    [contradiction |].
  cbn [pushAll]. destruct Hin as [-> | Hin]; [now rewrite Hthrow |].
  destruct (step b) as [[t |] |]; [now apply IH | now apply IH | reflexivity].
Qed.

(** X17. One closed block whose date the host refuses makes the whole
    statement throw: no transaction of the other blocks is returned. *)
Theorem parseOfx_throws_on_invalid_date (newDate : string -> option Js.Date)
    (text body : string) :
  In body (closedBlocks (String.length text) text) ->
  closedBlock newDate body = ThrownRangeError ->
  parseOfx newDate text = ThrownRangeError.
Proof.
  intros Hin Hthrow. unfold parseOfx.
  now rewrite (pushAll_throws (closedBlock newDate) body Hthrow _ [] Hin).
Qed.

Lemma parseOfx_throws_on_invalid_date_witness :
  parseOfx Js.strictDate invalidDateOfx = ThrownRangeError.
Proof.
  apply (parseOfx_throws_on_invalid_date Js.strictDate invalidDateOfx
           "<DTPOSTED>20241301<TRNAMT>1.00").
  - vm_compute. now left.
  - vm_compute. reflexivity.
Defined.

(** ** Fields of a row *)

Lemma splitRowLoop_plain (delimiter : ascii) (field : string) :
  plainField delimiter field = true ->
  forall (rest current : string) (result : list string),
    splitRowLoop delimiter (field +:+ rest) current false result
    = splitRowLoop delimiter rest (current +:+ field) false result.
Proof.
  unfold plainField.
  induction field as [|ch field IH]; intros H rest current result.
  - now rewrite append_empty.
  - cbn [Str.all] in H. apply andb_true_iff in H as [Hch H].
    apply andb_true_iff in Hch as [Hq Hd].
    apply negb_true_iff in Hq, Hd.
    rewrite append_cons. cbn [splitRowLoop].
    rewrite Hq, Hd. cbn [andb].
    replace (Ascii.eqb ch dquote) with false.
    2: { unfold isQuote in Hq. apply orb_false_iff in Hq as [Hq _].
         now rewrite Hq. }
    cbn [andb]. rewrite (IH H). now rewrite append_push.
Qed.

Lemma splitRowLoop_delimiter (delimiter : ascii) (rest current : string)
    (result : list string) :
  isQuote delimiter = false ->
  splitRowLoop delimiter (String delimiter rest) current false result
  = splitRowLoop delimiter rest "" false (result ++ [Str.trim current]).
Proof.
  intros Hq. cbn [splitRowLoop]. rewrite Hq. cbn [andb negb].
  rewrite andb_false_r, Ascii.eqb_refl. reflexivity.
Qed.

Lemma splitRowLoop_end (delimiter : ascii) (current : string)
    (inQuotes : bool) (result : list string) :
  splitRowLoop delimiter "" current inQuotes result
  = result ++ [Str.trim current].
Proof. reflexivity. Qed.

Lemma splitRowLoop_join_plain (delimiter : ascii) :
  isQuote delimiter = false ->
  forall (fields : list string) (field : string) (result : list string),
    Forall (fun f => plainField delimiter f = true) (field :: fields) ->
    splitRowLoop delimiter (join delimiter (field :: fields)) "" false result
    = result ++ map Str.trim (field :: fields).
Proof.
  intros Hq. induction fields as [|next fields IH]; intros field result H.
  - cbn [join map]. apply Forall_inv in H.
    rewrite <- (append_empty field) at 1.
    now rewrite (splitRowLoop_plain delimiter field H), splitRowLoop_end.
  - pose proof (Forall_inv H) as Hf. apply Forall_inv_tail in H.
    change (join delimiter (field :: next :: fields))
      with (field +:+ String delimiter (join delimiter (next :: fields))).
    rewrite (splitRowLoop_plain delimiter field Hf).
    rewrite (splitRowLoop_delimiter _ _ _ _ Hq).
    rewrite (IH next _ H). cbn [map]. now rewrite <- app_assoc.
Qed.

(** X18. A row written by joining fields with the delimiter reads back
    field by field, each one trimmed, as long as no field holds a quote or
    the delimiter. *)
Theorem splitRow_join (delimiter : ascii) (field : string)
    (fields : list string) :
  isQuote delimiter = false ->
  Forall (fun f => plainField delimiter f = true) (field :: fields) ->
  splitRow delimiter (join delimiter (field :: fields))
  = map Str.trim (field :: fields).
Proof.
  intros Hq H. unfold splitRow.
  now rewrite (splitRowLoop_join_plain delimiter Hq fields field [] H).
Qed.

Lemma splitRow_join_witness :
  splitRow ";" "01/03/2024; Mercado ;150,00"
  = ["01/03/2024"; "Mercado"; "150,00"].
Proof.
  apply (splitRow_join ";" "01/03/2024" [" Mercado "; "150,00"]).
  - reflexivity.
  - repeat constructor.
Defined.

Lemma splitRowLoop_doubled (delimiter : ascii) (field : string) :
  forall (rest current : string) (result : list string),
    splitRowLoop delimiter (doubled field +:+ String dquote rest) current true
                 result
    = splitRowLoop delimiter (String dquote rest) (current +:+ field) true
                   result.
Proof.
  induction field as [|ch field IH]; intros rest current result.
  - now rewrite append_empty.
  - cbn [doubled]. destruct (Ascii.eqb ch dquote) eqn:Hch.
    + apply Ascii.eqb_eq in Hch. subst ch.
      rewrite !append_cons, splitRowLoop_escaped, IH.
      now rewrite append_push.
    + rewrite append_cons. cbn [splitRowLoop].
      rewrite Hch, !andb_false_r. cbn [andb].
      rewrite IH. now rewrite append_push.
Qed.

Lemma splitRowLoop_escaped_field (delimiter : ascii) (field rest : string)
    (result : list string) (current : string) :
  splitRowLoop delimiter (escaped field +:+ rest) current false result
  = match rest with
    | String next rest' =>
        if Ascii.eqb next dquote
        then splitRowLoop delimiter rest'
               (Str.push (current +:+ field) dquote) true result
        else splitRowLoop delimiter rest (current +:+ field) false result
    | EmptyString => result ++ [Str.trim (current +:+ field)]
    end.
Proof.
  unfold escaped. rewrite !append_cons, append_assoc.
  rewrite splitRowLoop_open by reflexivity.
  change (String dquote "" +:+ rest) with (String dquote rest).
  rewrite splitRowLoop_doubled.
  cbn [splitRowLoop]. rewrite Ascii.eqb_refl.
  change (isQuote dquote) with true. cbn [andb negb].
  destruct rest as [|next rest']; [reflexivity |].
  now destruct (Ascii.eqb next dquote).
Qed.

Lemma splitRowLoop_join_escaped (delimiter : ascii) :
  isQuote delimiter = false ->
  forall (fields : list string) (field : string) (result : list string),
    splitRowLoop delimiter (join delimiter (map escaped (field :: fields)))
                 "" false result
    = result ++ map Str.trim (field :: fields).
Proof.
  intros Hq. induction fields as [|next fields IH]; intros field result.
  - cbn [join map]. rewrite <- (append_empty (escaped field)).
    now rewrite splitRowLoop_escaped_field.
  - change (join delimiter (map escaped (field :: next :: fields)))
      with (escaped field
            +:+ String delimiter
                  (join delimiter (map escaped (next :: fields)))).
    rewrite splitRowLoop_escaped_field.
    replace (Ascii.eqb delimiter dquote) with false.
    2: { unfold isQuote in Hq. apply orb_false_iff in Hq as [Hq' _].
         now rewrite Hq'. }
    rewrite (splitRowLoop_delimiter _ _ _ _ Hq).
    rewrite (IH next). cbn [map]. now rewrite <- app_assoc.
Qed.

(** X19. Quoting round trip: whatever the fields hold, delimiters, line
    content and quotes of both kinds included, a row that writes each field
    between double quotes with its double quotes doubled reads back as the
    same fields, each one trimmed. *)
Theorem splitRow_escaped (delimiter : ascii) (field : string)
    (fields : list string) :
  isQuote delimiter = false ->
  splitRow delimiter (join delimiter (map escaped (field :: fields)))
  = map Str.trim (field :: fields).
Proof.
  intros Hq. unfold splitRow.
  now rewrite (splitRowLoop_join_escaped delimiter Hq fields field []).
Qed.

Lemma splitRow_escaped_witness :
  splitRow "," (join "," (map escaped ["a,b"; quoted "c"; "it's"]))
  = ["a,b"; quoted "c"; "it's"].
Proof. apply (splitRow_escaped "," "a,b" [quoted "c"; "it's"]). reflexivity. Defined.

Lemma splitRowLoop_inside_all (delimiter : ascii) (body current : string)
    (result : list string) :
  Str.includes dquote body = false ->
  splitRowLoop delimiter body current true result
  = result ++ [Str.trim (current +:+ body)].
Proof.
  intros H. rewrite <- (append_empty body) at 1.
  now rewrite (splitRowLoop_inside delimiter body H), splitRowLoop_end.
Qed.

(** X20. An apostrophe outside quotes opens a quoted field that only a
    double quote closes: when none follows, the rest of the line,
    delimiters included, stays in the field the apostrophe is in, and the
    apostrophe itself is dropped. *)
Theorem splitRow_apostrophe (delimiter : ascii) (fields : list string)
    (before after : string) :
  isQuote delimiter = false ->
  Forall (fun f => plainField delimiter f = true) fields ->
  plainField delimiter before = true ->
  Str.includes dquote after = false ->
  splitRow delimiter
    (join delimiter (fields ++ [before +:+ String "'" after]))
  = map Str.trim fields ++ [Str.trim (before +:+ after)].
Proof.
  intros Hq Hfields Hbefore Hafter. unfold splitRow.
  assert (forall result,
             splitRowLoop delimiter (before +:+ String "'" after) "" false
                          result
             = result ++ [Str.trim (before +:+ after)]) as Hlast.
  { intros result. rewrite (splitRowLoop_plain delimiter before Hbefore).
    rewrite splitRowLoop_open by reflexivity.
    now rewrite (splitRowLoop_inside_all _ _ _ _ Hafter). }
  assert (forall result,
             splitRowLoop delimiter
               (join delimiter (fields ++ [before +:+ String "'" after]))
               "" false result
             = result ++ map Str.trim fields
               ++ [Str.trim (before +:+ after)]) as Hall.
  { induction fields as [|f fields IH]; intros result.
    - cbn [app join map]. apply Hlast.
    - pose proof (Forall_inv Hfields) as Hf.
      apply Forall_inv_tail in Hfields.
      replace (join delimiter ((f :: fields) ++ [before +:+ String "'" after]))
        with (f +:+ String delimiter
                (join delimiter (fields ++ [before +:+ String "'" after])))
        by (cbn [app join]; now destruct fields).
      rewrite (splitRowLoop_plain delimiter f Hf).
      rewrite (splitRowLoop_delimiter _ _ _ _ Hq).
      rewrite (IH Hfields). cbn [map app]. now rewrite <- app_assoc. }
  exact (Hall []).
Qed.

Lemma splitRow_apostrophe_witness :
  splitRow ";" "01/03/2024;Caixa d'Agua;150,00"
  = ["01/03/2024"; "Caixa dAgua;150,00"].
Proof.
  apply (splitRow_apostrophe ";" ["01/03/2024"] "Caixa d" "Agua;150,00").
  - reflexivity.
  - repeat constructor.
  - reflexivity.
  - reflexivity.
Defined.

(** ** Headers and file names *)

Lemma baseChar_lowerChar_idempotent (c : ascii) :
  baseChar (lowerChar (baseChar (lowerChar c))) = baseChar (lowerChar c).
Proof. destruct c as [[] [] [] [] [] [] [] []]; reflexivity. Qed.

(** Header normalisation keeps the length of a header and changes
    nothing in a header that is already normalised. *)
Theorem norm_idempotent (s : string) :
  norm (norm s) = norm s /\ String.length (norm s) = String.length s.
Proof.
  induction s as [|c s [IH1 IH2]]; [split; reflexivity |].
  cbn [norm String.length].
  now rewrite baseChar_lowerChar_idempotent, IH1, IH2.
Qed.

Lemma lastPiece_plain (ext : string) :
  Str.includes "." ext = false ->
  forall current, lastPiece ext current = current +:+ ext.
Proof.
  induction ext as [|c ext IH]; intros H current.
  - now rewrite append_empty.
  - cbn [Str.includes] in H. apply orb_false_iff in H as [Hc H].
    rewrite Ascii.eqb_sym in Hc. cbn [lastPiece]. rewrite Hc, (IH H).
    now rewrite append_push.
Qed.

Lemma lastPiece_after_dot (stem ext : string) :
  forall current,
    lastPiece (stem +:+ String "." ext) current = lastPiece ext "".
Proof.
  induction stem as [|c stem IH]; intros current.
  - reflexivity.
  - rewrite append_cons. cbn [lastPiece].
    destruct (Ascii.eqb c "."); apply IH.
Qed.

(** X21. Only what follows the last dot of the file name, read without
    regard to case, decides the parser: [ofx] and [qfx] go to [parseOfx],
    everything else, a name with another or an empty extension included,
    goes to [parseCsv] and never throws. A name without a dot counts as its
    own extension. *)
Theorem parseBankStatementFile_by_extension
    (newDate : string -> option Js.Date) (stem ext text : string) :
  Str.includes "." ext = false ->
  let result :=
    if String.eqb (toLowerCase ext) "ofx" || String.eqb (toLowerCase ext) "qfx"
    then parseOfx newDate text
    else Returned (parseCsv newDate text) in
  parseBankStatementFile newDate (stem +:+ String "." ext) text = result
  /\ parseBankStatementFile newDate ext text = result.
Proof.
  intros H result. unfold parseBankStatementFile.
  rewrite lastPiece_after_dot, (lastPiece_plain ext H "").
  change ("" +:+ ext) with ext. split; reflexivity.
Qed.

Lemma parseBankStatementFile_by_extension_witness :
  parseBankStatementFile Js.strictDate "extrato.2024.OFX" closedOfx
  = parseOfx Js.strictDate closedOfx
  /\ parseBankStatementFile Js.strictDate "OFX" closedOfx
     = parseOfx Js.strictDate closedOfx.
Proof.
  apply (parseBankStatementFile_by_extension Js.strictDate "extrato.2024"
           "OFX" closedOfx).
  reflexivity.
Defined.

(** ** One run of the import, request by request *)

Lemma writtenDocs_app (userId accountId : string) (now : Z)
    (xs ys : list ParsedTransaction) :
  forall ref,
    writtenDocs userId accountId now ref (xs ++ ys)
    = writtenDocs userId accountId now ref xs
      ++ writtenDocs userId accountId now (ref + length xs) ys.
Proof.
  induction xs as [|x xs IH]; intros ref; cbn [app writtenDocs length].
  - now rewrite Nat.add_0_r.
  - rewrite IH. now rewrite Nat.add_succ_r.
Qed.

Lemma writtenDocs_length (userId accountId : string) (now : Z)
    (txs : list ParsedTransaction) :
  forall ref, length (writtenDocs userId accountId now ref txs) = length txs.
Proof.
  induction txs as [|t txs IH]; intros ref; [reflexivity |].
  cbn [writtenDocs length]. now rewrite IH.
Qed.

Lemma writtenDocs_copied (userId accountId : string) (now : Z)
    (txs : list ParsedTransaction) :
  forall ref,
    Forall2 (copied userId accountId) txs
            (writtenDocs userId accountId now ref txs).
Proof.
  induction txs as [|t txs IH]; intros ref; constructor; [| apply IH].
  unfold copied. cbn. repeat split.
Qed.

Lemma writtenDocs_hashes (userId accountId : string) (now : Z)
    (txs : list ParsedTransaction) :
  forall ref,
    map docImportHash (writtenDocs userId accountId now ref txs)
    = map (fun t => Some (importHash t)) txs.
Proof.
  induction txs as [|t txs IH]; intros ref; [reflexivity |].
  cbn [writtenDocs map]. now rewrite IH.
Qed.

Lemma mapM_run (userId accountId : string) (now : Z)
    (chunk : list ParsedTransaction) :
  forall w : World,
    mapM (fun t => ref <- newDocRef ;;
                   ret (ledgerEntry userId accountId now t ref)) chunk w
    = (writtenDocs userId accountId now (nextId (store w)) chunk,
       {| store := {| ledgerEntries := ledgerEntries (store w);
                      nextId := nextId (store w) + length chunk |};
          clock := clock w; requests := requests w |}).
Proof.
  induction chunk as [|t chunk IH]; intros w.
  - destruct w as [[entries next] c rs]. cbn. now rewrite Nat.add_0_r.
  - cbn [mapM]. unfold bind at 1 2. unfold newDocRef at 1. unfold ret at 1.
    unfold bind at 1. rewrite IH. unfold ret. cbn.
    now rewrite Nat.add_succ_r.
Qed.

Lemma writeLoop_run (userId accountId : string)
    (cs : list (list ParsedTransaction)) :
  forall w : World,
  exists w' : World,
    foldM (writeChunk userId accountId) cs tt w = (tt, w')
    /\ ledgerCol userId w'
       = ledgerCol userId w
         ++ writtenDocs userId accountId (clock w) (nextId (store w))
                        (concat cs)
    /\ (forall other, other <> userId ->
                      ledgerCol other w' = ledgerCol other w)
    /\ nextId (store w') = (nextId (store w) + length (concat cs))%nat
    /\ clock w' = clock w
    /\ requests w'
       = requests w ++ map (fun c => Commit userId (length c)) cs.
Proof.
  induction cs as [|chunk cs IH]; intros w.
  - exists w. cbn. rewrite !app_nil_r, Nat.add_0_r. repeat split.
  - cbn [foldM]. unfold bind at 1. unfold writeChunk at 1.
    unfold bind at 1. unfold timestampNow at 1. unfold bind at 1.
    rewrite mapM_run. unfold commit at 1.
    match goal with |- context [foldM _ cs tt ?w1] =>
      destruct (IH w1) as (w' & Hrun & Hcol & Hother & Hnext & Hclock & Hreq)
    end.
    exists w'. rewrite Hrun. split; [reflexivity |].
    cbn [store clock requests nextId ledgerEntries] in *.
    rewrite ledgerCol_commit in Hcol.
    replace (ledgerCol userId
               {| store := {| ledgerEntries := ledgerEntries (store w);
                              nextId := nextId (store w) + length chunk |};
                  clock := clock w; requests := requests w |})
      with (ledgerCol userId w) in * by reflexivity.
    repeat split.
    + rewrite Hcol. cbn [concat]. rewrite writtenDocs_app.
      now rewrite <- app_assoc.
    + intros other Hne. rewrite (Hother other Hne). unfold ledgerCol.
      cbn [store ledgerEntries]. now rewrite lookup_insert_ne by congruence.
    + rewrite Hnext. cbn [concat]. rewrite length_app. lia.
    + exact Hclock.
    + rewrite Hreq, writtenDocs_length. cbn [map]. now rewrite <- app_assoc.
Qed.

(** What one run leaves behind: the counts, the documents appended to the
    user's collection, the other collections, and the requests issued. *)
Lemma importLedgerEntries_run (userId accountId : string)
    (txs : list ParsedTransaction) (w : World) :
  let fresh := unknown (ledgerCol userId w) txs in
  exists w' : World,
    importLedgerEntries userId accountId txs w
    = ({| imported := length fresh;
          skipped := length txs - length fresh |}, w')
    /\ ledgerCol userId w'
       = ledgerCol userId w
         ++ writtenDocs userId accountId (clock w) (nextId (store w)) fresh
    /\ (forall other, other <> userId ->
                      ledgerCol other w' = ledgerCol other w)
    /\ clock w' = clock w
    /\ requests w'
       = requests w
         ++ map (GetDocs userId) (chunks BATCH_SIZE (map importHash txs))
         ++ map (fun c => Commit userId (length c))
                (chunks WRITE_BATCH_SIZE fresh).
Proof.
  intros fresh. unfold importLedgerEntries.
  destruct (Nat.eqb_spec (length txs) 0) as [Hlen | Hlen].
  - apply length_zero_iff_nil in Hlen. subst txs fresh.
    exists w. cbn. rewrite !app_nil_r. repeat split.
  - unfold bind at 1.
    destruct (checkLoop_spec userId (chunks BATCH_SIZE (map importHash txs))
                ∅ w) as (found & Hrun & Hfound).
    rewrite Hrun.
    assert (List.filter
              (fun t => negb (bool_decide (importHash t ∈ found))) txs
            = fresh) as Hfresh.
    { subst fresh. unfold unknown. apply filter_ext_in. intros t Ht. f_equal.
      unfold known.
      destruct (bool_decide (importHash t ∈ found)) eqn:Hb.
      - apply bool_decide_eq_true in Hb. apply Hfound in Hb.
        destruct Hb as [Hb | (Hn & _ & Hs)]; [set_solver |].
        rewrite Hn. symmetry. now apply existsb_hashIs.
      - apply bool_decide_eq_false in Hb. symmetry.
        apply not_true_is_false. intros Hk.
        apply andb_true_iff in Hk as [Hn Hs]. apply Hb, Hfound. right.
        split; [exact Hn |]. split; [| now apply existsb_hashIs].
        rewrite chunks_concat by (unfold BATCH_SIZE; lia).
        now apply in_map. }
    rewrite Hfresh. unfold bind at 1.
    destruct (writeLoop_run userId accountId (chunks WRITE_BATCH_SIZE fresh)
                (queriedWorld userId
                   (chunks BATCH_SIZE (map importHash txs)) w))
      as (w' & Hloop & Hcol & Hother & _ & Hclock & Hreq).
    rewrite Hloop. exists w'. split; [reflexivity |].
    rewrite chunks_concat in Hcol by (unfold WRITE_BATCH_SIZE; lia).
    repeat split.
    + exact Hcol.
    + exact Hother.
    + exact Hclock.
    + rewrite Hreq. unfold queriedWorld. cbn [requests].
      now rewrite <- app_assoc.
Qed.

(** X22. The two counts of a run add up to the number of transactions
    given, and [imported] is the number of documents the user's collection
    grows by. *)
Theorem importLedgerEntries_counts (userId accountId : string)
    (txs : list ParsedTransaction) (w : World) :
  let run := importLedgerEntries userId accountId txs w in
  (imported (fst run) + skipped (fst run) = length txs)%nat
  /\ length (ledgerCol userId (snd run))
     = (length (ledgerCol userId w) + imported (fst run))%nat.
Proof.
  destruct (importLedgerEntries_run userId accountId txs w)
    as (w' & Hrun & Hcol & _).
  cbv zeta. rewrite Hrun. cbn [fst snd imported skipped].
  rewrite Hcol, length_app, writtenDocs_length.
  pose proof (filter_length_le
                (fun t => negb (known (ledgerCol userId w) (importHash t)))
                txs) as Hle.
  unfold unknown. split; lia.
Qed.

(** X23. A run only appends to the user's collection: the documents that
    were there stay, in place and unchanged, and one document follows for
    each transaction whose fingerprint the check did not find, in the
    order of the list, holding the user, the account and the fields of the
    transaction; details and document number are kept only when they are
    not blank. *)
Theorem importLedgerEntries_appends (userId accountId : string)
    (txs : list ParsedTransaction) (w : World) :
  exists ds : list LedgerDoc,
    ledgerCol userId (snd (importLedgerEntries userId accountId txs w))
    = ledgerCol userId w ++ ds
    /\ Forall2 (copied userId accountId)
               (unknown (ledgerCol userId w) txs) ds.
Proof.
  destruct (importLedgerEntries_run userId accountId txs w)
    as (w' & Hrun & Hcol & _).
  rewrite Hrun. cbn [snd]. eexists. split; [exact Hcol |].
  apply writtenDocs_copied.
Qed.

(** X24. A run for one user leaves the collection of every other user as
    it was. *)
Theorem importLedgerEntries_other_users (userId accountId other : string)
    (txs : list ParsedTransaction) (w : World) :
  String.eqb other userId = false ->
  ledgerCol other (snd (importLedgerEntries userId accountId txs w))
  = ledgerCol other w.
Proof.
  intros Hne. apply String.eqb_neq in Hne.
  destruct (importLedgerEntries_run userId accountId txs w)
    as (w' & Hrun & _ & Hother & _).
  rewrite Hrun. cbn [snd]. now apply Hother.
Qed.

Lemma importLedgerEntries_other_users_witness :
  ledgerCol "u1"
    (snd (importLedgerEntries "u2" "acc"
            (transactions (parseCsv Js.strictDate threeRowsCsv)) sampleWorld))
  = [manualDoc].
Proof.
  apply (importLedgerEntries_other_users "u2" "acc" "u1"
           (transactions (parseCsv Js.strictDate threeRowsCsv)) sampleWorld).
  reflexivity.
Defined.

Lemma chunksFuel_sizes {A : Type} (size : nat) :
  (0 < size)%nat ->
  forall (fuel : nat) (l : list A),
    Forall (fun c => (1 <= length c <= size)%nat) (chunksFuel fuel size l).
Proof.
  intros Hs. induction fuel as [|f IH]; intros l; [constructor |].
  destruct l as [|x l]; [constructor |]. cbn [chunksFuel].
  constructor; [| apply IH].
  rewrite length_firstn. cbn [length]. lia.
Qed.

Lemma length_concat_sum {A : Type} (cs : list (list A)) :
  list_sum (map (@length A) cs) = length (concat cs).
Proof.
  induction cs as [|c cs IH]; [reflexivity |].
  cbn [map concat].
  change (list_sum (length c :: map (@length A) cs))
    with (length c + list_sum (map (@length A) cs))%nat.
  now rewrite length_app, IH.
Qed.

(** X25. The requests of a run are its existence queries followed by its
    commits, all on the user's collection. The queries carry the
    fingerprints of the list in order, between one and thirty each; the
    commits write between one and five hundred documents each, [imported]
    in all. *)
Theorem importLedgerEntries_requests (userId accountId : string)
    (txs : list ParsedTransaction) (w : World) :
  let run := importLedgerEntries userId accountId txs w in
  exists (queries : list (list string)) (commits : list nat),
    requests (snd run)
    = requests w ++ map (GetDocs userId) queries
      ++ map (Commit userId) commits
    /\ concat queries = map importHash txs
    /\ Forall (fun q => (1 <= length q <= 30)%nat) queries
    /\ Forall (fun n => (1 <= n <= 500)%nat) commits
    /\ list_sum commits = imported (fst run).
Proof.
  destruct (importLedgerEntries_run userId accountId txs w)
    as (w' & Hrun & _ & _ & _ & Hreq).
  cbv zeta. rewrite Hrun. cbn [fst snd imported].
  exists (chunks BATCH_SIZE (map importHash txs)),
         (map (@length _)
              (chunks WRITE_BATCH_SIZE (unknown (ledgerCol userId w) txs))).
  split; [now rewrite Hreq, map_map |].
  split; [apply chunks_concat; unfold BATCH_SIZE; lia |].
  split; [apply (chunksFuel_sizes BATCH_SIZE); unfold BATCH_SIZE; lia |].
  split.
  - apply Forall_map.
    apply (chunksFuel_sizes WRITE_BATCH_SIZE). unfold WRITE_BATCH_SIZE. lia.
  - rewrite length_concat_sum, chunks_concat; [reflexivity |].
    unfold WRITE_BATCH_SIZE. lia.
Qed.

Lemma known_app (docs ds : list LedgerDoc) (h : string) :
  known (docs ++ ds) h = known docs h || known ds h.
Proof.
  unfold known. rewrite existsb_app. now destruct (Str.nonEmpty h).
Qed.

Lemma unknown_after_run (docs ds : list LedgerDoc)
    (txs : list ParsedTransaction) :
  Forall (fun t => Str.nonEmpty (importHash t) = true) txs ->
  map docImportHash ds
  = map (fun t => Some (importHash t)) (unknown docs txs) ->
  unknown (docs ++ ds) txs = [].
Proof.
  intros Hne Hds.
  assert (forall t, In t txs -> known (docs ++ ds) (importHash t) = true)
    as Hknown.
  { intros t Ht. rewrite known_app.
    destruct (known docs (importHash t)) eqn:Hk; [reflexivity |].
    cbn [orb]. unfold known. rewrite List.Forall_forall in Hne.
    rewrite (Hne t Ht). cbn [andb]. apply existsb_hashIs. rewrite Hds.
    apply (in_map (fun t => Some (importHash t))). unfold unknown.
    apply filter_In. split; [exact Ht | now rewrite Hk]. }
  clear Hds Hne. unfold unknown.
  induction txs as [|t txs IH]; [reflexivity |]. cbn [List.filter].
  rewrite Hknown by now left. cbn [negb]. apply IH.
  intros t' Ht'. apply Hknown. now right.
Qed.

(** X26. Running the same list again is a no-op on every store, whatever
    it held before and however many entries of the list share a
    fingerprint: if every fingerprint of the list is non-empty, the second
    run imports nothing, skips the whole list and leaves the store as the
    first run left it. *)
Theorem importLedgerEntries_rerun (userId accountId : string)
    (txs : list ParsedTransaction) (w : World) :
  Forall (fun t => Str.nonEmpty (importHash t) = true) txs ->
  let w1 := snd (importLedgerEntries userId accountId txs w) in
  let again := importLedgerEntries userId accountId txs w1 in
  fst again = {| imported := 0; skipped := length txs |}
  /\ store (snd again) = store w1.
Proof.
  intros Hne.
  destruct (importLedgerEntries_run userId accountId txs w)
    as (w1 & Hrun1 & Hcol1 & _).
  cbv zeta. rewrite Hrun1. cbn [snd].
  destruct (importLedgerEntries_spec userId accountId txs w1)
    as (w2 & ds2 & Hrun2 & _ & _ & Hsame).
  assert (unknown (ledgerCol userId w1) txs = []) as Hnone.
  { rewrite Hcol1. apply unknown_after_run; [exact Hne |].
    apply writtenDocs_hashes. }
  unfold unknown in Hnone. rewrite Hnone in Hrun2, Hsame.
  rewrite Hrun2. cbn [fst snd length]. rewrite Nat.sub_0_r.
  split; [reflexivity | now apply Hsame].
Qed.

Lemma importLedgerEntries_rerun_witness :
  let txs := transactions (parseCsv Js.strictDate duplicateCsv) in
  let w1 := snd (importLedgerEntries "u1" "acc" txs sampleWorld) in
  let again := importLedgerEntries "u1" "acc" txs w1 in
  fst again = {| imported := 0; skipped := 3 |}
  /\ store (snd again) = store w1.
Proof.
  apply (importLedgerEntries_rerun "u1" "acc"
           (transactions (parseCsv Js.strictDate duplicateCsv)) sampleWorld).
  vm_compute. repeat constructor.
Defined.

Lemma unknown_unhashed (docs : list LedgerDoc)
    (txs : list ParsedTransaction) :
  Forall (fun t => importHash t = "") txs -> unknown docs txs = txs.
Proof.
  unfold unknown. induction txs as [|t txs IH]; intros H; [reflexivity |].
  pose proof (Forall_inv H) as Ht. apply Forall_inv_tail in H.
  cbn [List.filter]. unfold known at 1. rewrite Ht.
  cbn [Str.nonEmpty andb negb]. now rewrite (IH H).
Qed.

(** X27. A transaction without a fingerprint is never taken for a
    duplicate: a list of such transactions is imported whole on every
    run, on every store. *)
Theorem importLedgerEntries_without_fingerprint (userId accountId : string)
    (txs : list ParsedTransaction) (w : World) :
  Forall (fun t => importHash t = "") txs ->
  fst (importLedgerEntries userId accountId txs w)
  = {| imported := length txs; skipped := 0 |}.
Proof.
  intros Hempty.
  destruct (importLedgerEntries_run userId accountId txs w)
    as (w' & Hrun & _).
  rewrite Hrun. cbn [fst].
  now rewrite (unknown_unhashed _ txs Hempty), Nat.sub_diag.
Qed.

Lemma importLedgerEntries_without_fingerprint_witness :
  let first := importLedgerEntries "u1" "acc" [unhashedEntry] sampleWorld in
  fst first = {| imported := 1; skipped := 0 |}
  /\ fst (importLedgerEntries "u1" "acc" [unhashedEntry] (snd first))
     = {| imported := 1; skipped := 0 |}.
Proof.
  split.
  - apply (importLedgerEntries_without_fingerprint "u1" "acc" [unhashedEntry]
             sampleWorld).
    repeat constructor.
  - apply (importLedgerEntries_without_fingerprint "u1" "acc" [unhashedEntry]).
    repeat constructor.
Defined.

(** ** Importing balances *)

Lemma balances_existsb_hashIs (h : string) (docs : list Balances.BalanceDoc) :
  existsb (Balances.hashIs h) docs = true
  <-> In (Some h) (map Balances.balHash docs).
Proof.
  rewrite existsb_exists, in_map_iff. unfold Balances.hashIs. split.
  - intros (d & Hd & He). exists d. split; [| exact Hd].
    destruct (Balances.balHash d); [| discriminate].
    apply String.eqb_eq in He. now subst.
  - intros (d & He & Hd). exists d. split; [exact Hd |].
    rewrite He. apply String.eqb_refl.
Qed.

Lemma balances_addHashes_spec (docs : list Balances.BalanceDoc) :
  forall (acc : gset string) (h : string),
    h ∈ Balances.addHashes acc docs
    <-> h ∈ acc
        \/ (Str.nonEmpty h = true /\ In (Some h) (map Balances.balHash docs)).
Proof.
  unfold Balances.addHashes.
  induction docs as [|d docs IH]; intros acc h; simpl.
  - split; [auto | intros [H | [_ []]]; exact H].
  - rewrite IH. destruct (Balances.balHash d) as [h' |] eqn:Hd.
    + destruct (Str.nonEmpty h') eqn:Hne.
      * rewrite elem_of_union, elem_of_singleton. split.
        -- intros [[-> | H] | (Hn & Hin)]; auto.
        -- intros [H | (Hn & [He | Hin])]; auto.
           injection He as ->. auto.
      * split.
        -- intros [H | (Hn & Hin)]; auto.
        -- intros [H | (Hn & [He | Hin])]; auto.
           injection He as ->. congruence.
    + split.
      * intros [H | (Hn & Hin)]; auto.
      * intros [H | (Hn & [He | Hin])]; auto. discriminate.
Qed.

Lemma balances_queried_hashes (chunk : list string)
    (docs : list Balances.BalanceDoc) (h : string) :
  In (Some h)
     (map Balances.balHash
        (List.filter
           (fun d => match Balances.balHash d with
                     | Some h => stringIn h chunk
                     | None => false
                     end) docs))
  <-> In (Some h) (map Balances.balHash docs) /\ In h chunk.
Proof.
  rewrite !in_map_iff. split.
  - intros (d & He & Hd). apply filter_In in Hd as [Hd Hc].
    rewrite He in Hc. apply stringIn_In in Hc. eauto.
  - intros [(d & He & Hd) Hc]. exists d. split; [exact He |].
    apply filter_In. split; [exact Hd |]. rewrite He. now apply stringIn_In.
Qed.

Lemma balances_checkLoop (userId : string) (cs : list (list string)) :
  forall (acc : gset string) (w : Balances.World),
  exists found : gset string,
    Balances.foldM (Balances.checkChunk userId) cs acc w
    = (found, Balances.queriedWorld userId cs w)
    /\ forall h,
         h ∈ found
         <-> h ∈ acc
             \/ (Str.nonEmpty h = true /\ In h (concat cs)
                 /\ In (Some h)
                       (map Balances.balHash
                            (Balances.accountBalancesCol userId w))).
Proof.
  induction cs as [|chunk cs IH]; intros acc w.
  - exists acc. split.
    + unfold Balances.queriedWorld. destruct w; simpl. now rewrite app_nil_r.
    + intros h. split; [auto | intros [H | (_ & [] & _)]; exact H].
  - simpl Balances.foldM. unfold Balances.bind at 1.
    unfold Balances.checkChunk at 1.
    unfold Balances.bind, Balances.getDocsIn, Balances.ret.
    match goal with |- context [Balances.foldM _ cs ?a ?w1] =>
      destruct (IH a w1) as (found & Hrun & Hfound) end.
    exists found. split.
    + rewrite Hrun. unfold Balances.queriedWorld. simpl.
      now rewrite <- app_assoc.
    + intros h. rewrite Hfound, balances_addHashes_spec,
        balances_queried_hashes.
      unfold Balances.accountBalancesCol. simpl. rewrite in_app_iff. tauto.
Qed.

Lemma balances_writtenDocs_app (userId accountId : string) (now : Z)
    (xs ys : list ParsedBalance) :
  forall ref,
    Balances.writtenDocs userId accountId now ref (xs ++ ys)
    = Balances.writtenDocs userId accountId now ref xs
      ++ Balances.writtenDocs userId accountId now (ref + length xs) ys.
Proof.
  induction xs as [|x xs IH]; intros ref;
    cbn [app Balances.writtenDocs length].
  - now rewrite Nat.add_0_r.
  - rewrite IH. now rewrite Nat.add_succ_r.
Qed.

Lemma balances_writtenDocs_length (userId accountId : string) (now : Z)
    (bs : list ParsedBalance) :
  forall ref,
    length (Balances.writtenDocs userId accountId now ref bs) = length bs.
Proof.
  induction bs as [|b bs IH]; intros ref; [reflexivity |].
  cbn [Balances.writtenDocs length]. now rewrite IH.
Qed.

Lemma balances_writtenDocs_copied (userId accountId : string) (now : Z)
    (bs : list ParsedBalance) :
  forall ref,
    Forall2 (Balances.copied userId accountId) bs
            (Balances.writtenDocs userId accountId now ref bs).
Proof.
  induction bs as [|b bs IH]; intros ref; constructor; [| apply IH].
  unfold Balances.copied. cbn. repeat split.
Qed.

Lemma balances_writtenDocs_hashes (userId accountId : string) (now : Z)
    (bs : list ParsedBalance) :
  forall ref,
    map Balances.balHash (Balances.writtenDocs userId accountId now ref bs)
    = map (fun b => Some (balanceHash b)) bs.
Proof.
  induction bs as [|b bs IH]; intros ref; [reflexivity |].
  cbn [Balances.writtenDocs map]. now rewrite IH.
Qed.

Lemma balances_mapM_run (userId accountId : string) (now : Z)
    (chunk : list ParsedBalance) :
  forall w : Balances.World,
    Balances.mapM
      (fun b =>
         Balances.bind Balances.newDocRef (fun ref =>
         Balances.ret (Balances.balanceEntry userId accountId now b ref)))
      chunk w
    = (Balances.writtenDocs userId accountId now (Balances.nextId w) chunk,
       {| Balances.accountBalances := Balances.accountBalances w;
          Balances.nextId := Balances.nextId w + length chunk;
          Balances.clock := Balances.clock w;
          Balances.requests := Balances.requests w |}).
Proof.
  induction chunk as [|b chunk IH]; intros w.
  - destruct w as [entries next c rs]. cbn. now rewrite Nat.add_0_r.
  - cbn [Balances.mapM]. unfold Balances.bind at 1 2.
    unfold Balances.newDocRef at 1. unfold Balances.ret at 1.
    unfold Balances.bind at 1. rewrite IH. unfold Balances.ret. cbn.
    now rewrite Nat.add_succ_r.
Qed.

Lemma balances_col_commit (userId : string)
    (m : gmap string (list Balances.BalanceDoc))
    (docs : list Balances.BalanceDoc) (next : nat) (c : Z)
    (rs : list Request) :
  Balances.accountBalancesCol userId
    {| Balances.accountBalances := <[userId := docs]> m;
       Balances.nextId := next; Balances.clock := c;
       Balances.requests := rs |} = docs.
Proof.
  unfold Balances.accountBalancesCol. simpl. now rewrite lookup_insert_eq.
Qed.

Lemma balances_writeLoop (userId accountId : string)
    (cs : list (list ParsedBalance)) :
  forall w : Balances.World,
  exists w' : Balances.World,
    Balances.foldM (Balances.writeChunk userId accountId) cs tt w = (tt, w')
    /\ Balances.accountBalancesCol userId w'
       = Balances.accountBalancesCol userId w
         ++ Balances.writtenDocs userId accountId (Balances.clock w)
              (Balances.nextId w) (concat cs)
    /\ (forall other, other <> userId ->
          Balances.accountBalancesCol other w'
          = Balances.accountBalancesCol other w)
    /\ Balances.nextId w' = (Balances.nextId w + length (concat cs))%nat
    /\ Balances.clock w' = Balances.clock w
    /\ (cs = [] -> w' = w).
Proof.
  induction cs as [|chunk cs IH]; intros w.
  - exists w. cbn. rewrite !app_nil_r, Nat.add_0_r. repeat split.
  - cbn [Balances.foldM]. unfold Balances.bind at 1.
    unfold Balances.writeChunk at 1.
    unfold Balances.bind at 1. unfold Balances.timestampNow at 1.
    unfold Balances.bind at 1.
    rewrite balances_mapM_run. unfold Balances.commit at 1.
    match goal with |- context [Balances.foldM _ cs tt ?w1] =>
      destruct (IH w1) as (w' & Hrun & Hcol & Hother & Hnext & Hclock & _)
    end.
    exists w'. rewrite Hrun. split; [reflexivity |].
    cbn [Balances.clock Balances.nextId Balances.accountBalances] in *.
    rewrite balances_col_commit in Hcol.
    replace (Balances.accountBalancesCol userId
               {| Balances.accountBalances := Balances.accountBalances w;
                  Balances.nextId := Balances.nextId w + length chunk;
                  Balances.clock := Balances.clock w;
                  Balances.requests := Balances.requests w |})
      with (Balances.accountBalancesCol userId w) in * by reflexivity.
    repeat split.
    + rewrite Hcol. cbn [concat]. rewrite balances_writtenDocs_app.
      now rewrite <- app_assoc.
    + intros other Hne. rewrite (Hother other Hne).
      unfold Balances.accountBalancesCol.
      cbn [Balances.accountBalances].
      now rewrite lookup_insert_ne by congruence.
    + rewrite Hnext. cbn [concat]. rewrite length_app. lia.
    + exact Hclock.
    + discriminate.
Qed.

(** What one run of [importAccountBalances] leaves behind. *)
Lemma importAccountBalances_run (userId accountId : string)
    (bs : list ParsedBalance) (w : Balances.World) :
  let fresh := Balances.unknown (Balances.accountBalancesCol userId w) bs in
  exists w' : Balances.World,
    Balances.importAccountBalances userId accountId bs w
    = ({| imported := length fresh;
          skipped := length bs - length fresh |}, w')
    /\ Balances.accountBalancesCol userId w'
       = Balances.accountBalancesCol userId w
         ++ Balances.writtenDocs userId accountId (Balances.clock w)
              (Balances.nextId w) fresh
    /\ (forall other, other <> userId ->
          Balances.accountBalancesCol other w'
          = Balances.accountBalancesCol other w)
    /\ (fresh = [] ->
        Balances.accountBalances w' = Balances.accountBalances w).
Proof.
  intros fresh. unfold Balances.importAccountBalances.
  destruct (Nat.eqb_spec (length bs) 0) as [Hlen | Hlen].
  - apply length_zero_iff_nil in Hlen. subst bs fresh.
    exists w. cbn. rewrite !app_nil_r. repeat split.
  - unfold Balances.bind at 1.
    destruct (balances_checkLoop userId
                (chunks BATCH_SIZE (map balanceHash bs)) ∅ w)
      as (found & Hrun & Hfound).
    rewrite Hrun.
    assert (List.filter
              (fun b => negb (bool_decide (balanceHash b ∈ found))) bs
            = fresh) as Hfresh.
    { subst fresh. unfold Balances.unknown. apply filter_ext_in.
      intros b Hb. f_equal. unfold Balances.known.
      destruct (bool_decide (balanceHash b ∈ found)) eqn:Hd.
      - apply bool_decide_eq_true in Hd. apply Hfound in Hd.
        destruct Hd as [Hd | (Hn & _ & Hs)]; [set_solver |].
        rewrite Hn. symmetry. now apply balances_existsb_hashIs.
      - apply bool_decide_eq_false in Hd. symmetry.
        apply not_true_is_false. intros Hk.
        apply andb_true_iff in Hk as [Hn Hs]. apply Hd, Hfound. right.
        split; [exact Hn |]. split; [| now apply balances_existsb_hashIs].
        rewrite chunks_concat by (unfold BATCH_SIZE; lia).
        now apply in_map. }
    rewrite Hfresh. unfold Balances.bind at 1.
    destruct (balances_writeLoop userId accountId
                (chunks WRITE_BATCH_SIZE fresh)
                (Balances.queriedWorld userId
                   (chunks BATCH_SIZE (map balanceHash bs)) w))
      as (w' & Hloop & Hcol & Hother & _ & _ & Hnil).
    rewrite Hloop. exists w'. split; [reflexivity |].
    rewrite chunks_concat in Hcol by (unfold WRITE_BATCH_SIZE; lia).
    repeat split.
    + exact Hcol.
    + exact Hother.
    + intros Hempty. rewrite Hempty in Hnil.
      now rewrite (Hnil eq_refl).
Qed.

(** X28. [importAccountBalances] only appends to the user's collection of
    balances: one document for each balance whose fingerprint the check
    did not find, in order, holding the user, the account, the date, the
    value and the fingerprint. Its two counts add up to the number of
    balances given, and the collections of other users stay as they
    were. *)
Theorem importAccountBalances_appends (userId accountId : string)
    (bs : list ParsedBalance) (w : Balances.World) :
  let run := Balances.importAccountBalances userId accountId bs w in
  (exists ds : list Balances.BalanceDoc,
      Balances.accountBalancesCol userId (snd run)
      = Balances.accountBalancesCol userId w ++ ds
      /\ Forall2 (Balances.copied userId accountId)
                 (Balances.unknown (Balances.accountBalancesCol userId w) bs)
                 ds
      /\ imported (fst run) = length ds)
  /\ (imported (fst run) + skipped (fst run) = length bs)%nat
  /\ (forall other,
         String.eqb other userId = false ->
         Balances.accountBalancesCol other (snd run)
         = Balances.accountBalancesCol other w).
Proof.
  destruct (importAccountBalances_run userId accountId bs w)
    as (w' & Hrun & Hcol & Hother & _).
  cbv zeta. rewrite Hrun. cbn [fst snd imported skipped].
  split; [| split].
  - eexists. split; [exact Hcol |].
    split; [apply balances_writtenDocs_copied |].
    now rewrite balances_writtenDocs_length.
  - pose proof (filter_length_le
                  (fun b =>
                     negb (Balances.known
                             (Balances.accountBalancesCol userId w)
                             (balanceHash b))) bs) as Hle.
    unfold Balances.unknown. lia.
  - intros other Hne. apply String.eqb_neq in Hne. now apply Hother.
Qed.

Lemma balances_known_app (docs ds : list Balances.BalanceDoc) (h : string) :
  Balances.known (docs ++ ds) h = Balances.known docs h || Balances.known ds h.
Proof.
  unfold Balances.known. rewrite existsb_app. now destruct (Str.nonEmpty h).
Qed.

Lemma balances_unknown_after_run (docs ds : list Balances.BalanceDoc)
    (bs : list ParsedBalance) :
  Forall (fun b => Str.nonEmpty (balanceHash b) = true) bs ->
  map Balances.balHash ds
  = map (fun b => Some (balanceHash b)) (Balances.unknown docs bs) ->
  Balances.unknown (docs ++ ds) bs = [].
Proof.
  intros Hne Hds.
  assert (forall b, In b bs ->
                    Balances.known (docs ++ ds) (balanceHash b) = true)
    as Hknown.
  { intros b Hb. rewrite balances_known_app.
    destruct (Balances.known docs (balanceHash b)) eqn:Hk; [reflexivity |].
    cbn [orb]. unfold Balances.known. rewrite List.Forall_forall in Hne.
    rewrite (Hne b Hb). cbn [andb]. apply balances_existsb_hashIs.
    rewrite Hds.
    apply (in_map (fun b => Some (balanceHash b))). unfold Balances.unknown.
    apply filter_In. split; [exact Hb | now rewrite Hk]. }
  clear Hds Hne. unfold Balances.unknown.
  induction bs as [|b bs IH]; [reflexivity |]. cbn [List.filter].
  rewrite Hknown by now left. cbn [negb]. apply IH.
  intros b' Hb'. apply Hknown. now right.
Qed.

Lemma parseCsv_balance_hashes (newDate : string -> option Js.Date)
    (text : string) :
  Forall (fun b => Str.nonEmpty (balanceHash b) = true)
         (balances (parseCsv newDate text)).
Proof.
  apply parseCsv_balances_Forall. intros delimiter c line b H.
  unfold processRow in H. split_row H.
  all: apply BalanceRow_inj in H; subst b; apply computeImportHash_nonEmpty.
Qed.

(** X29. From the parser to the store: under every host, for every
    statement text and every store, importing the balances [parseCsv]
    returns a second time imports nothing, skips them all and leaves the
    collections as the first run left them. *)
Theorem importAccountBalances_rerun (newDate : string -> option Js.Date)
    (userId accountId text : string) (w : Balances.World) :
  let bs := balances (parseCsv newDate text) in
  let w1 := snd (Balances.importAccountBalances userId accountId bs w) in
  let again := Balances.importAccountBalances userId accountId bs w1 in
  fst again = {| imported := 0; skipped := length bs |}
  /\ Balances.accountBalances (snd again) = Balances.accountBalances w1.
Proof.
  cbv zeta.
  destruct (importAccountBalances_run userId accountId
              (balances (parseCsv newDate text)) w)
    as (w1 & Hrun1 & Hcol1 & _).
  rewrite Hrun1. cbn [snd].
  destruct (importAccountBalances_run userId accountId
              (balances (parseCsv newDate text)) w1)
    as (w2 & Hrun2 & _ & _ & Hsame).
  assert (Balances.unknown (Balances.accountBalancesCol userId w1)
            (balances (parseCsv newDate text)) = []) as Hnone.
  { rewrite Hcol1. apply balances_unknown_after_run.
    - apply parseCsv_balance_hashes.
    - apply balances_writtenDocs_hashes. }
  rewrite Hnone in Hrun2, Hsame.
  rewrite Hrun2. cbn [fst snd length]. rewrite Nat.sub_0_r.
  split; [reflexivity | now apply Hsame].
Qed.
